(** * The xRPC WebSocket subscription client (src/websocket.ts)

    A shallow embedding of [XRpcWebSocketClient]: the class fields are a
    record, every method and every handler the class installs on its
    socket is a function in a small state monad over that record and over
    the part of the JavaScript runtime the class talks to (sockets and
    their [readyState], timers, promises), and everything the class does
    to the outside (listener and callback invocations, frames sent,
    promises settled, console output) is appended to a trace. *)

From Stdlib Require Import ZArith NArith List Bool Ascii String Lia.
From stdpp Require Import base tactics option list strings pretty.
Import ListNotations.

Local Open Scope string_scope.
Local Open Scope list_scope.

(** ** Values decoded by [JSON.parse] *)

(** Arrays and objects carry the reference the runtime allocated for them:
    [Map] compares keys with SameValueZero, which is identity on them.
    Numbers are the integers ([0] stands for both zeros). *)
#[warnings="-register-all"] Inductive JValue : Type :=
| JUndefined
| JNull
| JBool (b : bool)
| JNum (n : Z)
| JStr (s : string)
| JArr (ref : nat) (items : list JValue)
| JObj (ref : nat) (props : list (string * JValue)).

(** [!!v] *)
Definition truthy (v : JValue) : bool :=
  match v with
  | JUndefined | JNull => false
  | JBool b => b
  | JNum n => negb (n =? 0)%Z
  | JStr s => negb (String.eqb s "")
  | JArr _ _ | JObj _ _ => true
  end.

Fixpoint assoc (k : string) (ps : list (string * JValue)) : JValue :=
  match ps with
  | [] => JUndefined
  | (k', v) :: ps' => if String.eqb k' k then v else assoc k ps'
  end.

(** [v.k] for a [v] that is neither [null] nor [undefined]; none of the
    names read by the client is a property of a string, number, boolean
    or array. *)
Definition prop (v : JValue) (k : string) : JValue :=
  match v with
  | JObj _ ps => assoc k ps
  | _ => JUndefined
  end.

Definition nullish (v : JValue) : bool :=
  match v with
  | JUndefined | JNull => true
  | _ => false
  end.

(** [v?.k] *)
Definition opt_prop (v : JValue) (k : string) : JValue :=
  if nullish v then JUndefined else prop v k.

(** [a || b] *)
Definition js_or (a b : JValue) : JValue := if truthy a then a else b.

Definition sameValueZero (a b : JValue) : bool :=
  match a, b with
  | JUndefined, JUndefined => true
  | JNull, JNull => true
  | JBool x, JBool y => Bool.eqb x y
  | JNum x, JNum y => (x =? y)%Z
  | JStr x, JStr y => String.eqb x y
  | JArr r _, JArr r' _ => Nat.eqb r r'
  | JObj r _, JObj r' _ => Nat.eqb r r'
  | _, _ => false
  end.

(** [a === b] coincides with SameValueZero on these values. *)
Definition strict_eq (a b : JValue) : bool := sameValueZero a b.

(** ** [Map]

    The entry list of an ECMAScript [Map]: [set] on a new key appends,
    [delete] and [clear] empty the slot and keep it, and an iterator is an
    index into the list, so it sees what is appended while it runs. *)
Module JsMap.

Definition t (V : Type) : Type := list (option (JValue * V)).

Definition holds {V} (k : JValue) (slot : option (JValue * V)) : bool :=
  match slot with
  | Some (k', _) => sameValueZero k' k
  | None => false
  end.

Fixpoint get {V} (k : JValue) (m : t V) : option V :=
  match m with
  | [] => None
  | slot :: m' =>
      match slot with
      | Some (k', v) => if sameValueZero k' k then Some v else get k m'
      | None => get k m'
      end
  end.

Definition has {V} (k : JValue) (m : t V) : bool :=
  match get k m with Some _ => true | None => false end.

Fixpoint set {V} (k : JValue) (v : V) (m : t V) : t V :=
  match m with
  | [] => [Some (k, v)]
  | slot :: m' =>
      match slot with
      | Some (k', v') =>
          if sameValueZero k' k then Some (k', v) :: m'
          else slot :: set k v m'
      | None => slot :: set k v m'
      end
  end.

Fixpoint delete {V} (k : JValue) (m : t V) : t V :=
  match m with
  | [] => []
  | slot :: m' =>
      if holds k slot then None :: m' else slot :: delete k m'
  end.

Definition clear {V} (m : t V) : t V := List.map (fun _ => None) m.

(** The live entries, in insertion order. *)
Definition entries {V} (m : t V) : list (JValue * V) := omap (fun s => s) m.

Definition keys {V} (m : t V) : list JValue := List.map fst (entries m).

Definition values {V} (m : t V) : list V := List.map snd (entries m).

(** The slot an iterator at position [i] reads. *)
Definition slot_at {V} (i : nat) (m : t V) : option (JValue * V) :=
  match nth_error m i with
  | Some s => s
  | None => None
  end.

End JsMap.

(** ** The data of the client *)

Inductive JsError : Type :=
| Error (message : string)
| ErrorSubscriptionNotFound (subscriptionId : JValue)
  (* new Error(`Subscription ${subscriptionId} not found`) *)
| XRpcError (code message data : JValue)
| SyntaxError (* thrown by JSON.parse *)
| TypeError (* thrown by reading a property of null *).

(** A function handed to the client by the application: a callback or a
    listener. It is identified by its reference; calling it returns or
    throws. It does not call back into the client while it runs; what
    [_emit] does when a listener calls [off] is modelled apart, in [Live]. *)
Record JsFunction : Type := {
  fn_ref : nat;
  fn_throws : option JsError
}.

Definition same_function (f g : JsFunction) : bool := Nat.eqb (fn_ref f) (fn_ref g).

Inductive SubscriptionType : Type := newHeads | newPendingTransactions | logs.

Definition type_name (t : SubscriptionType) : string :=
  match t with
  | newHeads => "newHeads"
  | newPendingTransactions => "newPendingTransactions"
  | logs => "logs"
  end.

Record Subscription : Type := {
  sub_id : JValue;
  sub_type : SubscriptionType;
  sub_params : list JValue;
  sub_callback : JsFunction
}.

(** [maxReconnectAttempts] is a number or [Infinity]. *)
Inductive Bound : Type := Finite (n : nat) | Infinity.

Definition reached (attempts : nat) (b : Bound) : bool :=
  match b with
  | Finite n => Nat.leb n attempts
  | Infinity => false
  end.

(** The constructor argument; [None] is a property that is not there. *)
Record SubscriptionOptions : Type := {
  network : string;
  apiKey : string;
  baseUrl : option string;
  timeout : option N;
  debug : option bool;
  autoReconnect : option bool;
  reconnectDelay : option N;
  maxReconnectAttempts : option Bound
}.

(** [Required<SubscriptionOptions>] *)
Record Options : Type := {
  o_network : string;
  o_apiKey : string;
  o_baseUrl : string;
  o_timeout : N;
  o_debug : bool;
  o_autoReconnect : bool;
  o_reconnectDelay : N;
  o_maxReconnectAttempts : Bound
}.

(** What the [resolve] and [reject] closures of a pending request close
    over: the call that made the request and the promise it returned. *)
Inductive Request : Type :=
| SubscribeRequest (type : SubscriptionType) (params : list JValue) (callback : JsFunction)
| UnsubscribeRequest (subscriptionId : JValue).

Record PendingRequest : Type := {
  request : Request;
  promise : nat;
  timeoutId : nat
}.

Inductive EventKind : Type := EvOpen | EvClose | EvError | EvReconnect.

Global Instance EventKind_eq_dec : EqDecision EventKind.
Proof. solve_decision. Defined.

(** An event with the arguments [_emit] passes to the listeners. *)
Inductive Emitted : Type :=
| OnOpen
| OnClose (code : Z) (reason : string)
| OnError (e : JsError)
| OnReconnect (attempt : nat).

Definition kind_of (e : Emitted) : EventKind :=
  match e with
  | OnOpen => EvOpen
  | OnClose _ _ => EvClose
  | OnError _ => EvError
  | OnReconnect _ => EvReconnect
  end.

Record Client : Type := {
  options : Options;
  ws : option nat;
  subscriptions : JsMap.t Subscription;
  pendingRequests : JsMap.t PendingRequest;
  requestIdCounter : nat;
  reconnectAttempts : nat;
  reconnectTimeoutId : option nat;
  isManualClose : bool;
  eventListeners : EventKind -> option (list JsFunction)
}.

(** [constructor]: the fields of the new object. The spread [...options]
    comes last in the object literal, so a property that is there wins
    over its default. *)
Definition initial (o : SubscriptionOptions) : Client :=
  {| options := {|
       o_network := network o;
       o_apiKey := apiKey o;
       o_baseUrl := default "wss://api.xrpc.pro" (baseUrl o);
       o_timeout := default 10000%N (timeout o);
       o_debug := default false (debug o);
       o_autoReconnect := default true (autoReconnect o);
       o_reconnectDelay := default 5000%N (reconnectDelay o);
       o_maxReconnectAttempts := default Infinity (maxReconnectAttempts o)
     |};
     ws := None;
     subscriptions := [];
     pendingRequests := [];
     requestIdCounter := 0;
     reconnectAttempts := 0;
     reconnectTimeoutId := None;
     isManualClose := false;
     eventListeners := fun _ => None
  |}.

Definition new_XRpcWebSocketClient (o : SubscriptionOptions) : JsError + Client :=
  if String.eqb (apiKey o) "" then inl (Error "API key is required")
  else if String.eqb (network o) "" then inl (Error "Network is required")
  else inr (initial o).

(** ** The runtime around the client *)

Definition CONNECTING : nat := 0.
Definition OPEN : nat := 1.
Definition CLOSING : nat := 2.
Definition CLOSED : nat := 3.

(** What the handlers [connect] installs on its socket close over: the
    promise [connect] returned and the handle of its timeout. *)
Record Handlers : Type := {
  connectPromise : nat;
  connectionTimeout : nat
}.

Record Socket : Type := {
  readyState : nat;
  handlers : option Handlers
}.

Inductive Outcome : Type :=
| Resolved (v : JValue)
| Rejected (e : JsError).

(** What is suspended on a promise the client made. *)
Inductive Waiter : Type :=
| Caller
  (* application code *)
| Replay (next : nat) (id : JValue)
  (* the resubscribe loop of [_scheduleReconnect], at [await this.subscribe(...)] *)
| AllSettled (d : nat)
  (* [Promise.allSettled] of the [disconnect()] that returned promise [d] *)
| SubscribeConnected (type : SubscriptionType) (params : list JValue)
    (callback : JsFunction) (p : nat)
  (* [subscribe], which returned promise [p], at [await this.connect()] *)
| Reconnect
  (* the timer callback of [_scheduleReconnect], at [await this.connect()] *).

Inductive PromiseState : Type :=
| Pending (w : Waiter)
| Done (o : Outcome).

Inductive TimerTask : Type :=
| RequestTimeout (requestId : JValue) (p : nat) (message : string)
| ConnectionTimeout (p : nat)
| CheckInterval (p : nat)
| CheckTimeout (p : nat) (checkInterval : nat)
| ReconnectTimer.

Record Timer : Type := {
  timer_id : nat;
  timer_delay : N;
  timer_task : TimerTask
}.

Inductive LogEntry : Type :=
| LogAlreadyConnected
| LogConnectionInProgress
| LogConnecting (wsUrl : string)
| LogConnected
| LogError (message : string)
| LogClosed (code : Z) (reason : string)
| LogSubscribed (type : SubscriptionType) (id : JValue)
| LogUnsubscribed (id : JValue)
| LogSending (method : string) (params : list JValue) (id : JValue)
| LogReceived (message : JValue)
| LogParseError (e : JsError)
| LogMaxReconnect
| LogScheduling (attempt : nat) (delay : N)
| LogResubscribeFailed (id : JValue) (e : JsError)
| LogReconnectFailed (e : JsError)
| LogListenerError (e : JsError).

Inductive Effect : Type :=
| ConsoleLog (entry : LogEntry)
| Emit (e : Emitted)
  (* [_emit] was called *)
| ListenerCall (listener : JsFunction) (e : Emitted)
| CallbackCall (callback : JsFunction) (data : JValue)
| NewWebSocket (wsUrl : string) (socket : nat)
| WsSend (socket : nat) (method : string) (params : list JValue) (id : JValue)
| WsClose (socket : nat) (args : option (Z * string))
| Settle (p : nat) (o : Outcome).

Record World : Type := {
  client : Client;
  sockets : list Socket;
  timers : list Timer;
  nextTimer : nat;
  promises : list PromiseState;
  allSettled : list (nat * list nat);
  trace : list Effect;
  dateNow : nat -> N;
  (* [Date.now()] at the n-th call of [_generateRequestId] *)
  mathRandom : nat -> string;
  (* [Math.random().toString(36).substring(7)] at that call *)
  webSocketThrows : string -> option JsError
  (* what [_getWebSocketImplementation()] or [new WebSocketImpl(wsUrl)]
     throws for the URL in this runtime; [None] when a socket is made *)
}.

(** Field updates. *)
Definition with_ws (x : option nat) (c : Client) : Client :=
  {| options := options c; ws := x; subscriptions := subscriptions c;
     pendingRequests := pendingRequests c; requestIdCounter := requestIdCounter c;
     reconnectAttempts := reconnectAttempts c; reconnectTimeoutId := reconnectTimeoutId c;
     isManualClose := isManualClose c; eventListeners := eventListeners c |}.

Definition with_subscriptions (x : JsMap.t Subscription) (c : Client) : Client :=
  {| options := options c; ws := ws c; subscriptions := x;
     pendingRequests := pendingRequests c; requestIdCounter := requestIdCounter c;
     reconnectAttempts := reconnectAttempts c; reconnectTimeoutId := reconnectTimeoutId c;
     isManualClose := isManualClose c; eventListeners := eventListeners c |}.

Definition with_pendingRequests (x : JsMap.t PendingRequest) (c : Client) : Client :=
  {| options := options c; ws := ws c; subscriptions := subscriptions c;
     pendingRequests := x; requestIdCounter := requestIdCounter c;
     reconnectAttempts := reconnectAttempts c; reconnectTimeoutId := reconnectTimeoutId c;
     isManualClose := isManualClose c; eventListeners := eventListeners c |}.

Definition with_requestIdCounter (x : nat) (c : Client) : Client :=
  {| options := options c; ws := ws c; subscriptions := subscriptions c;
     pendingRequests := pendingRequests c; requestIdCounter := x;
     reconnectAttempts := reconnectAttempts c; reconnectTimeoutId := reconnectTimeoutId c;
     isManualClose := isManualClose c; eventListeners := eventListeners c |}.

Definition with_reconnectAttempts (x : nat) (c : Client) : Client :=
  {| options := options c; ws := ws c; subscriptions := subscriptions c;
     pendingRequests := pendingRequests c; requestIdCounter := requestIdCounter c;
     reconnectAttempts := x; reconnectTimeoutId := reconnectTimeoutId c;
     isManualClose := isManualClose c; eventListeners := eventListeners c |}.

Definition with_reconnectTimeoutId (x : option nat) (c : Client) : Client :=
  {| options := options c; ws := ws c; subscriptions := subscriptions c;
     pendingRequests := pendingRequests c; requestIdCounter := requestIdCounter c;
     reconnectAttempts := reconnectAttempts c; reconnectTimeoutId := x;
     isManualClose := isManualClose c; eventListeners := eventListeners c |}.

Definition with_isManualClose (x : bool) (c : Client) : Client :=
  {| options := options c; ws := ws c; subscriptions := subscriptions c;
     pendingRequests := pendingRequests c; requestIdCounter := requestIdCounter c;
     reconnectAttempts := reconnectAttempts c; reconnectTimeoutId := reconnectTimeoutId c;
     isManualClose := x; eventListeners := eventListeners c |}.

Definition with_eventListeners (x : EventKind -> option (list JsFunction)) (c : Client) : Client :=
  {| options := options c; ws := ws c; subscriptions := subscriptions c;
     pendingRequests := pendingRequests c; requestIdCounter := requestIdCounter c;
     reconnectAttempts := reconnectAttempts c; reconnectTimeoutId := reconnectTimeoutId c;
     isManualClose := isManualClose c; eventListeners := x |}.

Definition with_client (x : Client) (w : World) : World :=
  {| client := x; sockets := sockets w; timers := timers w; nextTimer := nextTimer w;
     promises := promises w; allSettled := allSettled w; trace := trace w;
     dateNow := dateNow w; mathRandom := mathRandom w;
     webSocketThrows := webSocketThrows w |}.

Definition with_sockets (x : list Socket) (w : World) : World :=
  {| client := client w; sockets := x; timers := timers w; nextTimer := nextTimer w;
     promises := promises w; allSettled := allSettled w; trace := trace w;
     dateNow := dateNow w; mathRandom := mathRandom w;
     webSocketThrows := webSocketThrows w |}.

Definition with_timers (x : list Timer) (n : nat) (w : World) : World :=
  {| client := client w; sockets := sockets w; timers := x; nextTimer := n;
     promises := promises w; allSettled := allSettled w; trace := trace w;
     dateNow := dateNow w; mathRandom := mathRandom w;
     webSocketThrows := webSocketThrows w |}.

Definition with_promises (x : list PromiseState) (w : World) : World :=
  {| client := client w; sockets := sockets w; timers := timers w; nextTimer := nextTimer w;
     promises := x; allSettled := allSettled w; trace := trace w;
     dateNow := dateNow w; mathRandom := mathRandom w;
     webSocketThrows := webSocketThrows w |}.

Definition with_allSettled (x : list (nat * list nat)) (w : World) : World :=
  {| client := client w; sockets := sockets w; timers := timers w; nextTimer := nextTimer w;
     promises := promises w; allSettled := x; trace := trace w;
     dateNow := dateNow w; mathRandom := mathRandom w;
     webSocketThrows := webSocketThrows w |}.

Definition with_trace (x : list Effect) (w : World) : World :=
  {| client := client w; sockets := sockets w; timers := timers w; nextTimer := nextTimer w;
     promises := promises w; allSettled := allSettled w; trace := x;
     dateNow := dateNow w; mathRandom := mathRandom w;
     webSocketThrows := webSocketThrows w |}.

Definition with_webSocketThrows (x : string -> option JsError) (w : World) : World :=
  {| client := client w; sockets := sockets w; timers := timers w; nextTimer := nextTimer w;
     promises := promises w; allSettled := allSettled w; trace := trace w;
     dateNow := dateNow w; mathRandom := mathRandom w; webSocketThrows := x |}.

(** ** The monad: state passing over [World] *)

Definition M (A : Type) : Type := World -> A * World.

Definition ret {A} (a : A) : M A := fun w => (a, w).

Definition bind {A B} (m : M A) (k : A -> M B) : M B :=
  fun w => let (a, w') := m w in k a w'.

Declare Scope M_scope.
Delimit Scope M_scope with M.
Bind Scope M_scope with M.

Notation "'let*' x := m 'in' k" := (bind m (fun x => k))
  (at level 10, x name, m at level 100, k at level 200) : M_scope.
Notation "m ;; k" := (bind m (fun _ => k))
  (at level 100, k at level 200, right associativity) : M_scope.

Local Open Scope M_scope.

Definition when (b : bool) (m : M unit) : M unit := if b then m else ret tt.

Definition get_world : M World := fun w => (w, w).

Definition update (f : World -> World) : M unit := fun w => (tt, f w).

Definition get_client : M Client :=
  let* w := get_world in ret (client w).

Definition modify (f : Client -> Client) : M unit :=
  update (fun w => with_client (f (client w)) w).

Definition tell (e : Effect) : M unit :=
  update (fun w => with_trace (trace w ++ [e]) w).

(** The world a run ends in. *)
Definition exec {A} (m : M A) (w : World) : World := snd (m w).

(** *** Timers. Handles are positive, so a stored handle is truthy. *)

Definition setTimeout (task : TimerTask) (delay : N) : M nat :=
  let* w := get_world in
  let id := nextTimer w in
  update (with_timers
    (timers w ++ [{| timer_id := id; timer_delay := delay; timer_task := task |}]) (S id)) ;;
  ret id.

(** [setInterval] makes a timer of the same kind; [CheckInterval] is the
    one task that is left armed when it fires. *)
Definition setInterval (task : TimerTask) (delay : N) : M nat := setTimeout task delay.

Definition clearTimeout (id : nat) : M unit :=
  update (fun w =>
    with_timers (List.filter (fun t => negb (Nat.eqb (timer_id t) id)) (timers w)) (nextTimer w) w).

Definition clearInterval (id : nat) : M unit := clearTimeout id.

Definition armed (id : nat) (w : World) : option Timer :=
  List.find (fun t => Nat.eqb (timer_id t) id) (timers w).

(** *** Promises *)

Definition new_promise : M nat :=
  let* w := get_world in
  update (with_promises (promises w ++ [Pending Caller])) ;;
  ret (length (promises w)).

Definition promise_state (p : nat) : M (option PromiseState) :=
  let* w := get_world in ret (nth_error (promises w) p).

Definition set_promise (p : nat) (s : PromiseState) : M unit :=
  update (fun w => with_promises (<[p := s]> (promises w)) w).

(** [resolve]/[reject] of a promise nothing inside the client waits on. *)
Definition settle_caller (p : nat) (o : Outcome) : M unit :=
  let* s := promise_state p in
  match s with
  | Some (Pending _) => set_promise p (Done o) ;; tell (Settle p o)
  | _ => ret tt
  end.

(** [await p] by code of the client: the outcome when [p] is settled,
    else the code is parked on [p] as [k]. *)
Definition await (p : nat) (k : Waiter) : M (option Outcome) :=
  let* s := promise_state p in
  match s with
  | Some (Done o) => ret (Some o)
  | _ => set_promise p (Pending k) ;; ret None
  end.

Definition is_done (p : nat) (w : World) : bool :=
  match nth_error (promises w) p with
  | Some (Done _) => true
  | _ => false
  end.

(** *** Sockets *)

Definition socket_state (s : nat) (w : World) : option nat :=
  readyState <$> nth_error (sockets w) s.

(** [this.ws?.readyState]; [None] is [undefined]. *)
Definition current_readyState (w : World) : option nat :=
  match ws (client w) with
  | Some s => socket_state s w
  | None => None
  end.

Definition ws_readyState : M (option nat) :=
  let* w := get_world in ret (current_readyState w).

Definition set_readyState (s : nat) (r : nat) : M unit :=
  update (fun w =>
    match nth_error (sockets w) s with
    | Some k => with_sockets (<[s := {| readyState := r; handlers := handlers k |}]> (sockets w)) w
    | None => w
    end).

(** [addEventListener]/[on] for the four handlers of [connect]. *)
Definition install_handlers (s : nat) (h : Handlers) : M unit :=
  update (fun w =>
    match nth_error (sockets w) s with
    | Some k =>
        with_sockets (<[s := {| readyState := readyState k; handlers := Some h |}]> (sockets w)) w
    | None => w
    end).

Definition handlers_of (s : nat) : M (option Handlers) :=
  let* w := get_world in
  ret (match nth_error (sockets w) s with
       | Some k => handlers k
       | None => None
       end).

(** [new WebSocketImpl(wsUrl)] with the implementation
    [_getWebSocketImplementation()] finds: a socket that is connecting,
    or what either of them throws (no implementation, a URL the
    constructor refuses). *)
Definition new_WebSocket (wsUrl : string) : M (JsError + nat) :=
  let* w := get_world in
  match webSocketThrows w wsUrl with
  | Some error => ret (inl error)
  | None =>
      let s := length (sockets w) in
      update (with_sockets (sockets w ++ [{| readyState := CONNECTING; handlers := None |}])) ;;
      tell (NewWebSocket wsUrl s) ;;
      ret (inr s)
  end.

(** [socket.close(...)]: the socket starts closing; its close event comes
    later, as a task of its own. *)
Definition ws_close (s : nat) (args : option (Z * string)) : M unit :=
  tell (WsClose s args) ;;
  let* w := get_world in
  match socket_state s w with
  | Some r => when (Nat.eqb r CONNECTING || Nat.eqb r OPEN) (set_readyState s CLOSING)
  | None => ret tt
  end.

(** ** The methods of [XRpcWebSocketClient] *)

Definition _log (entry : LogEntry) : M unit :=
  let* c := get_client in
  when (o_debug (options c)) (tell (ConsoleLog entry)).

Definition call_listener (e : Emitted) (listener : JsFunction) : M unit :=
  tell (ListenerCall listener e) ;;
  match fn_throws listener with
  | Some error => _log (LogListenerError error)
  | None => ret tt
  end.

Fixpoint forEach {A} (f : A -> M unit) (l : list A) : M unit :=
  match l with
  | [] => ret tt
  | x :: l' => f x ;; forEach f l'
  end.

Definition _emit (e : Emitted) : M unit :=
  tell (Emit e) ;;
  let* c := get_client in
  match eventListeners c (kind_of e) with
  | Some listeners => forEach (call_listener e) listeners
  | None => ret tt
  end.

Definition on (event : EventKind) (listener : JsFunction) : M unit :=
  modify (fun c =>
    let listeners := default [] (eventListeners c event) in
    with_eventListeners
      (fun k => if decide (k = event) then Some (listeners ++ [listener])%list else eventListeners c k) c).

(** [splice(indexOf(listener), 1)] *)
Fixpoint remove_first (listener : JsFunction) (l : list JsFunction) : list JsFunction :=
  match l with
  | [] => []
  | x :: l' => if same_function x listener then l' else x :: remove_first listener l'
  end.

Definition off (event : EventKind) (listener : JsFunction) : M unit :=
  modify (fun c =>
    match eventListeners c event with
    | Some listeners =>
        with_eventListeners
          (fun k => if decide (k = event) then Some (remove_first listener listeners)
                    else eventListeners c k) c
    | None => c
    end).

(** *** [_emit] when listeners unregister listeners

    [_emit] walks the array of its event with [forEach] while the
    listeners run, and [off] splices that same array. [calls_off] gives
    the calls of [off] a function makes when the client calls it, before
    it returns or throws. With no such call this is [_emit] above. *)
Module Live.
Section Listeners.

Variable calls_off : JsFunction -> list (EventKind * JsFunction).

Definition call_listener (e : Emitted) (listener : JsFunction) : M unit :=
  tell (ListenerCall listener e) ;;
  forEach (fun c => off (fst c) (snd c)) (calls_off listener) ;;
  match fn_throws listener with
  | Some error => _log (LogListenerError error)
  | None => ret tt
  end.

(** [Array.prototype.forEach]: the length is read once, before the first
    call; index [k] is visited when the array still has it by then, and
    what it holds by then is what is called. [n] indices are left. *)
Fixpoint visit (e : Emitted) (n k : nat) : M unit :=
  match n with
  | 0 => ret tt
  | S n' =>
      let* c := get_client in
      match nth_error (default [] (eventListeners c (kind_of e))) k with
      | Some listener => call_listener e listener
      | None => ret tt
      end ;;
      visit e n' (S k)
  end.

Definition _emit (e : Emitted) : M unit :=
  tell (Emit e) ;;
  let* c := get_client in
  match eventListeners c (kind_of e) with
  | Some listeners => visit e (length listeners) 0
  | None => ret tt
  end.

(** No call of [off] that [l] makes when it is called takes a listener
    out of [ls], the array of [event]. *)
Definition spares (event : EventKind) (ls : list JsFunction) (l : JsFunction) : Prop :=
  Forall (fun c => fst c = event -> Forall (fun g => same_function g (snd c) = false) ls)
    (calls_off l).

End Listeners.

(** Functions that make no call of [off], and the function [ref] as a
    listener of [event] that unregisters itself when it is called. *)
Definition inert (f : JsFunction) : list (EventKind * JsFunction) := [].

Definition once (event : EventKind) (ref : nat) (f : JsFunction) : list (EventKind * JsFunction) :=
  if Nat.eqb (fn_ref f) ref then [(event, f)] else [].

End Live.

Definition getState (w : World) : string :=
  match ws (client w) with
  | None => "closed"
  | Some s =>
      match socket_state s w with
      | Some 0 => "connecting"
      | Some 1 => "open"
      | Some 2 => "closing"
      | Some 3 => "closed"
      | _ => "closed"
      end
  end.

Definition isConnected (w : World) : bool :=
  match ws (client w) with
  | Some s => match socket_state s w with Some 1 => true | _ => false end
  | None => false
  end.

Definition getSubscriptions (w : World) : list Subscription :=
  JsMap.values (subscriptions (client w)).

(** [network.replace(/-wss$/, '')] *)
Definition strip_wss (network : string) : string :=
  match String.rev network with
  | String "s"%char (String "s"%char (String "w"%char (String "-"%char r))) => String.rev r
  | _ => network
  end.

Definition _buildWebSocketUrl (c : Client) : string :=
  "wss://" +:+ strip_wss (o_network (options c)) +:+ ".xrpc.pro?apiKey=" +:+ o_apiKey (options c).

(** [`${Date.now()}-${n}-${Math.random().toString(36).substring(7)}`] *)
Definition request_id (w : World) (n : nat) : JValue :=
  JStr (pretty (dateNow w n) +:+ "-" +:+ pretty n +:+ "-" +:+ mathRandom w n).

Definition _generateRequestId : M JValue :=
  let* c := get_client in
  let n := S (requestIdCounter c) in
  modify (with_requestIdCounter n) ;;
  let* w := get_world in
  ret (request_id w n).

(** [None] when the request went out, else what [_sendRequest] threw. *)
Definition _sendRequest (method : string) (params : list JValue) (id : JValue)
  : M (option JsError) :=
  let* c := get_client in
  let* r := ws_readyState in
  match ws c, r with
  | Some s, Some 1 =>
      _log (LogSending method params id) ;;
      tell (WsSend s method params id) ;;
      ret None
  | _, _ => ret (Some (Error "WebSocket is not connected"))
  end.

Definition connect : M nat :=
  let* r := ws_readyState in
  match r with
  | Some 1 =>
      _log LogAlreadyConnected ;;
      let* p := new_promise in
      settle_caller p (Resolved JUndefined) ;;
      ret p
  | Some 0 =>
      _log LogConnectionInProgress ;;
      let* c := get_client in
      let* p := new_promise in
      let* checkInterval := setInterval (CheckInterval p) 100 in
      setTimeout (CheckTimeout p checkInterval) (o_timeout (options c)) ;;
      ret p
  | _ =>
      let* c := get_client in
      let* p := new_promise in
      let wsUrl := _buildWebSocketUrl c in
      _log (LogConnecting wsUrl) ;;
      let* made := new_WebSocket wsUrl in
      match made with
      | inr s =>
          modify (with_ws (Some s)) ;;
          let* connectionTimeout :=
            setTimeout (ConnectionTimeout p) (o_timeout (options c)) in
          install_handlers s {| connectPromise := p; connectionTimeout := connectionTimeout |} ;;
          ret p
      | inl error =>
          (* catch (error) { reject(error) } *)
          settle_caller p (Rejected error) ;;
          ret p
      end
  end.

(** The part of [subscribe] after [await this.connect()]: the executor of
    the promise [p] that [subscribe] returns. *)
Definition subscribe_send (type : SubscriptionType) (params : list JValue)
    (callback : JsFunction) (p : nat) : M (option JsError) :=
  let* requestId := _generateRequestId in
  let* c := get_client in
  let* timeoutId :=
    setTimeout (RequestTimeout requestId p "Subscribe request timeout") (o_timeout (options c)) in
  modify (fun c => with_pendingRequests
    (JsMap.set requestId {| request := SubscribeRequest type params callback;
                            promise := p; timeoutId := timeoutId |} (pendingRequests c)) c) ;;
  _sendRequest "eth_subscribe" (JStr (type_name type) :: params) requestId.

Definition subscribe (type : SubscriptionType) (params : list JValue)
    (callback : JsFunction) : M nat :=
  let* p := new_promise in
  let* r := ws_readyState in
  let* connected :=
    match r with
    | Some 1 => ret (Some (Resolved JUndefined))
    | _ =>
        let* cp := connect in
        await cp (SubscribeConnected type params callback p)
    end in
  match connected with
  | None => ret p
  | Some (Rejected e) => settle_caller p (Rejected e) ;; ret p
  | Some (Resolved _) =>
      let* thrown := subscribe_send type params callback p in
      match thrown with
      | Some e => settle_caller p (Rejected e)
      | None => ret tt
      end ;;
      ret p
  end.

(** The typed fronts of [subscribe]. The filter of [subscribeLogs] is the
    object the application passes. *)
Definition subscribeNewHeads (callback : JsFunction) : M nat :=
  subscribe newHeads [] callback.

Definition subscribeNewPendingTransactions (callback : JsFunction) : M nat :=
  subscribe newPendingTransactions [] callback.

Definition subscribeLogs (filter : JValue) (callback : JsFunction) : M nat :=
  subscribe logs [filter] callback.

Definition unsubscribe (subscriptionId : JValue) : M nat :=
  let* p := new_promise in
  let* c := get_client in
  if negb (JsMap.has subscriptionId (subscriptions c)) then
    settle_caller p (Rejected (ErrorSubscriptionNotFound subscriptionId)) ;; ret p
  else
    let* r := ws_readyState in
    match r with
    | Some 1 =>
        let* requestId := _generateRequestId in
        let* timeoutId :=
          setTimeout (RequestTimeout requestId p "Unsubscribe request timeout")
            (o_timeout (options c)) in
        modify (fun c => with_pendingRequests
          (JsMap.set requestId {| request := UnsubscribeRequest subscriptionId;
                                  promise := p; timeoutId := timeoutId |} (pendingRequests c)) c) ;;
        let* thrown := _sendRequest "eth_unsubscribe" [subscriptionId] requestId in
        match thrown with
        | Some e => settle_caller p (Rejected e)
        | None => ret tt
        end ;;
        ret p
    | _ =>
        modify (fun c => with_subscriptions (JsMap.delete subscriptionId (subscriptions c)) c) ;;
        settle_caller p (Resolved (JBool false)) ;;
        ret p
    end.

(** The loop [for (const [id, subscription] of this.subscriptions.entries())]
    of [_scheduleReconnect], from iterator position [i], until it is parked
    at [await this.subscribe(...)] or the iterator is exhausted. The
    iterator reads the live entry list. [n] bounds the iterations that go
    through without parking; those append nothing, so the length of the
    list less [i] is enough. *)
Fixpoint resubscribe (n i : nat) : M unit :=
  match n with
  | 0 => ret tt
  | S n' =>
      let* c := get_client in
      match nth_error (subscriptions c) i with
      | None => ret tt
      | Some None => resubscribe n' (S i)
      | Some (Some (id, subscription)) =>
          let* p := subscribe (sub_type subscription) (sub_params subscription)
                      (sub_callback subscription) in
          let* r := await p (Replay (S i) id) in
          match r with
          | None => ret tt
          | Some (Resolved _) =>
              modify (fun c => with_subscriptions (JsMap.delete id (subscriptions c)) c) ;;
              resubscribe n' (S i)
          | Some (Rejected e) =>
              _log (LogResubscribeFailed id e) ;;
              resubscribe n' (S i)
          end
      end
  end.

Definition resubscribe_from (i : nat) : M unit :=
  let* c := get_client in
  resubscribe (length (subscriptions c) - i) i.

(** The part of [disconnect] after [await Promise.allSettled(...)]. *)
Definition disconnect_finish (d : nat) : M unit :=
  let* c := get_client in
  match ws c with
  | Some s => ws_close s (Some (1000%Z, "Client disconnect")) ;; modify (with_ws None)
  | None => ret tt
  end ;;
  modify (fun c => with_subscriptions (JsMap.clear (subscriptions c)) c) ;;
  modify (fun c => with_pendingRequests (JsMap.clear (pendingRequests c)) c) ;;
  settle_caller d (Resolved JUndefined).

(** One of the promises [d] waits for was settled. *)
Definition allSettled_check (d : nat) : M unit :=
  let* w := get_world in
  match List.find (fun x => Nat.eqb (fst x) d) (allSettled w) with
  | Some (_, ps) =>
      when (forallb (fun p => is_done p w) ps)
        (update (fun w => with_allSettled
           (List.filter (fun x => negb (Nat.eqb (fst x) d)) (allSettled w)) w) ;;
         disconnect_finish d)
  | None => ret tt
  end.

(** What runs when a promise of [subscribe] or [unsubscribe] is settled. *)
Definition resume_request (k : Waiter) (o : Outcome) : M unit :=
  match k with
  | Replay i id =>
      match o with
      | Resolved _ => modify (fun c => with_subscriptions (JsMap.delete id (subscriptions c)) c)
      | Rejected e => _log (LogResubscribeFailed id e)
      end ;;
      resubscribe_from i
  | AllSettled d => allSettled_check d
  | _ => ret tt
  end.

Definition settle_request (p : nat) (o : Outcome) : M unit :=
  let* s := promise_state p in
  match s with
  | Some (Pending k) => set_promise p (Done o) ;; tell (Settle p o) ;; resume_request k o
  | _ => ret tt
  end.

(** [pending.resolve(response)]. The string conversions in it (the
    template literals of the two log lines, the message [XRpcError] hands
    to [Error]) are taken to return, as they do for every value that is
    no array and no object: see [primitive]. *)
Definition pending_resolve (pending : PendingRequest) (response : JValue) : M unit :=
  clearTimeout (timeoutId pending) ;;
  let error := prop response "error" in
  match request pending with
  | SubscribeRequest type params callback =>
      if truthy error then
        settle_request (promise pending)
          (Rejected (XRpcError (js_or (prop error "code") (JNum (-32603)))
                               (js_or (prop error "message") (JStr "Subscription failed"))
                               (prop error "data")))
      else
        let subscriptionId := prop response "result" in
        if negb (truthy subscriptionId) then
          settle_request (promise pending) (Rejected (Error "Invalid subscription ID received"))
        else
          modify (fun c => with_subscriptions
            (JsMap.set subscriptionId
               {| sub_id := subscriptionId; sub_type := type; sub_params := params;
                  sub_callback := callback |} (subscriptions c)) c) ;;
          _log (LogSubscribed type subscriptionId) ;;
          settle_request (promise pending) (Resolved subscriptionId)
  | UnsubscribeRequest subscriptionId =>
      if truthy error then
        settle_request (promise pending)
          (Rejected (XRpcError (js_or (prop error "code") (JNum (-32603)))
                               (js_or (prop error "message") (JStr "Unsubscribe failed"))
                               (prop error "data")))
      else
        let success := strict_eq (prop response "result") (JBool true) in
        when success
          (modify (fun c => with_subscriptions (JsMap.delete subscriptionId (subscriptions c)) c) ;;
           _log (LogUnsubscribed subscriptionId)) ;;
        settle_request (promise pending) (Resolved (JBool success))
  end.

(** The [catch] of [_handleMessage]. *)
Definition message_failed (error : JsError) : M unit :=
  _log (LogParseError error) ;;
  _emit (OnError error).

(** [_handleMessage(data)]; [parsed] is what [JSON.parse(data.toString())]
    gives, [None] when it throws. *)
Definition _handleMessage (parsed : option JValue) : M unit :=
  match parsed with
  | None => message_failed SyntaxError
  | Some message =>
      _log (LogReceived message) ;;
      if nullish message then message_failed TypeError
      else if strict_eq (prop message "method") (JStr "eth_subscription") then
        let subscriptionId := opt_prop (prop message "params") "subscription" in
        let result := opt_prop (prop message "params") "result" in
        let* c := get_client in
        match truthy subscriptionId, JsMap.get subscriptionId (subscriptions c) with
        | true, Some subscription =>
            tell (CallbackCall (sub_callback subscription) result) ;;
            match fn_throws (sub_callback subscription) with
            | Some error => message_failed error
            | None => ret tt
            end
        | _, _ => ret tt
        end
      else
        let* c := get_client in
        match strict_eq (prop message "id") JUndefined,
              JsMap.get (prop message "id") (pendingRequests c) with
        | false, Some pending =>
            modify (fun c => with_pendingRequests
              (JsMap.delete (prop message "id") (pendingRequests c)) c) ;;
            pending_resolve pending message
        | _, _ => ret tt
        end
  end.

Definition _scheduleReconnect : M unit :=
  let* c := get_client in
  if reached (reconnectAttempts c) (o_maxReconnectAttempts (options c)) then
    _log LogMaxReconnect
  else
    let attempt := S (reconnectAttempts c) in
    modify (with_reconnectAttempts attempt) ;;
    _log (LogScheduling attempt (o_reconnectDelay (options c))) ;;
    _emit (OnReconnect attempt) ;;
    let* t := setTimeout ReconnectTimer (o_reconnectDelay (options c)) in
    modify (with_reconnectTimeoutId (Some t)).

(** What runs when a promise is settled: the continuations of
    [await this.connect()], and those of the requests. *)
Definition resume (k : Waiter) (o : Outcome) : M unit :=
  match k with
  | SubscribeConnected type params callback p =>
      match o with
      | Resolved _ =>
          let* thrown := subscribe_send type params callback p in
          match thrown with
          | Some e => settle_request p (Rejected e)
          | None => ret tt
          end
      | Rejected e => settle_request p (Rejected e)
      end
  | Reconnect =>
      match o with
      | Resolved _ => resubscribe_from 0
      | Rejected e => _log (LogReconnectFailed e) ;; _scheduleReconnect
      end
  | _ => resume_request k o
  end.

(** [resolve]/[reject] of a promise: the first call settles it and runs
    what waits on it, later calls do nothing. *)
Definition settle (p : nat) (o : Outcome) : M unit :=
  let* s := promise_state p in
  match s with
  | Some (Pending k) => set_promise p (Done o) ;; tell (Settle p o) ;; resume k o
  | _ => ret tt
  end.

Definition settle_all (l : list (nat * Outcome)) : M unit :=
  forEach (fun x => settle (fst x) (snd x)) l.

(** The callback of the timer of [_scheduleReconnect]. *)
Definition reconnect_now : M unit :=
  modify (with_isManualClose false) ;;
  let* cp := connect in
  let* r := await cp Reconnect in
  match r with
  | Some o => resume Reconnect o
  | None => ret tt
  end.

(** *** The handlers [connect] installs. Each returns the promise calls it
    made ([resolve], [reject]); what waits on them runs when the handler
    has returned. *)

Definition handleOpen (h : Handlers) : M (list (nat * Outcome)) :=
  clearTimeout (connectionTimeout h) ;;
  _log LogConnected ;;
  modify (with_reconnectAttempts 0) ;;
  _emit OnOpen ;;
  ret [(connectPromise h, Resolved JUndefined)].

Definition handleMessage (parsed : option JValue) : M (list (nat * Outcome)) :=
  _handleMessage parsed ;;
  ret [].

Definition handleError (h : Handlers) : M (list (nat * Outcome)) :=
  clearTimeout (connectionTimeout h) ;;
  let errorMessage := "WebSocket connection error" in
  _log (LogError errorMessage) ;;
  _emit (OnError (Error errorMessage)) ;;
  ret [(connectPromise h, Rejected (Error errorMessage))].

(** The loop of [handleClose] over [this.pendingRequests.entries()]; its
    body empties the slot it is at and appends nothing. *)
Fixpoint reject_pending (n i : nat) : M (list (nat * Outcome)) :=
  match n with
  | 0 => ret []
  | S n' =>
      let* c := get_client in
      match nth_error (pendingRequests c) i with
      | Some (Some (id, pending)) =>
          clearTimeout (timeoutId pending) ;;
          (* pending.reject(...) *)
          clearTimeout (timeoutId pending) ;;
          modify (fun c => with_pendingRequests (JsMap.delete id (pendingRequests c)) c) ;;
          let* rest := reject_pending n' (S i) in
          ret ((promise pending, Rejected (Error "WebSocket connection closed")) :: rest)
      | _ => reject_pending n' (S i)
      end
  end.

Definition handleClose (h : Handlers) (code : option Z) (reason : string)
  : M (list (nat * Outcome)) :=
  clearTimeout (connectionTimeout h) ;;
  let closeCode := default 1000%Z code in
  let closeReason := reason in
  _log (LogClosed closeCode closeReason) ;;
  _emit (OnClose closeCode closeReason) ;;
  let* c := get_client in
  let* rejected := reject_pending (length (pendingRequests c)) 0 in
  let* c := get_client in
  when (negb (isManualClose c) && o_autoReconnect (options c)) _scheduleReconnect ;;
  ret rejected.

(** The loop of [disconnect] over [this.subscriptions.entries()]: the
    promises of the [unsubscribe] calls. The calls append nothing to the
    entry list. *)
Fixpoint unsubscribe_each (n i : nat) : M (list nat) :=
  match n with
  | 0 => ret []
  | S n' =>
      let* c := get_client in
      match nth_error (subscriptions c) i with
      | Some (Some (id, _)) =>
          let* q := unsubscribe id in
          let* rest := unsubscribe_each n' (S i) in
          ret (q :: rest)
      | _ => unsubscribe_each n' (S i)
      end
  end.

(** [disconnect] up to [await Promise.allSettled(unsubscribePromises)].
    What comes after the [await] is a microtask: it runs when the code
    that called [disconnect] has returned, in the same task at the
    earliest (see [step]), and when the last of the promises is settled
    otherwise. *)
Definition disconnect : M nat :=
  let* d := new_promise in
  modify (with_isManualClose true) ;;
  let* c := get_client in
  match reconnectTimeoutId c with
  | Some t => clearTimeout t ;; modify (with_reconnectTimeoutId None)
  | None => ret tt
  end ;;
  let* unsubscribePromises := unsubscribe_each (length (subscriptions c)) 0 in
  (* await Promise.allSettled(unsubscribePromises) *)
  forEach (fun q => await q (AllSettled d) ;; ret tt) unsubscribePromises ;;
  update (fun w => with_allSettled ((d, unsubscribePromises) :: allSettled w) w) ;;
  ret d.

(** *** Timer callbacks *)

Definition run_timer (id : nat) (task : TimerTask) : M unit :=
  match task with
  | RequestTimeout requestId p message =>
      modify (fun c => with_pendingRequests (JsMap.delete requestId (pendingRequests c)) c) ;;
      settle p (Rejected (Error message))
  | ConnectionTimeout p =>
      let* c := get_client in
      let* r := ws_readyState in
      match ws c, r with
      | Some _, Some 1 => ret tt
      | Some s, _ =>
          ws_close s None ;;
          settle p (Rejected (Error "Connection timeout"))
      | None, _ => ret tt
      end
  | CheckInterval p =>
      let* r := ws_readyState in
      match r with
      | Some 1 => clearInterval id ;; settle p (Resolved JUndefined)
      | Some 3 => clearInterval id ;; settle p (Rejected (Error "Connection failed"))
      | _ => ret tt
      end
  | CheckTimeout p checkInterval =>
      clearInterval checkInterval ;;
      settle p (Rejected (Error "Connection timeout"))
  | ReconnectTimer => reconnect_now
  end.

(** A timer fires only while it is armed, and a timeout only once. *)
Definition fire (id : nat) : M unit :=
  let* w := get_world in
  match armed id w with
  | Some t =>
      match timer_task t with
      | CheckInterval _ => ret tt
      | _ => clearTimeout id
      end ;;
      run_timer id (timer_task t)
  | None => ret tt
  end.

(** ** Tasks of the event loop *)

Inductive Event : Type :=
| CallConnect
| CallDisconnect
| CallSubscribe (type : SubscriptionType) (params : list JValue) (callback : JsFunction)
| CallUnsubscribe (subscriptionId : JValue)
| CallOn (event : EventKind) (listener : JsFunction)
| CallOff (event : EventKind) (listener : JsFunction)
| SocketOpen (s : nat)
| SocketMessage (s : nat) (parsed : option JValue)
| SocketError (s : nat) (state : nat)
  (* the error event, and the [readyState] the socket has by then *)
| SocketClose (s : nat) (code : option Z) (reason : string)
  (* [code] when it is a number, [reason] as a string *)
| SocketErrorClose (s : nat) (code : option Z) (reason : string)
  (* error and close emitted back to back, as the ws package does when the
     handshake fails *)
| TimerFired (id : nat).

Definition on_socket (s : nat) (f : Handlers -> M (list (nat * Outcome)))
  : M (list (nat * Outcome)) :=
  let* h := handlers_of s in
  match h with
  | Some h => f h
  | None => ret []
  end.

Definition step (e : Event) : M unit :=
  match e with
  | CallConnect => connect ;; ret tt
  | CallDisconnect =>
      let* d := disconnect in
      (* the microtask after [await Promise.allSettled(...)] *)
      allSettled_check d
  | CallSubscribe type params callback => subscribe type params callback ;; ret tt
  | CallUnsubscribe subscriptionId => unsubscribe subscriptionId ;; ret tt
  | CallOn event listener => on event listener
  | CallOff event listener => off event listener
  | SocketOpen s =>
      set_readyState s OPEN ;;
      let* l := on_socket s handleOpen in
      settle_all l
  | SocketMessage s parsed =>
      let* l := on_socket s (fun _ => handleMessage parsed) in
      settle_all l
  | SocketError s state =>
      set_readyState s state ;;
      let* l := on_socket s handleError in
      settle_all l
  | SocketClose s code reason =>
      set_readyState s CLOSED ;;
      let* l := on_socket s (fun h => handleClose h code reason) in
      settle_all l
  | SocketErrorClose s code reason =>
      set_readyState s CLOSING ;;
      let* l1 := on_socket s handleError in
      set_readyState s CLOSED ;;
      let* l2 := on_socket s (fun h => handleClose h code reason) in
      settle_all (l1 ++ l2)
  | TimerFired id => fire id
  end.

Fixpoint run (events : list Event) (w : World) : World :=
  match events with
  | [] => w
  | e :: events' => run events' (exec (step e) w)
  end.

(** The world of a client that was just constructed, in a runtime that
    has a WebSocket implementation which accepts the URL of the client. *)
Definition boot (c : Client) (now : nat -> N) (random : nat -> string) : World :=
  {| client := c; sockets := []; timers := []; nextTimer := 1; promises := [];
     allSettled := []; trace := []; dateNow := now; mathRandom := random;
     webSocketThrows := fun _ => None |}.

(** ** Vocabulary of the statements *)

(** *** Reading the trace *)

Definition callback_calls (t : list Effect) : list (JsFunction * JValue) :=
  omap (fun e => match e with CallbackCall f data => Some (f, data) | _ => None end) t.

Definition listener_calls (t : list Effect) : list (JsFunction * Emitted) :=
  omap (fun e => match e with ListenerCall f e => Some (f, e) | _ => None end) t.

(** The attempt numbers of the [reconnect] events. *)
Definition reconnect_events (t : list Effect) : list nat :=
  omap (fun e => match e with Emit (OnReconnect n) => Some n | _ => None end) t.

Definition error_events (t : list Effect) : list JsError :=
  omap (fun e => match e with Emit (OnError e) => Some e | _ => None end) t.

Definition settlements (t : list Effect) : list (nat * Outcome) :=
  omap (fun e => match e with Settle p o => Some (p, o) | _ => None end) t.

Definition sockets_made (t : list Effect) : list nat :=
  omap (fun e => match e with NewWebSocket _ s => Some s | _ => None end) t.

Definition console (t : list Effect) : list LogEntry :=
  omap (fun e => match e with ConsoleLog entry => Some entry | _ => None end) t.

(** What [_log] writes. *)
Definition logged (w : World) (entry : LogEntry) : list Effect :=
  if o_debug (options (client w)) then [ConsoleLog entry] else [].

(** What the run of some code added to the trace and nothing else. *)
Definition says (t : list Effect) (w : World) : World := with_trace (trace w ++ t) w.

(** What [_emit] does to one listener, and to all of them. *)
Definition listener_effects (w : World) (e : Emitted) (listener : JsFunction) : list Effect :=
  ListenerCall listener e ::
  match fn_throws listener with
  | Some error => logged w (LogListenerError error)
  | None => []
  end.

Definition emitted (w : World) (e : Emitted) : list Effect :=
  Emit e :: flat_map (listener_effects w e) (default [] (eventListeners (client w) (kind_of e))).

(** The server confirms an unsubscribe. *)
Definition confirms (response : JValue) : bool :=
  negb (truthy (prop response "error")) && strict_eq (prop response "result") (JBool true).

(** *** Envelopes of the wire, and worlds to run the client in *)

Definition response (ref : nat) (id result : JValue) : JValue :=
  JObj ref [("jsonrpc", JStr "2.0"); ("id", id); ("result", result)].

Definition error_response (ref : nat) (id : JValue) (code : Z) (message : string) : JValue :=
  JObj ref [("jsonrpc", JStr "2.0"); ("id", id);
            ("error", JObj (S ref) [("code", JNum code); ("message", JStr message)])].

Definition notification (ref : nat) (subscription result : JValue) : JValue :=
  JObj ref [("jsonrpc", JStr "2.0"); ("method", JStr "eth_subscription");
            ("params", JObj (S ref) [("subscription", subscription); ("result", result)])].

Definition returning (ref : nat) : JsFunction := {| fn_ref := ref; fn_throws := None |}.

Definition throwing (ref : nat) : JsFunction :=
  {| fn_ref := ref; fn_throws := Some (Error "boom") |}.

Definition demo_options : SubscriptionOptions :=
  {| network := "eth-mainnet"; apiKey := "key"; baseUrl := None; timeout := None;
     debug := None; autoReconnect := None; reconnectDelay := Some 10%N;
     maxReconnectAttempts := Some (Finite 2) |}.

Definition demo_world : World :=
  boot (initial demo_options) (fun _ => 1700000000000%N) (fun _ => "k3x9").

Definition connected_world : World := run [CallConnect; SocketOpen 0] demo_world.

Definition requesting_world : World :=
  run [CallSubscribe newHeads [] (returning 1)] connected_world.

Definition subscribed_world : World :=
  run [SocketMessage 0 (Some (response 10 (JStr "1700000000000-1-k3x9") (JStr "0xabc")))]
    requesting_world.

(** The world after a request went out on the open socket [s]. *)
Definition requested (s : nat) (method : string) (params : list JValue) (r : Request)
    (message : string) (w : World) : World :=
  let rid := request_id w (S (requestIdCounter (client w))) in
  let p := length (promises w) in
  says (logged w (LogSending method params rid) ++ [WsSend s method params rid])
    (with_client
       (with_pendingRequests
          (JsMap.set rid {| request := r; promise := p; timeoutId := nextTimer w |}
             (pendingRequests (client w)))
          (with_requestIdCounter (S (requestIdCounter (client w))) (client w)))
       (with_timers
          (timers w ++ [{| timer_id := nextTimer w; timer_delay := o_timeout (options (client w));
                           timer_task := RequestTimeout rid p message |}])%list
          (S (nextTimer w))
          (with_promises (promises w ++ [Pending Caller]) w))).

Definition dropped_world : World := run [SocketClose 0 (Some 1006%Z) ""] subscribed_world.

Definition connecting_world : World := run [CallConnect] demo_world.

Definition polling_world : World := run [CallConnect] connecting_world.

(** The ways an attempt to connect fails, as the tasks the socket [s]
    and the timeout [t] of that attempt give rise to. *)
Inductive Failure : Type :=
| ErrorThenClose (* a browser: the error event, then the close event *)
| ErrorWithClose (* the ws package: both emitted back to back *)
| CloseOnly
| TimedOut (* the connection timeout fires first *).

Definition failure (f : Failure) (s t : nat) : list Event :=
  match f with
  | ErrorThenClose => [SocketError s CLOSED; SocketClose s (Some 1006%Z) ""]
  | ErrorWithClose => [SocketErrorClose s (Some 1006%Z) ""]
  | CloseOnly => [SocketClose s (Some 1006%Z) ""]
  | TimedOut => [TimerFired t; SocketClose s (Some 1006%Z) ""]
  end.

(** The client of [demo_options] ([maxReconnectAttempts = 2]) connects,
    loses the connection, and fails to connect at both attempts. *)
Definition two_failed_attempts (f1 f2 : Failure) : World :=
  run ([SocketClose 0 (Some 1006%Z) ""; TimerFired 2] ++ failure f1 1 3 ++
       [TimerFired 4] ++ failure f2 2 5)%list connected_world.

(** What a subscription is for: its kind, its parameters and its callback. *)
Definition subscribed_to (e : Subscription) : SubscriptionType * list JValue * JsFunction :=
  (sub_type e, sub_params e, sub_callback e).

(** The timers [ts] less those whose handle is among [ids]. *)
Definition without (ids : list nat) (ts : list Timer) : list Timer :=
  List.filter (fun t => negb (existsb (Nat.eqb (timer_id t)) ids)) ts.

(** A client with the default options, after its connection dropped and
    the reconnect timer fired: the attempt is under way. *)
Definition default_options : SubscriptionOptions :=
  {| network := "eth-mainnet"; apiKey := "key"; baseUrl := None; timeout := None;
     debug := None; autoReconnect := None; reconnectDelay := None;
     maxReconnectAttempts := None |}.

(** A client with the default options that is connected and has one
    subscription, to new heads, under the id the server gave it. *)
Definition streaming_world : World :=
  run [CallConnect; SocketOpen 0; CallSubscribe newHeads [] (returning 1);
       SocketMessage 0 (Some (response 10 (JStr "1700000000000-1-k3x9") (JStr "0xabc")))]
    (boot (initial default_options) (fun _ => 1700000000000%N) (fun _ => "k3x9")).

Definition retrying_world : World :=
  run [CallConnect; SocketOpen 0; SocketClose 0 (Some 1006%Z) ""; TimerFired 2]
    (boot (initial default_options) (fun _ => 1700000000000%N) (fun _ => "k3x9")).

(** *** Well-formed worlds *)

(** A [Map] holds a key once. *)
Fixpoint map_wf {V} (m : JsMap.t V) : Prop :=
  match m with
  | [] => True
  | None :: m' => map_wf m'
  | Some (k, _) :: m' => JsMap.has k m' = false /\ map_wf m'
  end.

Definition keys_truthy (m : JsMap.t Subscription) : Prop :=
  Forall (fun kv => truthy (fst kv) = true) (JsMap.entries m).

(** What holds of every world the client runs in: its maps are maps, the
    class stores a subscription under a truthy id only, and the handle of
    the next timer is new. *)
Definition consistent (w : World) : Prop :=
  map_wf (subscriptions (client w)) /\
  map_wf (pendingRequests (client w)) /\
  keys_truthy (subscriptions (client w)) /\
  Forall (fun t => timer_id t < nextTimer w) (timers w).

(** *** Relations between the world before and after a piece of code *)

Definition keeps (R : relation World) {A} (m : M A) : Prop :=
  forall w, R w (exec m w).

(** Holds of every method: the trace grows, the options stay, and the
    maps stay well-formed. *)
Definition steady : relation World := fun w w' =>
  trace w `prefix_of` trace w' /\
  options (client w') = options (client w) /\
  (consistent w -> consistent w').

(** No subscription is added. *)
Definition shrinks : relation World := fun w w' =>
  trace w `prefix_of` trace w' /\
  sublist (JsMap.entries (subscriptions (client w'))) (JsMap.entries (subscriptions (client w))).

(** The reconnect budget is used up. *)
Definition exhausted (w : World) : Prop :=
  reached (reconnectAttempts (client w)) (o_maxReconnectAttempts (options (client w))) = true.

Definition is_reconnect_task (t : TimerTask) : bool :=
  match t with ReconnectTimer => true | _ => false end.

Definition is_reconnect_timer (t : Timer) : bool := is_reconnect_task (timer_task t).

Definition no_reconnect_timer (w : World) : Prop :=
  List.filter is_reconnect_timer (timers w) = [].

(** Once the budget is used up and no reconnect timer is armed, it stays
    so, and no [reconnect] event is emitted. *)
Definition quiet : relation World := fun w w' =>
  exhausted w -> no_reconnect_timer w ->
  exhausted w' /\ no_reconnect_timer w' /\
  reconnect_events (trace w') = reconnect_events (trace w).

(** The attempt [k] is within the bound. *)
Definition within (b : Bound) (k : nat) : Prop :=
  match b with
  | Finite n => k <= n
  | Infinity => True
  end.

(** The attempt numbers of the [reconnect] events since the last [open]
    event, or since the start when there was none. *)
Definition outage_step (acc : list nat) (e : Effect) : list nat :=
  match e with
  | Emit OnOpen => []
  | Emit (OnReconnect k) => acc ++ [k]
  | _ => acc
  end.

Definition outage (t : list Effect) : list nat := fold_left outage_step t [].

(** Effects that are no events. *)
Definition plain (t : list Effect) : Prop :=
  Forall (fun e => match e with Emit _ => False | _ => True end) t.

(** The reconnect attempts are counted: the counter is within
    [maxReconnectAttempts], every [reconnect] event carried a number from
    1 to that maximum, and the events of the current outage are numbered
    1, 2, ... up to the counter. *)
Definition in_order (w : World) : Prop :=
  let bound := o_maxReconnectAttempts (options (client w)) in
  within bound (reconnectAttempts (client w)) /\
  Forall (fun k => 1 <= k /\ within bound k) (reconnect_events (trace w)) /\
  outage (trace w) = seq 1 (reconnectAttempts (client w)).

Definition numbered : relation World := fun w w' => in_order w -> in_order w'.

(** The ids of the frames that went out. *)
Definition sent_ids (t : list Effect) : list JValue :=
  omap (fun e => match e with WsSend _ _ _ id => Some id | _ => None end) t.

(** The frames that went out carry the ids of different counter values,
    none beyond the counter. *)
Definition counted (w : World) : Prop :=
  exists ks,
    sent_ids (trace w) = List.map (request_id w) ks /\
    NoDup ks /\
    Forall (fun k => k <= requestIdCounter (client w)) ks.

(** The clock and the random source are those of the run, the counter
    does not go down, and the frames stay counted. *)
Definition orderly : relation World := fun w w' =>
  dateNow w' = dateNow w /\
  mathRandom w' = mathRandom w /\
  requestIdCounter (client w) <= requestIdCounter (client w') /\
  (counted w -> counted w').

(** A string without the character [-]. *)
Fixpoint dashless (s : string) : bool :=
  match s with
  | EmptyString => true
  | String c s' => negb (Ascii.eqb c "-") && dashless s'
  end.

(** The client is left to the application: [autoReconnect] is off or the
    last close was asked for, no reconnect timer is armed and nothing
    waits in the callback of one. *)
Definition hands_off (w : World) : Prop :=
  (o_autoReconnect (options (client w)) = false \/ isManualClose (client w) = true) /\
  no_reconnect_timer w /\
  Forall (fun s => s <> Pending Reconnect) (promises w).

(** It stays so, and no [reconnect] event is emitted. *)
Definition manual : relation World := fun w w' =>
  hands_off w ->
  hands_off w' /\ reconnect_events (trace w') = reconnect_events (trace w).

Definition is_open_event (e : Event) : bool :=
  match e with SocketOpen _ => true | _ => false end.

(** Each subscription of the registry is stored under its own id. *)
Definition keyed (m : JsMap.t Subscription) : Prop :=
  Forall (fun kv => sameValueZero (fst kv) (sub_id (snd kv)) = true) (JsMap.entries m).

Definition filed : relation World := fun w w' =>
  keyed (subscriptions (client w)) -> keyed (subscriptions (client w')).

(** A value [String(v)] and a template literal convert without calling
    into it; for an array or an object they call its [toString], which
    can throw. *)
Definition primitive (v : JValue) : bool :=
  match v with
  | JArr _ _ | JObj _ _ => false
  | _ => true
  end.

(** The demo client in a runtime whose WebSocket constructor refuses
    the URL. *)
Definition refusing_world : World :=
  with_webSocketThrows (fun _ => Some (Error "Invalid URL")) demo_world.

(** * Proofs *)

(** ** SameValueZero is an equivalence *)

Lemma sameValueZero_refl a : sameValueZero a a = true.
Proof.
  destruct a; cbn; auto using Z.eqb_refl, String.eqb_refl, Nat.eqb_refl.
  destruct b; reflexivity.
Qed.

Lemma sameValueZero_sym a b : sameValueZero a b = sameValueZero b a.
Proof.
  destruct a, b; cbn; auto using Z.eqb_sym, String.eqb_sym, Nat.eqb_sym.
  destruct b, b0; reflexivity.
Qed.

Lemma sameValueZero_trans a b c :
  sameValueZero a b = true -> sameValueZero b c = true -> sameValueZero a c = true.
Proof.
  destruct a, b; cbn; try discriminate; destruct c; cbn; try discriminate; auto.
  - destruct b, b0, b1; auto.
  - rewrite !Z.eqb_eq. congruence.
  - rewrite !String.eqb_eq. congruence.
  - rewrite !Nat.eqb_eq. congruence.
  - rewrite !Nat.eqb_eq. congruence.
Qed.

Lemma sameValueZero_truthy a b :
  sameValueZero a b = true -> truthy a = truthy b.
Proof.
  destruct a, b; cbn; try discriminate; auto.
  - destruct b, b0; cbn; congruence.
  - rewrite Z.eqb_eq. congruence.
  - rewrite String.eqb_eq. congruence.
Qed.

(** ** [Map] *)

Lemma has_get {V} k (m : JsMap.t V) :
  JsMap.has k m = false <-> JsMap.get k m = None.
Proof. unfold JsMap.has. destruct (JsMap.get k m); split; congruence. Qed.

Lemma has_change {V} k k' (m : JsMap.t V) :
  sameValueZero k k' = true -> JsMap.has k m = JsMap.has k' m.
Proof.
  intros H. unfold JsMap.has. induction m as [|[[k0 v]|] m IH]; cbn; auto.
  destruct (sameValueZero k0 k) eqn:E.
  - rewrite (sameValueZero_trans _ _ _ E H). reflexivity.
  - destruct (sameValueZero k0 k') eqn:E'; auto.
    rewrite sameValueZero_sym in H. rewrite (sameValueZero_trans _ _ _ E' H) in E. discriminate.
Qed.

Lemma get_set_same {V} k v (m : JsMap.t V) : JsMap.get k (JsMap.set k v m) = Some v.
Proof.
  induction m as [|[[k0 v0]|] m IH]; cbn.
  - rewrite sameValueZero_refl. reflexivity.
  - destruct (sameValueZero k0 k) eqn:E; cbn; rewrite E; auto.
  - exact IH.
Qed.

Lemma get_set_other {V} k k' v (m : JsMap.t V) :
  sameValueZero k k' = false -> JsMap.get k' (JsMap.set k v m) = JsMap.get k' m.
Proof.
  intros H. induction m as [|[[k0 v0]|] m IH]; cbn.
  - rewrite H. reflexivity.
  - destruct (sameValueZero k0 k) eqn:E; cbn.
    + destruct (sameValueZero k0 k') eqn:E'; auto.
      rewrite sameValueZero_sym in E. rewrite (sameValueZero_trans _ _ _ E E') in H. discriminate.
    + rewrite IH. reflexivity.
  - exact IH.
Qed.

Lemma set_fresh {V} k v (m : JsMap.t V) :
  JsMap.has k m = false -> JsMap.set k v m = (m ++ [Some (k, v)])%list.
Proof.
  unfold JsMap.has. induction m as [|[[k0 v0]|] m IH]; cbn; auto.
  - destruct (sameValueZero k0 k); [discriminate|]. intros H. rewrite IH; auto.
  - intros H. rewrite IH; auto.
Qed.

Lemma get_delete_other {V} k k' (m : JsMap.t V) :
  sameValueZero k k' = false -> JsMap.get k' (JsMap.delete k m) = JsMap.get k' m.
Proof.
  intros H. induction m as [|[[k0 v0]|] m IH]; cbn; auto.
  destruct (sameValueZero k0 k) eqn:E; cbn.
  - destruct (sameValueZero k0 k') eqn:E'; auto.
    rewrite sameValueZero_sym in E. rewrite (sameValueZero_trans _ _ _ E E') in H. discriminate.
  - rewrite IH. reflexivity.
Qed.

Lemma get_delete_same {V} k (m : JsMap.t V) :
  map_wf m -> JsMap.get k (JsMap.delete k m) = None.
Proof.
  induction m as [|[[k0 v0]|] m IH]; cbn; auto.
  intros [Hk Hm]. destruct (sameValueZero k0 k) eqn:E; cbn.
  - apply has_get. rewrite <- (has_change _ _ _ E). exact Hk.
  - rewrite E. auto.
Qed.

Lemma has_delete {V} k k' (m : JsMap.t V) :
  JsMap.has k' m = false -> JsMap.has k' (JsMap.delete k m) = false.
Proof.
  unfold JsMap.has. induction m as [|[[k0 v0]|] m IH]; cbn; auto.
  destruct (sameValueZero k0 k') eqn:E; [discriminate|].
  destruct (sameValueZero k0 k); cbn; auto. rewrite E. auto.
Qed.

Lemma has_set_other {V} k k' v (m : JsMap.t V) :
  sameValueZero k k' = false -> JsMap.has k' (JsMap.set k v m) = JsMap.has k' m.
Proof. intros H. unfold JsMap.has. rewrite get_set_other; auto. Qed.

Lemma wf_delete {V} k (m : JsMap.t V) : map_wf m -> map_wf (JsMap.delete k m).
Proof.
  induction m as [|[[k0 v0]|] m IH]; cbn; auto.
  intros [Hk Hm]. destruct (sameValueZero k0 k); cbn; auto using has_delete.
Qed.

Lemma wf_set {V} k v (m : JsMap.t V) : map_wf m -> map_wf (JsMap.set k v m).
Proof.
  induction m as [|[[k0 v0]|] m IH]; cbn; auto.
  intros [Hk Hm]. destruct (sameValueZero k0 k) eqn:E; cbn; auto.
  split; auto. rewrite has_set_other; auto.
  rewrite sameValueZero_sym. exact E.
Qed.

Lemma wf_clear {V} (m : JsMap.t V) : map_wf (JsMap.clear m).
Proof. induction m; cbn; auto. Qed.

Lemma entries_delete {V} k (m : JsMap.t V) :
  sublist (JsMap.entries (JsMap.delete k m)) (JsMap.entries m).
Proof.
  unfold JsMap.entries. induction m as [|[[k' v]|] m IH]; cbn.
  - constructor.
  - destruct (sameValueZero k' k); cbn.
    + apply sublist_cons. reflexivity.
    + apply sublist_skip. apply IH.
  - apply IH.
Qed.

Lemma entries_clear {V} (m : JsMap.t V) : JsMap.entries (JsMap.clear m) = [].
Proof. induction m; cbn; auto. Qed.

Lemma keys_truthy_get m k v :
  keys_truthy m -> JsMap.get k m = Some v -> truthy k = true.
Proof.
  unfold keys_truthy, JsMap.entries. induction m as [|[[k0 v0]|] m IH]; cbn; try discriminate; auto.
  intros H. apply Forall_cons in H as [H1 H2]. cbn in H1.
  destruct (sameValueZero k0 k) eqn:E; auto.
  intros _. rewrite <- (sameValueZero_truthy _ _ E). exact H1.
Qed.

Lemma Forall_sublist {A} (P : A -> Prop) (l k : list A) :
  sublist l k -> Forall P k -> Forall P l.
Proof.
  induction 1 as [|x l k _ IH|x l k _ IH]; intros H; auto.
  - apply Forall_cons in H as [H1 H2]. constructor; auto.
  - apply Forall_cons in H as [H1 H2]. auto.
Qed.

Lemma keys_truthy_delete k m : keys_truthy m -> keys_truthy (JsMap.delete k m).
Proof. unfold keys_truthy. apply Forall_sublist, entries_delete. Qed.

Lemma keys_truthy_set k v m :
  truthy k = true -> keys_truthy m -> keys_truthy (JsMap.set k v m).
Proof.
  intros Hk. unfold keys_truthy, JsMap.entries.
  induction m as [|[[k0 v0]|] m IH]; cbn.
  - intros _. constructor; auto.
  - intros H. apply Forall_cons in H as [H1 H2].
    destruct (sameValueZero k0 k); cbn; constructor; auto.
  - exact IH.
Qed.

Lemma keys_truthy_clear m : keys_truthy (JsMap.clear m).
Proof. unfold keys_truthy. rewrite entries_clear. constructor. Qed.

(** ** Relations kept by monadic code *)

Section Keeps.
Context (R : relation World) `{!PreOrder R}.

Lemma keeps_ret {A} (a : A) : keeps R (ret a).
Proof. intros w. reflexivity. Qed.

Lemma keeps_bind {A B} (m : M A) (k : A -> M B) :
  keeps R m -> (forall a, keeps R (k a)) -> keeps R (bind m k).
Proof.
  intros Hm Hk w. unfold exec, bind. specialize (Hm w). unfold exec in Hm.
  destruct (m w) as [a w1]. cbn in *. etransitivity; [exact Hm|]. apply Hk.
Qed.

Lemma keeps_get_world : keeps R get_world.
Proof. intros w. reflexivity. Qed.

Lemma keeps_when b m : keeps R m -> keeps R (when b m).
Proof. destruct b; cbn; auto. intros _. apply keeps_ret. Qed.

Lemma keeps_forEach {A} (f : A -> M unit) l :
  (forall x, keeps R (f x)) -> keeps R (forEach f l).
Proof.
  intros H. induction l; cbn [forEach]; [apply keeps_ret | apply keeps_bind; auto].
Qed.

End Keeps.

Create HintDb keeps discriminated.

Ltac proj_simpl :=
  cbn [client sockets timers nextTimer promises allSettled trace dateNow mathRandom
       webSocketThrows with_webSocketThrows
       with_client with_sockets with_timers with_promises with_allSettled with_trace
       options ws subscriptions pendingRequests requestIdCounter reconnectAttempts
       reconnectTimeoutId isManualClose eventListeners
       with_ws with_subscriptions with_pendingRequests with_requestIdCounter
       with_reconnectAttempts with_reconnectTimeoutId with_isManualClose with_eventListeners
       fst snd] in *.

(** One step through a monadic term; [fin] closes the [update]s. *)
Ltac keeps_step fin :=
  first
    [ solve [auto with keeps nocore]
    | apply keeps_ret; exact _
    | apply keeps_get_world; exact _
    | apply keeps_bind; [exact _ | | intros ?]
    | apply keeps_when; [exact _ |]
    | apply keeps_forEach; [exact _ | intros ?]
    | match goal with |- keeps _ (match ?x with _ => _ end) => destruct x eqn:? end
    | progress cbv zeta
    | fin ].

Ltac keeps_go fin := repeat (keeps_step fin).

(** ** Every method is steady *)

Global Instance steady_preorder : PreOrder steady.
Proof.
  split.
  - intros w. unfold steady. auto.
  - intros a b c (H1 & H2 & H3) (H4 & H5 & H6). unfold steady. split; [|split].
    + etransitivity; eauto.
    + congruence.
    + auto.
Qed.

Lemma Forall_list_filter {A} (P : A -> Prop) f l : Forall P l -> Forall P (List.filter f l).
Proof.
  induction 1 as [|x l Hx _ IH]; cbn; [constructor|].
  destruct (f x); [constructor|]; auto.
Qed.

Lemma Forall_timer_new n d task (l : list Timer) :
  Forall (fun t => timer_id t < n) l ->
  Forall (fun t => timer_id t < S n)
    (l ++ [{| timer_id := n; timer_delay := d; timer_task := task |}]).
Proof.
  intros H. apply Forall_app. split.
  - eapply Forall_impl; [exact H|]. cbn. intros. lia.
  - repeat constructor.
Qed.

Ltac truthy_key :=
  match goal with
  | H : negb (truthy ?x) = false |- truthy ?x = true => apply negb_false_iff in H; exact H
  end.

Ltac steady_fin :=
  solve [ intros ?w; cbv beta iota zeta delta [exec bind ret get_world update modify tell snd fst];
          repeat case_match; unfold steady, consistent; proj_simpl;
          (split; [ try reflexivity; try (apply prefix_app_r; reflexivity)
                  | split; [ reflexivity
                           | intros (? & ? & ? & ?);
                             repeat split;
                             auto using wf_set, wf_delete, wf_clear, keys_truthy_delete,
                               keys_truthy_clear, Forall_list_filter, Forall_timer_new;
                             try (apply keys_truthy_set; [truthy_key | assumption]) ] ]) ].

Ltac st m := unfold m, get_client; keeps_go steady_fin.

Lemma steady_tell e : keeps steady (tell e). Proof. st tell. Qed.
#[export] Hint Resolve steady_tell : keeps.
Lemma steady_log e : keeps steady (_log e). Proof. st _log. Qed.
Lemma steady_setTimeout t d : keeps steady (setTimeout t d).
Proof. unfold setTimeout. steady_fin. Qed.
Lemma steady_clearTimeout t : keeps steady (clearTimeout t). Proof. st clearTimeout. Qed.
#[export] Hint Resolve steady_log steady_setTimeout steady_clearTimeout : keeps.
Lemma steady_setInterval t d : keeps steady (setInterval t d). Proof. st setInterval. Qed.
Lemma steady_clearInterval t : keeps steady (clearInterval t). Proof. st clearInterval. Qed.
Lemma steady_new_promise : keeps steady new_promise. Proof. st new_promise. Qed.
Lemma steady_promise_state p : keeps steady (promise_state p). Proof. st promise_state. Qed.
Lemma steady_set_promise p s : keeps steady (set_promise p s). Proof. st set_promise. Qed.
#[export] Hint Resolve steady_setInterval steady_clearInterval steady_new_promise
  steady_promise_state steady_set_promise : keeps.
Lemma steady_settle_caller p o : keeps steady (settle_caller p o). Proof. st settle_caller. Qed.
Lemma steady_await p k : keeps steady (await p k). Proof. st await. Qed.
Lemma steady_ws_readyState : keeps steady ws_readyState. Proof. st ws_readyState. Qed.
Lemma steady_set_readyState s r : keeps steady (set_readyState s r). Proof. st set_readyState. Qed.
Lemma steady_install_handlers s h : keeps steady (install_handlers s h). Proof. st install_handlers. Qed.
Lemma steady_handlers_of s : keeps steady (handlers_of s). Proof. st handlers_of. Qed.
#[export] Hint Resolve steady_settle_caller steady_await steady_ws_readyState
  steady_set_readyState steady_install_handlers steady_handlers_of : keeps.
Lemma steady_new_WebSocket u : keeps steady (new_WebSocket u). Proof. st new_WebSocket. Qed.
Lemma steady_ws_close s a : keeps steady (ws_close s a). Proof. st ws_close. Qed.
Lemma steady_call_listener e l : keeps steady (call_listener e l). Proof. st call_listener. Qed.
#[export] Hint Resolve steady_new_WebSocket steady_ws_close steady_call_listener : keeps.
Lemma steady_emit e : keeps steady (_emit e). Proof. st _emit. Qed.
Lemma steady_on e l : keeps steady (on e l). Proof. st on. Qed.
Lemma steady_off e l : keeps steady (off e l). Proof. st off. Qed.
Lemma steady_generateRequestId : keeps steady _generateRequestId. Proof. st _generateRequestId. Qed.
Lemma steady_sendRequest m p i : keeps steady (_sendRequest m p i). Proof. st _sendRequest. Qed.
#[export] Hint Resolve steady_emit steady_on steady_off steady_generateRequestId
  steady_sendRequest : keeps.
Lemma steady_connect : keeps steady connect. Proof. st connect. Qed.
Lemma steady_subscribe_send t ps f p : keeps steady (subscribe_send t ps f p).
Proof. st subscribe_send. Qed.
#[export] Hint Resolve steady_connect steady_subscribe_send : keeps.
Lemma steady_subscribe t ps f : keeps steady (subscribe t ps f). Proof. st subscribe. Qed.
Lemma steady_unsubscribe i : keeps steady (unsubscribe i). Proof. st unsubscribe. Qed.
#[export] Hint Resolve steady_subscribe steady_unsubscribe : keeps.
Lemma steady_resubscribe n : forall i, keeps steady (resubscribe n i).
Proof. induction n; intros i; cbn [resubscribe]; unfold get_client; keeps_go steady_fin. Qed.
#[export] Hint Resolve steady_resubscribe : keeps.
Lemma steady_resubscribe_from i : keeps steady (resubscribe_from i). Proof. st resubscribe_from. Qed.
Lemma steady_disconnect_finish d : keeps steady (disconnect_finish d). Proof. st disconnect_finish. Qed.
#[export] Hint Resolve steady_resubscribe_from steady_disconnect_finish : keeps.
Lemma steady_allSettled_check d : keeps steady (allSettled_check d). Proof. st allSettled_check. Qed.
#[export] Hint Resolve steady_allSettled_check : keeps.
Lemma steady_resume_request k o : keeps steady (resume_request k o). Proof. st resume_request. Qed.
#[export] Hint Resolve steady_resume_request : keeps.
Lemma steady_settle_request p o : keeps steady (settle_request p o). Proof. st settle_request. Qed.
#[export] Hint Resolve steady_settle_request : keeps.
Lemma steady_pending_resolve p r : keeps steady (pending_resolve p r). Proof. st pending_resolve. Qed.
Lemma steady_message_failed e : keeps steady (message_failed e). Proof. st message_failed. Qed.
#[export] Hint Resolve steady_pending_resolve steady_message_failed : keeps.
Lemma steady_handleMessage' m : keeps steady (_handleMessage m). Proof. st _handleMessage. Qed.
Lemma steady_scheduleReconnect : keeps steady _scheduleReconnect. Proof. st _scheduleReconnect. Qed.
#[export] Hint Resolve steady_handleMessage' steady_scheduleReconnect : keeps.
Lemma steady_resume k o : keeps steady (resume k o). Proof. st resume. Qed.
#[export] Hint Resolve steady_resume : keeps.
Lemma steady_settle p o : keeps steady (settle p o). Proof. st settle. Qed.
#[export] Hint Resolve steady_settle : keeps.
Lemma steady_settle_all l : keeps steady (settle_all l). Proof. st settle_all. Qed.
Lemma steady_reconnect_now : keeps steady reconnect_now. Proof. st reconnect_now. Qed.
Lemma steady_handleOpen h : keeps steady (handleOpen h). Proof. st handleOpen. Qed.
Lemma steady_handleMessage m : keeps steady (handleMessage m). Proof. st handleMessage. Qed.
Lemma steady_handleError h : keeps steady (handleError h). Proof. st handleError. Qed.
Lemma steady_reject_pending n : forall i, keeps steady (reject_pending n i).
Proof. induction n; intros i; cbn [reject_pending]; unfold get_client; keeps_go steady_fin. Qed.
#[export] Hint Resolve steady_settle_all steady_reconnect_now steady_handleOpen
  steady_handleMessage steady_handleError steady_reject_pending : keeps.
Lemma steady_handleClose h c r : keeps steady (handleClose h c r). Proof. st handleClose. Qed.
Lemma steady_unsubscribe_each n : forall i, keeps steady (unsubscribe_each n i).
Proof. induction n; intros i; cbn [unsubscribe_each]; unfold get_client; keeps_go steady_fin. Qed.
#[export] Hint Resolve steady_handleClose steady_unsubscribe_each : keeps.
Lemma steady_disconnect : keeps steady disconnect. Proof. st disconnect. Qed.
Lemma steady_run_timer i t : keeps steady (run_timer i t). Proof. st run_timer. Qed.
#[export] Hint Resolve steady_disconnect steady_run_timer : keeps.
Lemma steady_fire i : keeps steady (fire i). Proof. st fire. Qed.
Lemma steady_on_socket s f : (forall h, keeps steady (f h)) -> keeps steady (on_socket s f).
Proof. intros H. st on_socket. Qed.
#[export] Hint Resolve steady_fire steady_on_socket : keeps.

Lemma steady_step e : keeps steady (step e).
Proof. unfold step. keeps_go steady_fin. Qed.

Lemma steady_run events : forall w, steady w (run events w).
Proof.
  induction events as [|e events IH]; intros w; cbn [run].
  - reflexivity.
  - transitivity (exec (step e) w); [exact (steady_step e w) | exact (IH _)].
Qed.

(** ** What runs when a request is settled adds no subscription *)

Global Instance shrinks_preorder : PreOrder shrinks.
Proof.
  split.
  - intros w. unfold shrinks. auto.
  - intros a b c [H1 H2] [H3 H4]. split; etransitivity; eauto.
Qed.

Ltac shrinks_fin :=
  solve [ intros ?w; cbv beta iota zeta delta [exec update modify tell snd];
          repeat case_match; unfold shrinks; proj_simpl;
          (split; [ try reflexivity; try (apply prefix_app_r; reflexivity)
                  | try reflexivity; try apply entries_delete;
                    try (rewrite entries_clear; apply sublist_nil_l) ]) ].

Ltac sh m := unfold m, get_client; keeps_go shrinks_fin.

Lemma shrinks_tell e : keeps shrinks (tell e). Proof. sh tell. Qed.
#[export] Hint Resolve shrinks_tell : keeps.
Lemma shrinks_log e : keeps shrinks (_log e). Proof. sh _log. Qed.
Lemma shrinks_setTimeout t d : keeps shrinks (setTimeout t d). Proof. sh setTimeout. Qed.
Lemma shrinks_clearTimeout t : keeps shrinks (clearTimeout t). Proof. sh clearTimeout. Qed.
#[export] Hint Resolve shrinks_log shrinks_setTimeout shrinks_clearTimeout : keeps.
Lemma shrinks_setInterval t d : keeps shrinks (setInterval t d). Proof. sh setInterval. Qed.
Lemma shrinks_new_promise : keeps shrinks new_promise. Proof. sh new_promise. Qed.
Lemma shrinks_promise_state p : keeps shrinks (promise_state p). Proof. sh promise_state. Qed.
Lemma shrinks_set_promise p s : keeps shrinks (set_promise p s). Proof. sh set_promise. Qed.
#[export] Hint Resolve shrinks_setInterval shrinks_new_promise shrinks_promise_state
  shrinks_set_promise : keeps.
Lemma shrinks_settle_caller p o : keeps shrinks (settle_caller p o). Proof. sh settle_caller. Qed.
Lemma shrinks_await p k : keeps shrinks (await p k). Proof. sh await. Qed.
Lemma shrinks_ws_readyState : keeps shrinks ws_readyState. Proof. sh ws_readyState. Qed.
Lemma shrinks_set_readyState s r : keeps shrinks (set_readyState s r). Proof. sh set_readyState. Qed.
Lemma shrinks_install_handlers s h : keeps shrinks (install_handlers s h).
Proof. sh install_handlers. Qed.
#[export] Hint Resolve shrinks_settle_caller shrinks_await shrinks_ws_readyState
  shrinks_set_readyState shrinks_install_handlers : keeps.
Lemma shrinks_new_WebSocket u : keeps shrinks (new_WebSocket u). Proof. sh new_WebSocket. Qed.
Lemma shrinks_ws_close s a : keeps shrinks (ws_close s a). Proof. sh ws_close. Qed.
Lemma shrinks_generateRequestId : keeps shrinks _generateRequestId. Proof. sh _generateRequestId. Qed.
Lemma shrinks_sendRequest m p i : keeps shrinks (_sendRequest m p i). Proof. sh _sendRequest. Qed.
#[export] Hint Resolve shrinks_new_WebSocket shrinks_ws_close shrinks_generateRequestId
  shrinks_sendRequest : keeps.
Lemma shrinks_connect : keeps shrinks connect. Proof. sh connect. Qed.
Lemma shrinks_subscribe_send t ps f p : keeps shrinks (subscribe_send t ps f p).
Proof. sh subscribe_send. Qed.
#[export] Hint Resolve shrinks_connect shrinks_subscribe_send : keeps.
Lemma shrinks_subscribe t ps f : keeps shrinks (subscribe t ps f). Proof. sh subscribe. Qed.
#[export] Hint Resolve shrinks_subscribe : keeps.
Lemma shrinks_resubscribe n : forall i, keeps shrinks (resubscribe n i).
Proof. induction n; intros i; cbn [resubscribe]; unfold get_client; keeps_go shrinks_fin. Qed.
#[export] Hint Resolve shrinks_resubscribe : keeps.
Lemma shrinks_resubscribe_from i : keeps shrinks (resubscribe_from i). Proof. sh resubscribe_from. Qed.
Lemma shrinks_disconnect_finish d : keeps shrinks (disconnect_finish d). Proof. sh disconnect_finish. Qed.
#[export] Hint Resolve shrinks_resubscribe_from shrinks_disconnect_finish : keeps.
Lemma shrinks_allSettled_check d : keeps shrinks (allSettled_check d). Proof. sh allSettled_check. Qed.
#[export] Hint Resolve shrinks_allSettled_check : keeps.
Lemma shrinks_resume_request k o : keeps shrinks (resume_request k o). Proof. sh resume_request. Qed.

(** ** Once the reconnect budget is used up, nothing reconnects *)

Global Instance quiet_preorder : PreOrder quiet.
Proof.
  split.
  - intros w. unfold quiet. auto.
  - intros a b c H1 H2 Ha Hn. destruct (H1 Ha Hn) as (Hb & Hm & E1).
    destruct (H2 Hb Hm) as (Hc & Hk & E2). repeat split; auto. congruence.
Qed.

Lemma filter_filter_nil {A} (f g : A -> bool) l :
  List.filter f l = [] -> List.filter f (List.filter g l) = [].
Proof.
  induction l as [|x l IH]; cbn; auto.
  destruct (f x) eqn:E; [discriminate|]. intros H.
  destruct (g x); cbn; rewrite ?E; auto.
Qed.

Ltac quiet_fin :=
  solve [ intros ?w; cbv beta iota zeta delta [exec update modify tell snd];
          repeat case_match; unfold quiet, exhausted, no_reconnect_timer, reconnect_events;
          proj_simpl; intros ? ?;
          (split; [ assumption
                  | split; [ try assumption; try (apply filter_filter_nil; assumption)
                           | try reflexivity;
                             try (rewrite omap_app; cbn; rewrite app_nil_r; reflexivity) ] ]) ].

Ltac qu m := unfold m, get_client; keeps_go quiet_fin.

#[export] Hint Extern 0 (_ = false) => reflexivity : keeps.
#[export] Hint Extern 0 (_ <> _) => discriminate : keeps.

Lemma quiet_log e : keeps quiet (_log e). Proof. qu _log. Qed.
#[export] Hint Resolve quiet_log : keeps.

Lemma quiet_setTimeout t d :
  is_reconnect_task t = false -> keeps quiet (setTimeout t d).
Proof.
  intros H w He Hn. unfold no_reconnect_timer, exhausted in *. cbn. repeat split; auto.
  rewrite List.filter_app, Hn. cbn. unfold is_reconnect_timer. cbn. rewrite H. reflexivity.
Qed.

Lemma quiet_clearTimeout t : keeps quiet (clearTimeout t). Proof. qu clearTimeout. Qed.
#[export] Hint Resolve quiet_setTimeout quiet_clearTimeout : keeps.
Lemma quiet_setInterval t d :
  is_reconnect_task t = false -> keeps quiet (setInterval t d).
Proof. apply quiet_setTimeout. Qed.
Lemma quiet_clearInterval t : keeps quiet (clearInterval t). Proof. qu clearInterval. Qed.
Lemma quiet_new_promise : keeps quiet new_promise. Proof. qu new_promise. Qed.
Lemma quiet_promise_state p : keeps quiet (promise_state p). Proof. qu promise_state. Qed.
Lemma quiet_set_promise p s : keeps quiet (set_promise p s). Proof. qu set_promise. Qed.
#[export] Hint Resolve quiet_setInterval quiet_clearInterval quiet_new_promise
  quiet_promise_state quiet_set_promise : keeps.
Lemma quiet_settle_caller p o : keeps quiet (settle_caller p o). Proof. qu settle_caller. Qed.
Lemma quiet_await p k : keeps quiet (await p k). Proof. qu await. Qed.
Lemma quiet_ws_readyState : keeps quiet ws_readyState. Proof. qu ws_readyState. Qed.
Lemma quiet_set_readyState s r : keeps quiet (set_readyState s r). Proof. qu set_readyState. Qed.
Lemma quiet_install_handlers s h : keeps quiet (install_handlers s h). Proof. qu install_handlers. Qed.
Lemma quiet_handlers_of s : keeps quiet (handlers_of s). Proof. qu handlers_of. Qed.
#[export] Hint Resolve quiet_settle_caller quiet_await quiet_ws_readyState
  quiet_set_readyState quiet_install_handlers quiet_handlers_of : keeps.
Lemma quiet_new_WebSocket u : keeps quiet (new_WebSocket u). Proof. qu new_WebSocket. Qed.
Lemma quiet_ws_close s a : keeps quiet (ws_close s a). Proof. qu ws_close. Qed.
Lemma quiet_call_listener e l : keeps quiet (call_listener e l). Proof. qu call_listener. Qed.
#[export] Hint Resolve quiet_new_WebSocket quiet_ws_close quiet_call_listener : keeps.

Lemma quiet_emit e : kind_of e <> EvReconnect -> keeps quiet (_emit e).
Proof. intros H. destruct e; try (exfalso; apply H; reflexivity); qu _emit. Qed.
#[export] Hint Resolve quiet_emit : keeps.

Lemma quiet_on e l : keeps quiet (on e l). Proof. qu on. Qed.
Lemma quiet_off e l : keeps quiet (off e l). Proof. qu off. Qed.
Lemma quiet_generateRequestId : keeps quiet _generateRequestId. Proof. qu _generateRequestId. Qed.
Lemma quiet_sendRequest m p i : keeps quiet (_sendRequest m p i). Proof. qu _sendRequest. Qed.
#[export] Hint Resolve quiet_on quiet_off quiet_generateRequestId quiet_sendRequest : keeps.
Lemma quiet_connect : keeps quiet connect. Proof. qu connect. Qed.
Lemma quiet_subscribe_send t ps f p : keeps quiet (subscribe_send t ps f p).
Proof. qu subscribe_send. Qed.
#[export] Hint Resolve quiet_connect quiet_subscribe_send : keeps.
Lemma quiet_subscribe t ps f : keeps quiet (subscribe t ps f). Proof. qu subscribe. Qed.
Lemma quiet_unsubscribe i : keeps quiet (unsubscribe i). Proof. qu unsubscribe. Qed.
#[export] Hint Resolve quiet_subscribe quiet_unsubscribe : keeps.
Lemma quiet_resubscribe n : forall i, keeps quiet (resubscribe n i).
Proof. induction n; intros i; cbn [resubscribe]; unfold get_client; keeps_go quiet_fin. Qed.
#[export] Hint Resolve quiet_resubscribe : keeps.
Lemma quiet_resubscribe_from i : keeps quiet (resubscribe_from i). Proof. qu resubscribe_from. Qed.
Lemma quiet_disconnect_finish d : keeps quiet (disconnect_finish d). Proof. qu disconnect_finish. Qed.
#[export] Hint Resolve quiet_resubscribe_from quiet_disconnect_finish : keeps.
Lemma quiet_allSettled_check d : keeps quiet (allSettled_check d). Proof. qu allSettled_check. Qed.
#[export] Hint Resolve quiet_allSettled_check : keeps.
Lemma quiet_resume_request k o : keeps quiet (resume_request k o). Proof. qu resume_request. Qed.
#[export] Hint Resolve quiet_resume_request : keeps.
Lemma quiet_settle_request p o : keeps quiet (settle_request p o). Proof. qu settle_request. Qed.
#[export] Hint Resolve quiet_settle_request : keeps.
Lemma quiet_pending_resolve p r : keeps quiet (pending_resolve p r). Proof. qu pending_resolve. Qed.
Lemma quiet_message_failed e : keeps quiet (message_failed e). Proof. qu message_failed. Qed.
#[export] Hint Resolve quiet_pending_resolve quiet_message_failed : keeps.
Lemma quiet_handleMessage' m : keeps quiet (_handleMessage m). Proof. qu _handleMessage. Qed.
#[export] Hint Resolve quiet_handleMessage' : keeps.

(** With the budget used up [_scheduleReconnect] only logs. *)
Lemma scheduleReconnect_exhausted w :
  exhausted w -> exec _scheduleReconnect w = exec (_log LogMaxReconnect) w.
Proof.
  intros H. unfold exhausted in H. unfold _scheduleReconnect, get_client.
  cbv beta iota zeta delta [exec bind ret get_world snd]. rewrite H. reflexivity.
Qed.

Lemma quiet_scheduleReconnect : keeps quiet _scheduleReconnect.
Proof.
  intros w He Hn. rewrite scheduleReconnect_exhausted by assumption.
  apply quiet_log; assumption.
Qed.
#[export] Hint Resolve quiet_scheduleReconnect : keeps.

Lemma quiet_resume k o : keeps quiet (resume k o). Proof. qu resume. Qed.
#[export] Hint Resolve quiet_resume : keeps.
Lemma quiet_settle p o : keeps quiet (settle p o). Proof. qu settle. Qed.
#[export] Hint Resolve quiet_settle : keeps.
Lemma quiet_settle_all l : keeps quiet (settle_all l). Proof. qu settle_all. Qed.
Lemma quiet_reconnect_now : keeps quiet reconnect_now. Proof. qu reconnect_now. Qed.
Lemma quiet_handleMessage m : keeps quiet (handleMessage m). Proof. qu handleMessage. Qed.
Lemma quiet_handleError h : keeps quiet (handleError h). Proof. qu handleError. Qed.
Lemma quiet_reject_pending n : forall i, keeps quiet (reject_pending n i).
Proof. induction n; intros i; cbn [reject_pending]; unfold get_client; keeps_go quiet_fin. Qed.
#[export] Hint Resolve quiet_settle_all quiet_reconnect_now
  quiet_handleMessage quiet_handleError quiet_reject_pending : keeps.
Lemma quiet_handleClose h c r : keeps quiet (handleClose h c r). Proof. qu handleClose. Qed.
Lemma quiet_unsubscribe_each n : forall i, keeps quiet (unsubscribe_each n i).
Proof. induction n; intros i; cbn [unsubscribe_each]; unfold get_client; keeps_go quiet_fin. Qed.
#[export] Hint Resolve quiet_handleClose quiet_unsubscribe_each : keeps.
Lemma quiet_disconnect : keeps quiet disconnect. Proof. qu disconnect. Qed.
Lemma quiet_run_timer i t : keeps quiet (run_timer i t). Proof. qu run_timer. Qed.
#[export] Hint Resolve quiet_disconnect quiet_run_timer : keeps.
Lemma quiet_fire i : keeps quiet (fire i). Proof. qu fire. Qed.
Lemma quiet_on_socket s f : (forall h, keeps quiet (f h)) -> keeps quiet (on_socket s f).
Proof. intros H. qu on_socket. Qed.
#[export] Hint Resolve quiet_fire quiet_on_socket : keeps.

Lemma quiet_step e : is_open_event e = false -> keeps quiet (step e).
Proof. destruct e; try discriminate; intros _; unfold step; keeps_go quiet_fin. Qed.

Lemma quiet_run events :
  forallb (fun e => negb (is_open_event e)) events = true ->
  forall w, quiet w (run events w).
Proof.
  induction events as [|e events IH]; intros H w; cbn [run].
  - reflexivity.
  - cbn in H. apply andb_true_iff in H as [H1 H2]. apply negb_true_iff in H1.
    transitivity (exec (step e) w); [exact (quiet_step e H1 w) | exact (IH H2 _)].
Qed.

(** ** Running monadic code *)

Lemma exec_bind {A B} (m : M A) (k : A -> M B) w :
  exec (bind m k) w = exec (k (fst (m w))) (exec m w).
Proof. unfold exec, bind. destruct (m w). reflexivity. Qed.

Lemma result_bind {A B} (m : M A) (k : A -> M B) w :
  fst (bind m k w) = fst (k (fst (m w)) (exec m w)).
Proof. unfold exec, bind. destruct (m w). reflexivity. Qed.

Lemma exec_seq {A B} (m : M A) (k : M B) w :
  exec (bind m (fun _ => k)) w = exec k (exec m w).
Proof. apply exec_bind. Qed.

Lemma exec_get_client {B} (k : Client -> M B) w :
  exec (bind get_client k) w = exec (k (client w)) w.
Proof. reflexivity. Qed.

Lemma exec_get_world {B} (k : World -> M B) w :
  exec (bind get_world k) w = exec (k w) w.
Proof. reflexivity. Qed.

Lemma says_nil w : says [] w = w.
Proof. unfold says. destruct w. cbn. rewrite app_nil_r. reflexivity. Qed.

Lemma says_says t u w : says u (says t w) = says (t ++ u) w.
Proof. unfold says. cbn. rewrite app_assoc. reflexivity. Qed.

Lemma client_says t w : client (says t w) = client w.
Proof. reflexivity. Qed.

Lemma logged_says t w entry : logged (says t w) entry = logged w entry.
Proof. reflexivity. Qed.

Lemma exec_tell e w : exec (tell e) w = says [e] w.
Proof. reflexivity. Qed.

Lemma exec_log entry w : exec (_log entry) w = says (logged w entry) w.
Proof.
  unfold _log, logged, get_client. cbv beta iota zeta delta [exec bind ret get_world when snd].
  destruct (o_debug _); [reflexivity | symmetry; apply says_nil].
Qed.

Lemma exec_call_listener e l w :
  exec (call_listener e l) w = says (listener_effects w e l) w.
Proof.
  unfold call_listener, listener_effects. rewrite exec_seq, exec_tell.
  destruct (fn_throws l).
  - rewrite exec_log, says_says. reflexivity.
  - reflexivity.
Qed.

Lemma exec_forEach_listeners e ls : forall w,
  exec (forEach (call_listener e) ls) w = says (flat_map (listener_effects w e) ls) w.
Proof.
  induction ls as [|l ls IH]; intros w; cbn [forEach flat_map].
  - symmetry. apply says_nil.
  - rewrite exec_seq, exec_call_listener, IH, says_says. reflexivity.
Qed.

Lemma exec_emit e w : exec (_emit e) w = says (emitted w e) w.
Proof.
  unfold _emit, emitted. rewrite exec_seq, exec_tell.
  rewrite exec_get_client. change (client (says [Emit e] w)) with (client w).
  destruct (eventListeners (client w) (kind_of e)) as [ls|]; cbn [default flat_map].
  - rewrite exec_forEach_listeners, says_says. reflexivity.
  - reflexivity.
Qed.

Lemma exec_message_failed error w :
  exec (message_failed error) w = says (logged w (LogParseError error) ++ emitted w (OnError error)) w.
Proof. unfold message_failed. rewrite exec_seq, exec_log, exec_emit, says_says. reflexivity. Qed.

Lemma callback_calls_app t u : callback_calls (t ++ u) = (callback_calls t ++ callback_calls u)%list.
Proof. apply omap_app. Qed.

Lemma callback_calls_logged w entry : callback_calls (logged w entry) = [].
Proof. unfold logged. destruct (o_debug _); reflexivity. Qed.

Lemma callback_calls_emitted w e : callback_calls (emitted w e) = [].
Proof.
  unfold emitted. cbn. induction (default [] _) as [|l ls IH]; cbn; auto.
  unfold listener_effects at 1. destruct (fn_throws l); cbn.
  - unfold callback_calls in *. rewrite omap_app. fold (callback_calls (logged w (LogListenerError j))).
    rewrite callback_calls_logged. exact IH.
  - exact IH.
Qed.

(** Registering listeners with [on] appends them, in order. *)
Lemma listeners_after_on k ls : forall w,
  eventListeners (client (exec (forEach (on k) ls) w)) k
  = match ls with
    | [] => eventListeners (client w) k
    | _ => Some (default [] (eventListeners (client w) k) ++ ls)%list
    end.
Proof.
  induction ls as [|l ls IH]; intros w; cbn [forEach].
  - reflexivity.
  - rewrite exec_seq, IH. unfold on at 1 2. cbv beta iota zeta delta [exec modify update snd].
    cbn. destruct (decide (k = k)); [|congruence].
    destruct ls; cbn; [reflexivity|]. rewrite <- app_assoc. reflexivity.
Qed.

(** ** C7: [_emit] and the listeners *)

Lemma listener_calls_app t u :
  listener_calls (t ++ u) = (listener_calls t ++ listener_calls u)%list.
Proof. apply omap_app. Qed.

Lemma console_app t u : console (t ++ u) = (console t ++ console u)%list.
Proof. apply omap_app. Qed.

Lemma listener_calls_effects w e ls :
  listener_calls (flat_map (listener_effects w e) ls) = List.map (fun l => (l, e)) ls.
Proof.
  induction ls as [|l ls IH]; cbn; auto.
  f_equal. rewrite listener_calls_app, IH.
  unfold logged. destruct (fn_throws l); [destruct (o_debug _)|]; reflexivity.
Qed.

(** Unfolds the monadic plumbing and the primitives of the runtime. *)
Ltac run_m :=
  cbv beta iota zeta delta
    [exec bind ret get_world update get_client modify tell when
     setTimeout setInterval clearTimeout clearInterval new_promise promise_state set_promise
     settle_caller await ws_readyState set_readyState install_handlers handlers_of
     new_WebSocket ws_close says current_readyState socket_state];
  proj_simpl.

(** ** C10: a response nobody waits for *)

(** C10. A message that is not a push and whose id is the key of no
    pending request changes nothing: the pending requests, the
    subscriptions, the socket and its state stay as they are, no error
    event is emitted, and the only thing added to the trace is the line
    [_log] writes when debugging is on. *)
Theorem unmatched_response_is_ignored (w : World) (message : JValue) :
  nullish message = false ->
  strict_eq (prop message "method") (JStr "eth_subscription") = false ->
  JsMap.has (prop message "id") (pendingRequests (client w)) = false ->
  let w' := exec (_handleMessage (Some message)) w in
  w' = says (logged w (LogReceived message)) w /\
  pendingRequests (client w') = pendingRequests (client w) /\
  subscriptions (client w') = subscriptions (client w) /\
  ws (client w') = ws (client w) /\
  getState w' = getState w /\
  error_events (trace w') = error_events (trace w).
Proof.
  intros Hn Hm Hh w'.
  assert (E : w' = says (logged w (LogReceived message)) w).
  { unfold w', _handleMessage. rewrite exec_seq, exec_log, Hn, Hm, exec_get_client.
    change (client (says ?t w)) with (client w).
    apply has_get in Hh. rewrite Hh.
    destruct (strict_eq (prop message "id") JUndefined); reflexivity. }
  rewrite E. repeat split; try reflexivity.
  unfold says, logged. cbn [trace with_trace]. unfold error_events. rewrite omap_app.
  destruct (o_debug _); cbn; rewrite app_nil_r; reflexivity.
Qed.

Lemma unmatched_response_is_ignored_witness :
  nullish (response 7 (JNum 99) (JStr "late")) = false /\
  JsMap.has (prop (response 7 (JNum 99) (JStr "late")) "id")
    (pendingRequests (client subscribed_world)) = false /\
  exec (_handleMessage (Some (response 7 (JNum 99) (JStr "late")))) subscribed_world
  = says (logged subscribed_world (LogReceived (response 7 (JNum 99) (JStr "late")))) subscribed_world.
Proof.
  split; [reflexivity|]. split; [reflexivity|].
  apply (unmatched_response_is_ignored subscribed_world (response 7 (JNum 99) (JStr "late")));
    reflexivity.
Defined.

(** ** C6: dispatch of a push *)

Lemma push_unknown (w : World) (message : JValue) :
  nullish message = false ->
  strict_eq (prop message "method") (JStr "eth_subscription") = true ->
  JsMap.get (opt_prop (prop message "params") "subscription") (subscriptions (client w)) = None ->
  exec (_handleMessage (Some message)) w = says (logged w (LogReceived message)) w.
Proof.
  intros Hn Hm G.
  unfold _handleMessage. rewrite exec_seq, exec_log, Hn, Hm, exec_get_client.
  change (client (says ?t w)) with (client w). rewrite G.
  destruct (truthy _); reflexivity.
Qed.

Lemma push_known (w : World) (message : JValue) (subscription : Subscription) :
  keys_truthy (subscriptions (client w)) ->
  nullish message = false ->
  strict_eq (prop message "method") (JStr "eth_subscription") = true ->
  JsMap.get (opt_prop (prop message "params") "subscription") (subscriptions (client w))
  = Some subscription ->
  let w' := exec (_handleMessage (Some message)) w in
  callback_calls (trace w')
  = (callback_calls (trace w) ++
     [(sub_callback subscription, opt_prop (prop message "params") "result")])%list /\
  client w' = client w.
Proof.
  intros Hk Hn Hm G w'.
  unfold w', _handleMessage. rewrite exec_seq, exec_log, Hn, Hm, exec_get_client.
  change (client (says ?t w)) with (client w). rewrite G.
  rewrite (keys_truthy_get _ _ _ Hk G).
  rewrite exec_seq, exec_tell, says_says.
  destruct (fn_throws (sub_callback subscription)) as [error|].
  - rewrite exec_message_failed, says_says. split; [|reflexivity].
    unfold says. cbn [trace with_trace].
    change (logged (with_trace ?t w) ?e) with (logged w e).
    rewrite !callback_calls_app, callback_calls_logged. cbn [app].
    rewrite callback_calls_logged.
    change (emitted (with_trace ?t w) ?e) with (emitted w e).
    rewrite callback_calls_emitted, app_nil_r. reflexivity.
  - change (exec (ret tt) ?x) with x. split; [|reflexivity].
    unfold says. cbn [trace with_trace].
    rewrite !callback_calls_app, callback_calls_logged. reflexivity.
Qed.

(** C6. A push whose subscription id is a key of the registry calls the
    callback stored under that key, once, with the payload of the push,
    and calls no other callback; the client is left as it was. A push
    whose id is no key of the registry, or is missing, calls nothing and
    emits nothing: only the debug line of [_log] is added to the trace. *)
Theorem push_goes_to_its_subscription (w : World) (message : JValue) :
  consistent w ->
  nullish message = false ->
  strict_eq (prop message "method") (JStr "eth_subscription") = true ->
  let id := opt_prop (prop message "params") "subscription" in
  let payload := opt_prop (prop message "params") "result" in
  let w' := exec (_handleMessage (Some message)) w in
  match JsMap.get id (subscriptions (client w)) with
  | Some subscription =>
      callback_calls (trace w')
      = (callback_calls (trace w) ++ [(sub_callback subscription, payload)])%list /\
      client w' = client w
  | None => w' = says (logged w (LogReceived message)) w
  end.
Proof.
  intros (_ & _ & Hk & _) Hn Hm id payload w'.
  destruct (JsMap.get id (subscriptions (client w))) as [subscription|] eqn:G.
  - exact (push_known w message subscription Hk Hn Hm G).
  - exact (push_unknown w message Hn Hm G).
Qed.

Lemma push_goes_to_its_subscription_witness :
  callback_calls (trace (exec (_handleMessage
    (Some (notification 20 (JStr "0xabc") (JObj 22 [("number", JStr "0x10")])))) subscribed_world))
  = [(returning 1, JObj 22 [("number", JStr "0x10")])] /\
  exec (_handleMessage (Some (notification 20 (JStr "0xold") JNull))) subscribed_world
  = says (logged subscribed_world (LogReceived (notification 20 (JStr "0xold") JNull)))
      subscribed_world.
Proof.
  assert (C : consistent subscribed_world).
  { vm_compute. repeat split; repeat constructor. }
  split.
  - pose proof (push_goes_to_its_subscription subscribed_world
      (notification 20 (JStr "0xabc") (JObj 22 [("number", JStr "0x10")])) C eq_refl eq_refl) as H.
    vm_compute in H. destruct H as [H _]. vm_compute. exact H.
  - pose proof (push_goes_to_its_subscription subscribed_world
      (notification 20 (JStr "0xold") JNull) C eq_refl eq_refl) as H.
    vm_compute in H. vm_compute. exact H.
Defined.

(** ** C9: a subscribe response without a usable id *)

Lemma exec_settle_request_pending p o k w :
  nth_error (promises w) p = Some (Pending k) ->
  exec (settle_request p o) w
  = exec (resume_request k o) (says [Settle p o] (exec (set_promise p (Done o)) w)).
Proof.
  intros H. unfold settle_request, promise_state.
  cbv beta iota zeta delta [exec bind ret get_world fst snd]. rewrite H. reflexivity.
Qed.

(** C9. When the response to a subscribe request carries no truthy
    [error] and no truthy [result], the promise of that [subscribe] call
    is rejected with "Invalid subscription ID received", and the registry
    gets no entry: its entries afterwards are among those it had. *)
Theorem falsy_subscription_id_is_rejected (w : World) (message : JValue)
    (pending : PendingRequest) (type : SubscriptionType) (params : list JValue)
    (callback : JsFunction) (k : Waiter) :
  nullish message = false ->
  strict_eq (prop message "method") (JStr "eth_subscription") = false ->
  strict_eq (prop message "id") JUndefined = false ->
  JsMap.get (prop message "id") (pendingRequests (client w)) = Some pending ->
  request pending = SubscribeRequest type params callback ->
  nth_error (promises w) (promise pending) = Some (Pending k) ->
  truthy (prop message "error") = false ->
  truthy (prop message "result") = false ->
  let w' := exec (_handleMessage (Some message)) w in
  (exists rest,
     trace w' = (trace w ++ logged w (LogReceived message) ++
                 Settle (promise pending) (Rejected (Error "Invalid subscription ID received"))
                 :: rest)%list) /\
  sublist (JsMap.entries (subscriptions (client w'))) (JsMap.entries (subscriptions (client w))).
Proof.
  intros Hn Hm Hi Hg Hr Hp He Hs w'.
  unfold w', _handleMessage. rewrite exec_seq, exec_log, Hn, Hm, exec_get_client.
  change (client (says ?t w)) with (client w). rewrite Hi, Hg, exec_seq.
  unfold pending_resolve. rewrite exec_seq, Hr, He, Hs. cbn [negb].
  rewrite (exec_settle_request_pending _ _ k) by exact Hp.
  match goal with |- context [exec (resume_request k ?o) ?w3] =>
    destruct (shrinks_resume_request k o w3) as [[rest Ht] Hsub]; revert Ht Hsub
  end.
  run_m. intros Ht Hsub. split.
  - exists rest. rewrite Ht, <- !app_assoc. reflexivity.
  - exact Hsub.
Qed.

Lemma falsy_subscription_id_is_rejected_witness :
  let message := response 30 (JStr "1700000000000-1-k3x9") JNull in
  let w' := exec (_handleMessage (Some message)) requesting_world in
  (exists rest,
     trace w' = (trace requesting_world ++ logged requesting_world (LogReceived message) ++
                 Settle 1 (Rejected (Error "Invalid subscription ID received")) :: rest)%list) /\
  sublist (JsMap.entries (subscriptions (client w')))
    (JsMap.entries (subscriptions (client requesting_world))).
Proof.
  exact (falsy_subscription_id_is_rejected requesting_world
           (response 30 (JStr "1700000000000-1-k3x9") JNull)
           {| request := SubscribeRequest newHeads [] (returning 1); promise := 1; timeoutId := 2 |}
           newHeads [] (returning 1) Caller
           eq_refl eq_refl eq_refl eq_refl eq_refl eq_refl eq_refl eq_refl).
Defined.

(** ** C5: [unsubscribe] *)

Lemma current_readyState_ws w r :
  current_readyState w = Some r -> exists s, ws (client w) = Some s.
Proof. unfold current_readyState. destruct (ws (client w)); [eauto | discriminate]. Qed.

Lemma nth_error_new {A} (l : list A) x : nth_error (l ++ [x]) (length l) = Some x.
Proof. rewrite nth_error_app2 by lia. rewrite Nat.sub_diag. reflexivity. Qed.

(** A message that answers a pending request: the entry is taken out of
    the map and its [resolve] runs. *)
Lemma handle_response w message pending :
  nullish message = false ->
  strict_eq (prop message "method") (JStr "eth_subscription") = false ->
  strict_eq (prop message "id") JUndefined = false ->
  JsMap.get (prop message "id") (pendingRequests (client w)) = Some pending ->
  exec (_handleMessage (Some message)) w
  = exec (pending_resolve pending message)
      (exec (modify (fun c => with_pendingRequests
                       (JsMap.delete (prop message "id") (pendingRequests c)) c))
         (says (logged w (LogReceived message)) w)).
Proof.
  intros Hn Hm Hi Hg. unfold _handleMessage.
  rewrite exec_seq, exec_log, Hn, Hm, exec_get_client.
  change (client (says ?t w)) with (client w). rewrite Hi, Hg, exec_seq. reflexivity.
Qed.

(** C5. [unsubscribe(id)] on an id that is no key of the registry rejects
    with the "not found" error and changes nothing. On a registered id
    with no open connection it deletes the entry, sends nothing and
    resolves to [false]. On a registered id with an open connection it
    sends an [eth_unsubscribe] request for the id and leaves the registry
    alone; when the response to that request comes, the entry is deleted
    if the response confirms (no [error], and [result === true]) and
    stays otherwise. *)
Theorem unsubscribe_contract (w : World) (id : JValue) :
  let p := length (promises w) in
  let w' := exec (unsubscribe id) w in
  (JsMap.has id (subscriptions (client w)) = false ->
     client w' = client w /\
     trace w' = (trace w ++ [Settle p (Rejected (ErrorSubscriptionNotFound id))])%list) /\
  (JsMap.has id (subscriptions (client w)) = true ->
   current_readyState w <> Some OPEN ->
     subscriptions (client w') = JsMap.delete id (subscriptions (client w)) /\
     pendingRequests (client w') = pendingRequests (client w) /\
     trace w' = (trace w ++ [Settle p (Resolved (JBool false))])%list) /\
  (JsMap.has id (subscriptions (client w)) = true ->
   current_readyState w = Some OPEN ->
     let rid := request_id w (S (requestIdCounter (client w))) in
     subscriptions (client w') = subscriptions (client w) /\
     (exists s, ws (client w) = Some s /\
        trace w' = (trace w ++ logged w (LogSending "eth_unsubscribe" [id] rid) ++
                    [WsSend s "eth_unsubscribe" [id] rid])%list) /\
     forall message,
       nullish message = false ->
       strict_eq (prop message "method") (JStr "eth_subscription") = false ->
       prop message "id" = rid ->
       let w'' := exec (_handleMessage (Some message)) w' in
       subscriptions (client w'')
       = (if confirms message then JsMap.delete id (subscriptions (client w))
          else subscriptions (client w)) /\
       settlements (trace w'')
       = (settlements (trace w') ++
          [(p, if truthy (prop message "error")
               then Rejected (XRpcError
                      (js_or (prop (prop message "error") "code") (JNum (-32603)))
                      (js_or (prop (prop message "error") "message") (JStr "Unsubscribe failed"))
                      (prop (prop message "error") "data"))
               else Resolved (JBool (strict_eq (prop message "result") (JBool true))))])%list).
Proof.
  intros p w'. split; [|split].
  - intros Hh. unfold w', unsubscribe. run_m. rewrite Hh. cbn [negb]. run_m.
    rewrite nth_error_new. run_m. auto.
  - intros Hh Hr. unfold w', unsubscribe. run_m. rewrite Hh. cbn [negb]. run_m.
    unfold current_readyState, socket_state in *.
    destruct (match ws (client w) with Some s => readyState <$> nth_error (sockets w) s | None => None end)
      as [[|[|r]]|]; try (exfalso; apply Hr; reflexivity);
      run_m; rewrite nth_error_new; run_m; auto.
  - intros Hh Hr rid. destruct (current_readyState_ws _ _ Hr) as [s Hs].
    assert (E : exec (unsubscribe id) w
      = says (logged w (LogSending "eth_unsubscribe" [id] rid) ++ [WsSend s "eth_unsubscribe" [id] rid])
          (with_client
             (with_pendingRequests
                (JsMap.set rid {| request := UnsubscribeRequest id; promise := p;
                                  timeoutId := nextTimer w |} (pendingRequests (client w)))
                (with_requestIdCounter (S (requestIdCounter (client w))) (client w)))
             (with_timers
                (timers w ++ [{| timer_id := nextTimer w; timer_delay := o_timeout (options (client w));
                                 timer_task := RequestTimeout rid p "Unsubscribe request timeout" |}])
                (S (nextTimer w))
                (with_promises (promises w ++ [Pending Caller]) w)))).
    { unfold unsubscribe, _generateRequestId, _sendRequest, _log, logged. run_m.
      rewrite Hh. cbn [negb]. run_m. unfold current_readyState, socket_state in *.
      rewrite Hr. unfold OPEN. run_m. rewrite Hs in *. rewrite Hr. unfold OPEN. run_m.
      unfold request_id. proj_simpl. fold (request_id w (S (requestIdCounter (client w)))).
      fold rid. destruct (o_debug _); run_m; rewrite <- ?app_assoc; reflexivity. }
    unfold w'. rewrite E. split; [reflexivity|]. split; [exists s; split; [exact Hs | reflexivity]|].
    intros message Hn Hm Hi. cbv zeta.
    set (w1 := says _ _).
    assert (Hp : nth_error (promises w1) p = Some (Pending Caller)) by apply nth_error_new.
    rewrite (handle_response w1 message
               {| request := UnsubscribeRequest id; promise := p; timeoutId := nextTimer w |});
      [| exact Hn | exact Hm | rewrite Hi; reflexivity
       | rewrite Hi; unfold w1, says; proj_simpl; apply get_set_same ].
    unfold pending_resolve. rewrite exec_seq. cbn [request timeoutId promise]. unfold confirms.
    destruct (truthy (prop message "error")) eqn:He; cbn [negb andb];
      [| destruct (strict_eq (prop message "result") (JBool true)) eqn:Hres;
         unfold when; rewrite ?exec_seq, ?exec_log ];
      (rewrite (exec_settle_request_pending _ _ Caller); [| exact Hp ]);
      unfold resume_request; run_m; unfold w1; run_m; (split; [reflexivity|]);
      unfold settlements; rewrite !omap_app; cbn; unfold logged;
      destruct (o_debug _); cbn; rewrite ?app_nil_r; reflexivity.
Qed.

(** ** Requests on an open connection *)

Lemma subscribe_open w s type params callback :
  current_readyState w = Some OPEN ->
  ws (client w) = Some s ->
  subscribe type params callback w
  = (length (promises w),
     requested s "eth_subscribe" (JStr (type_name type) :: params)
       (SubscribeRequest type params callback) "Subscribe request timeout" w).
Proof.
  intros Hr Hs. unfold requested, subscribe, subscribe_send, _generateRequestId, _sendRequest,
    _log, logged. run_m. unfold current_readyState, socket_state in Hr.
  rewrite Hr. unfold OPEN. run_m. rewrite Hs in *. rewrite Hr. unfold OPEN. run_m.
  destruct (o_debug _); run_m; rewrite <- ?app_assoc; reflexivity.
Qed.

Lemma unsubscribe_open w s id :
  JsMap.has id (subscriptions (client w)) = true ->
  current_readyState w = Some OPEN ->
  ws (client w) = Some s ->
  unsubscribe id w
  = (length (promises w),
     requested s "eth_unsubscribe" [id] (UnsubscribeRequest id) "Unsubscribe request timeout" w).
Proof.
  intros Hh Hr Hs. unfold requested, unsubscribe, _generateRequestId, _sendRequest, _log, logged.
  run_m. rewrite Hh. cbn [negb]. run_m. unfold current_readyState, socket_state in Hr.
  rewrite Hr. unfold OPEN. run_m. rewrite Hs in *. rewrite Hr. unfold OPEN. run_m.
  destruct (o_debug _); run_m; rewrite <- ?app_assoc; reflexivity.
Qed.

Lemma exec_settle_pending p o k w :
  nth_error (promises w) p = Some (Pending k) ->
  exec (settle p o) w = exec (resume k o) (says [Settle p o] (exec (set_promise p (Done o)) w)).
Proof.
  intros H. unfold settle, promise_state.
  cbv beta iota zeta delta [exec bind ret get_world fst snd]. rewrite H. reflexivity.
Qed.

(** ** C4: the timeout of a request *)

Lemma armed_cleared id w : armed id (exec (clearTimeout id) w) = None.
Proof.
  unfold armed. run_m. induction (timers w) as [|t ts IH]; cbn; auto.
  destruct (Nat.eqb (timer_id t) id) eqn:E; cbn; rewrite ?E; auto.
Qed.

Lemma has_delete_same {V} k (m : JsMap.t V) :
  map_wf m -> JsMap.has k (JsMap.delete k m) = false.
Proof. intros H. apply has_get, get_delete_same, H. Qed.

(** C4. Every request goes out with a timer of [options.timeout]
    milliseconds that carries its id and its promise. When that timer
    fires while application code still waits on the promise, the promise
    is rejected with the timeout error, the pending requests no longer
    have the id, and the timer is gone: firing it again does nothing. *)
Theorem request_timeout_fails_the_caller (w : World) :
  (forall s type params callback,
     current_readyState w = Some OPEN -> ws (client w) = Some s ->
     let w1 := exec (subscribe type params callback) w in
     let rid := request_id w (S (requestIdCounter (client w))) in
     timers w1 = (timers w ++
       [{| timer_id := nextTimer w; timer_delay := o_timeout (options (client w));
           timer_task := RequestTimeout rid (length (promises w)) "Subscribe request timeout" |}])%list /\
     JsMap.get rid (pendingRequests (client w1))
     = Some {| request := SubscribeRequest type params callback;
               promise := length (promises w); timeoutId := nextTimer w |}) /\
  (forall s id,
     JsMap.has id (subscriptions (client w)) = true ->
     current_readyState w = Some OPEN -> ws (client w) = Some s ->
     let w1 := exec (unsubscribe id) w in
     let rid := request_id w (S (requestIdCounter (client w))) in
     timers w1 = (timers w ++
       [{| timer_id := nextTimer w; timer_delay := o_timeout (options (client w));
           timer_task := RequestTimeout rid (length (promises w)) "Unsubscribe request timeout" |}])%list /\
     JsMap.get rid (pendingRequests (client w1))
     = Some {| request := UnsubscribeRequest id;
               promise := length (promises w); timeoutId := nextTimer w |}) /\
  (forall id t requestId p message,
     armed id w = Some t ->
     timer_task t = RequestTimeout requestId p message ->
     nth_error (promises w) p = Some (Pending Caller) ->
     map_wf (pendingRequests (client w)) ->
     let w' := exec (fire id) w in
     trace w' = (trace w ++ [Settle p (Rejected (Error message))])%list /\
     JsMap.has requestId (pendingRequests (client w')) = false /\
     armed id w' = None /\
     exec (fire id) w' = w').
Proof.
  split; [|split].
  - intros s type params callback Hr Hs w1 rid. unfold w1, exec.
    rewrite (subscribe_open _ s) by assumption. unfold requested. run_m.
    split; [reflexivity | apply get_set_same].
  - intros s id Hh Hr Hs w1 rid. unfold w1, exec.
    rewrite (unsubscribe_open _ s) by assumption. unfold requested. run_m.
    split; [reflexivity | apply get_set_same].
  - intros id t requestId p message Ha Ht Hp Hwf w'.
    assert (E : w' = says [Settle p (Rejected (Error message))]
                       (exec (set_promise p (Done (Rejected (Error message))))
                          (exec (modify (fun c => with_pendingRequests
                                   (JsMap.delete requestId (pendingRequests c)) c))
                             (exec (clearTimeout id) w)))).
    { unfold w', fire. rewrite exec_get_world, Ha, Ht, exec_seq.
      unfold run_timer. rewrite exec_seq.
      rewrite (exec_settle_pending _ _ Caller) by (run_m; exact Hp). reflexivity. }
    assert (Harm : armed id w' = None).
    { rewrite E. pose proof (armed_cleared id w) as H. unfold armed in *. exact H. }
    split; [rewrite E; reflexivity|]. split; [|split; [exact Harm|]].
    + rewrite E. run_m. apply has_delete_same, Hwf.
    + unfold fire. rewrite exec_get_world, Harm. reflexivity.
Qed.

Lemma request_timeout_fails_the_caller_witness :
  let w' := exec (fire 2) requesting_world in
  trace w' = (trace requesting_world ++
              [Settle 1 (Rejected (Error "Subscribe request timeout"))])%list /\
  JsMap.has (JStr "1700000000000-1-k3x9") (pendingRequests (client w')) = false /\
  armed 2 w' = None /\
  exec (fire 2) w' = w'.
Proof.
  refine (proj2 (proj2 (request_timeout_fails_the_caller requesting_world)) 2
            {| timer_id := 2; timer_delay := 10000;
               timer_task := RequestTimeout (JStr "1700000000000-1-k3x9") 1
                               "Subscribe request timeout" |}
            (JStr "1700000000000-1-k3x9") 1 "Subscribe request timeout" _ eq_refl _ _).
  - vm_compute. reflexivity.
  - vm_compute. reflexivity.
  - vm_compute. auto.
Defined.

Lemma unsubscribe_contract_witness :
  trace (exec (unsubscribe (JStr "0xnone")) subscribed_world)
  = (trace subscribed_world ++ [Settle 2 (Rejected (ErrorSubscriptionNotFound (JStr "0xnone")))])%list /\
  subscriptions (client (exec (unsubscribe (JStr "0xabc")) dropped_world))
  = JsMap.delete (JStr "0xabc") (subscriptions (client dropped_world)) /\
  subscriptions (client (exec (_handleMessage
    (Some (response 40 (JStr "1700000000000-2-k3x9") (JBool true))))
    (exec (unsubscribe (JStr "0xabc")) subscribed_world)))
  = JsMap.delete (JStr "0xabc") (subscriptions (client subscribed_world)).
Proof.
  split; [|split].
  - apply (proj1 (unsubscribe_contract subscribed_world (JStr "0xnone"))). vm_compute. reflexivity.
  - apply (proj1 (proj2 (unsubscribe_contract dropped_world (JStr "0xabc")))).
    + vm_compute. reflexivity.
    + vm_compute. discriminate.
  - assert (Hh : JsMap.has (JStr "0xabc") (subscriptions (client subscribed_world)) = true)
      by (vm_compute; reflexivity).
    assert (Hr : current_readyState subscribed_world = Some OPEN) by (vm_compute; reflexivity).
    destruct (proj2 (proj2 (unsubscribe_contract subscribed_world (JStr "0xabc"))) Hh Hr)
      as (_ & _ & H).
    apply (H (response 40 (JStr "1700000000000-2-k3x9") (JBool true)));
      vm_compute; reflexivity.
Defined.

(** ** C8: [connect] on a socket that is open or connecting *)

Lemma insert_new {A} (l : list A) (x y : A) :
  <[length l := y]> (l ++ [x])%list = (l ++ [y])%list.
Proof. induction l; cbn; [reflexivity | f_equal; assumption]. Qed.

Lemma connect_open w :
  current_readyState w = Some OPEN ->
  exec connect w
  = says (logged w LogAlreadyConnected ++ [Settle (length (promises w)) (Resolved JUndefined)])
      (with_promises (promises w ++ [Done (Resolved JUndefined)]) w).
Proof.
  intros Hr. unfold connect, _log, logged. run_m.
  unfold current_readyState, socket_state in Hr. rewrite Hr. unfold OPEN.
  destruct (o_debug _); run_m; rewrite nth_error_new; run_m; rewrite insert_new;
    rewrite <- ?app_assoc; reflexivity.
Qed.

Lemma connect_connecting w :
  current_readyState w = Some CONNECTING ->
  exec connect w
  = says (logged w LogConnectionInProgress)
      (with_timers
         (timers w ++
          [{| timer_id := nextTimer w; timer_delay := 100;
              timer_task := CheckInterval (length (promises w)) |};
           {| timer_id := S (nextTimer w); timer_delay := o_timeout (options (client w));
              timer_task := CheckTimeout (length (promises w)) (nextTimer w) |}])%list
         (S (S (nextTimer w)))
         (with_promises (promises w ++ [Pending Caller]) w)).
Proof.
  intros Hr. unfold connect, _log, logged. run_m.
  unfold current_readyState, socket_state in Hr. rewrite Hr. unfold CONNECTING.
  destruct (o_debug _); run_m; rewrite <- ?app_assoc; try reflexivity.
  destruct w; cbn. rewrite app_nil_r. reflexivity.
Qed.

(** C8. On an open socket [connect] resolves at once and touches neither
    the socket nor anything else. While the socket is connecting it makes
    no second socket: it arms an interval of 100 ms and a timeout of
    [options.timeout] ms for the promise it returns; the interval resolves
    the promise (and clears itself) at its first tick that finds the
    socket open, and the timeout rejects it with "Connection timeout". *)
Theorem connect_is_idempotent (w : World) :
  let p := length (promises w) in
  let w' := exec connect w in
  (current_readyState w = Some OPEN ->
     w' = says (logged w LogAlreadyConnected ++ [Settle p (Resolved JUndefined)])
            (with_promises (promises w ++ [Done (Resolved JUndefined)]) w)) /\
  (current_readyState w = Some CONNECTING ->
     w' = says (logged w LogConnectionInProgress)
            (with_timers
               (timers w ++
                [{| timer_id := nextTimer w; timer_delay := 100; timer_task := CheckInterval p |};
                 {| timer_id := S (nextTimer w); timer_delay := o_timeout (options (client w));
                    timer_task := CheckTimeout p (nextTimer w) |}])%list
               (S (S (nextTimer w)))
               (with_promises (promises w ++ [Pending Caller]) w))) /\
  (current_readyState w = Some OPEN \/ current_readyState w = Some CONNECTING ->
     sockets w' = sockets w /\ ws (client w') = ws (client w) /\
     sockets_made (trace w') = sockets_made (trace w)) /\
  (forall id t q,
     armed id w = Some t -> timer_task t = CheckInterval q ->
     nth_error (promises w) q = Some (Pending Caller) ->
     current_readyState w = Some OPEN ->
     trace (exec (fire id) w) = (trace w ++ [Settle q (Resolved JUndefined)])%list /\
     armed id (exec (fire id) w) = None) /\
  (forall id t q i,
     armed id w = Some t -> timer_task t = CheckTimeout q i ->
     nth_error (promises w) q = Some (Pending Caller) ->
     trace (exec (fire id) w) = (trace w ++ [Settle q (Rejected (Error "Connection timeout"))])%list).
Proof.
  intros p w'.
  pose proof (connect_open w) as H1. pose proof (connect_connecting w) as H2.
  fold p w' in H1, H2.
  split; [exact H1|]. split; [exact H2|]. split; [|split].
  - intros [Hr|Hr]; [rewrite (H1 Hr) | rewrite (H2 Hr)]; run_m;
      (split; [reflexivity|]); (split; [reflexivity|]);
      unfold sockets_made, logged; rewrite omap_app; destruct (o_debug _); cbn;
      rewrite app_nil_r; reflexivity.
  - intros id t q Ha Ht Hp Hr. unfold fire. rewrite exec_get_world, Ha, Ht, exec_seq.
    change (exec (ret tt) w) with w. unfold run_timer.
    rewrite exec_bind. change (fst (ws_readyState w)) with (current_readyState w).
    change (exec ws_readyState w) with w. rewrite Hr. unfold OPEN.
    rewrite exec_seq. rewrite (exec_settle_pending _ _ Caller) by (run_m; exact Hp).
    split; [reflexivity|]. apply (armed_cleared id w).
  - intros id t q i Ha Ht Hp. unfold fire. rewrite exec_get_world, Ha, Ht, exec_seq.
    unfold run_timer. rewrite exec_seq.
    rewrite (exec_settle_pending _ _ Caller) by (run_m; exact Hp). reflexivity.
Qed.

Lemma connect_is_idempotent_witness :
  sockets_made (trace (exec connect connected_world)) = sockets_made (trace connected_world) /\
  sockets_made (trace (exec connect connecting_world)) = sockets_made (trace connecting_world) /\
  trace (exec (fire 2) (exec (step (SocketOpen 0)) polling_world))
  = (trace (exec (step (SocketOpen 0)) polling_world) ++ [Settle 1 (Resolved JUndefined)])%list /\
  trace (exec (fire 3) polling_world)
  = (trace polling_world ++ [Settle 1 (Rejected (Error "Connection timeout"))])%list.
Proof.
  split; [|split; [|split]].
  - apply (proj1 (proj2 (proj2 (connect_is_idempotent connected_world)))).
    left. vm_compute. reflexivity.
  - apply (proj1 (proj2 (proj2 (connect_is_idempotent connecting_world)))).
    right. vm_compute. reflexivity.
  - refine (proj1 (proj1 (proj2 (proj2 (proj2
      (connect_is_idempotent (exec (step (SocketOpen 0)) polling_world)))))
      2 {| timer_id := 2; timer_delay := 100; timer_task := CheckInterval 1 |} 1 _ eq_refl _ _));
      vm_compute; reflexivity.
  - refine (proj2 (proj2 (proj2 (proj2 (connect_is_idempotent polling_world))))
      3 {| timer_id := 3; timer_delay := 10000; timer_task := CheckTimeout 1 2 |} 1 2 _ eq_refl _);
      vm_compute; reflexivity.
Defined.

(** ** C1: [disconnect] and the requests in flight *)

Lemma no_entries_slot {V} (m : JsMap.t V) i x :
  JsMap.entries m = [] -> nth_error m i <> Some (Some x).
Proof.
  unfold JsMap.entries. revert i.
  induction m as [|[kv|] m IH]; intros [|i]; cbn; try discriminate; auto.
Qed.

Lemma unsubscribe_each_nothing n : forall i w,
  JsMap.entries (subscriptions (client w)) = [] ->
  unsubscribe_each n i w = ([], w).
Proof.
  induction n as [|n IH]; intros i w H; cbn [unsubscribe_each]; [reflexivity|].
  unfold get_client. cbv beta iota zeta delta [bind ret get_world].
  pose proof (no_entries_slot (subscriptions (client w)) i) as Hs.
  destruct (nth_error (subscriptions (client w)) i) as [[[k v]|]|]; auto.
  exfalso. eapply Hs; eauto.
Qed.

(** With nothing subscribed, [disconnect] closes the socket and resolves,
    and that is all that is settled, whatever is in flight: the pending
    requests are cleared, not rejected, and their timers stay armed. *)
Lemma disconnect_settles_only_itself w :
  JsMap.entries (subscriptions (client w)) = [] ->
  let w' := exec (step CallDisconnect) w in
  settlements (trace w') = (settlements (trace w) ++ [(length (promises w), Resolved JUndefined)])%list /\
  JsMap.entries (pendingRequests (client w')) = [] /\
  timers w'
  = match reconnectTimeoutId (client w) with
    | Some t => List.filter (fun x => negb (Nat.eqb (timer_id x) t)) (timers w)
    | None => timers w
    end.
Proof.
  intros H w'. unfold w', step, disconnect, allSettled_check, disconnect_finish.
  run_m.
  destruct (reconnectTimeoutId (client w)) as [t|]; run_m;
    rewrite unsubscribe_each_nothing by exact H;
    cbn [forEach]; run_m; cbn [List.find fst]; rewrite Nat.eqb_refl; cbn [forallb]; run_m;
    (destruct (ws (client w)) as [s|]; run_m;
     [ destruct (readyState <$> nth_error (sockets w) s) as [r|]; run_m;
       [ destruct (Nat.eqb r CONNECTING || Nat.eqb r OPEN); run_m;
         [ destruct (nth_error (sockets w) s); run_m | ] | ] | ]);
    rewrite nth_error_new; run_m; rewrite entries_clear;
    unfold settlements; rewrite !omap_app; cbn; rewrite ?app_nil_r; auto.
Qed.

(** C1 fails on the code. A [subscribe] is in flight (promise 1) when
    [disconnect()] is called (promise 2). [disconnect] resolves, and the
    close event of the socket follows; nobody has told the caller of
    [subscribe] anything by then. Ten seconds later the timer of the
    request fires and rejects it with the timeout error, not with the
    error of a closed connection. *)
Theorem disconnect_leaves_pending_request_to_its_timeout :
  let closing := [CallDisconnect; SocketClose 0 (Some 1000%Z) "Client disconnect"] in
  JsMap.keys (pendingRequests (client requesting_world)) = [JStr "1700000000000-1-k3x9"] /\
  settlements (trace requesting_world) = [(0, Resolved JUndefined)] /\
  settlements (trace (run closing requesting_world))
  = [(0, Resolved JUndefined); (2, Resolved JUndefined)] /\
  JsMap.keys (pendingRequests (client (run closing requesting_world))) = [] /\
  settlements (trace (run (closing ++ [TimerFired 2]) requesting_world))
  = [(0, Resolved JUndefined); (2, Resolved JUndefined);
     (1, Rejected (Error "Subscribe request timeout"))].
Proof. vm_compute. auto 10. Qed.

(** ** C3: the reconnect budget *)

(** C3. The client made with [maxReconnectAttempts = 2] loses its
    connection and fails to connect twice, in whichever way: it has
    emitted the reconnect events 1 and 2 and made two more sockets; no
    reconnect timer is armed, [getState()] is "closed", and whatever
    happens next short of a socket opening, no reconnect event is emitted
    and no reconnect timer armed again. *)
Theorem reconnect_stops_after_max_attempts (f1 f2 : Failure) :
  let w := two_failed_attempts f1 f2 in
  reconnect_events (trace w) = [1; 2] /\
  sockets_made (trace w) = [0; 1; 2] /\
  no_reconnect_timer w /\
  getState w = "closed" /\
  forall later,
    forallb (fun e => negb (is_open_event e)) later = true ->
    reconnect_events (trace (run later w)) = [1; 2] /\
    no_reconnect_timer (run later w).
Proof.
  intros w.
  assert (H : reconnect_events (trace w) = [1; 2] /\ sockets_made (trace w) = [0; 1; 2] /\
              no_reconnect_timer w /\ getState w = "closed" /\ exhausted w).
  { unfold w. destruct f1, f2; vm_compute; auto 10. }
  destruct H as (H1 & H2 & H3 & H4 & H5). repeat split; auto.
  - destruct (quiet_run later H w H5 H3) as (_ & _ & E). congruence.
  - destruct (quiet_run later H w H5 H3) as (_ & E & _). exact E.
Qed.

Lemma reconnect_stops_after_max_attempts_witness :
  reconnect_events (trace (run [SocketClose 2 None ""; CallConnect; SocketError 3 CLOSED;
                                SocketClose 3 None ""; TimerFired 4]
                             (two_failed_attempts ErrorThenClose TimedOut))) = [1; 2] /\
  no_reconnect_timer (run [SocketClose 2 None ""; CallConnect; SocketError 3 CLOSED;
                           SocketClose 3 None ""; TimerFired 4]
                        (two_failed_attempts ErrorThenClose TimedOut)).
Proof.
  apply (proj2 (proj2 (proj2 (proj2
    (reconnect_stops_after_max_attempts ErrorThenClose TimedOut))))).
  reflexivity.
Defined.

(** ** C2: the replay after a reconnect *)

Lemma entries_app {V} (m m' : JsMap.t V) :
  JsMap.entries (m ++ m') = (JsMap.entries m ++ JsMap.entries m')%list.
Proof. apply omap_app. Qed.

Lemma has_app_false {V} k (m m' : JsMap.t V) :
  JsMap.has k (m ++ m') = false <-> JsMap.has k m = false /\ JsMap.has k m' = false.
Proof.
  unfold JsMap.has. induction m as [|[[k0 v0]|] m IH]; cbn.
  - tauto.
  - destruct (sameValueZero k0 k); [|exact IH]. cbn.
    split; [intros; discriminate | intros [? _]; discriminate].
  - exact IH.
Qed.

Lemma wf_app {V} (m m' : JsMap.t V) : map_wf (m ++ m') -> map_wf m /\ map_wf m'.
Proof.
  induction m as [|[[k0 v0]|] m IH]; cbn; auto.
  intros [Hk Hm]. apply has_app_false in Hk as [? ?]. destruct (IH Hm). auto.
Qed.

(** In a map, [delete] empties the slot that holds the key. *)
Lemma delete_slot {V} (pre post : JsMap.t V) k v :
  map_wf (pre ++ Some (k, v) :: post) ->
  JsMap.delete k (pre ++ Some (k, v) :: post) = (pre ++ None :: post)%list.
Proof.
  induction pre as [|[[k0 v0]|] pre IH]; cbn.
  - intros _. rewrite sameValueZero_refl. reflexivity.
  - intros [Hk Hm]. apply has_app_false in Hk as [_ Hk]. unfold JsMap.has in Hk. cbn in Hk.
    rewrite sameValueZero_sym in Hk.
    destruct (sameValueZero k0 k); [discriminate|]. cbn. rewrite IH by exact Hm. reflexivity.
  - intros Hm. cbn. rewrite IH by exact Hm. reflexivity.
Qed.

Lemma has_false_keys {V} k (m : JsMap.t V) :
  Forall (fun k' => sameValueZero k' k = false) (JsMap.keys m) -> JsMap.has k m = false.
Proof.
  unfold JsMap.keys, JsMap.entries, JsMap.has.
  induction m as [|[[k0 v0]|] m IH]; cbn; auto.
  intros H. apply Forall_cons in H as [H1 H2]. cbn in H1. rewrite H1. auto.
Qed.

Lemma get_entry {V} k v (m : JsMap.t V) :
  map_wf m -> In (k, v) (JsMap.entries m) -> JsMap.get k m = Some v.
Proof.
  unfold JsMap.entries. induction m as [|[[k0 v0]|] m IH]; cbn; try tauto.
  intros [Hk Hm] [E|Hin].
  - inversion E; subst. rewrite sameValueZero_refl. reflexivity.
  - destruct (sameValueZero k0 k) eqn:E; [|auto].
    specialize (IH Hm Hin). rewrite (has_change _ _ _ E) in Hk.
    apply has_get in Hk. congruence.
Qed.

Lemma no_entries_nones {V} (m : JsMap.t V) :
  JsMap.entries m = [] -> Forall (fun slot => slot = None) m.
Proof.
  unfold JsMap.entries. induction m as [|[kv|] m IH]; cbn; try discriminate; auto.
Qed.

(** A slot list with a live entry splits at its first one. *)
Lemma first_entry {V} (m : JsMap.t V) k v es :
  JsMap.entries m = (k, v) :: es ->
  exists nones post,
    m = (nones ++ Some (k, v) :: post)%list /\ JsMap.entries nones = [] /\ JsMap.entries post = es.
Proof.
  unfold JsMap.entries. induction m as [|[kv|] m IH]; cbn; try discriminate.
  - intros E. inversion E; subst. exists [], m. auto.
  - intros E. destruct (IH E) as (nones & post & -> & H1 & H2).
    exists (None :: nones), post. auto.
Qed.





Lemma nth_error_insert {A} (l : list A) i x y :
  nth_error l i = Some x -> nth_error (<[i := y]> l) i = Some y.
Proof.
  revert i. induction l as [|a l IH]; intros [|i]; cbn; try discriminate; auto.
Qed.

Lemma steady_consistent w w' : steady w w' -> consistent w -> consistent w'.
Proof. intros (_ & _ & H). exact H. Qed.

(** ** C2: the subscriptions after a reconnect *)

(** C2 fails on the code. A client has one subscription, to new heads
    under the id 0xabc; the connection drops (1006), the reconnect timer
    fires and the new socket opens: the replay loop sends the
    [eth_subscribe] of the subscription, and the server answers it with
    0xdef. The registry then holds the subscription under 0xdef, but
    the loop, which walks the live [Map] that [subscribe] appends to,
    has gone on to the entry 0xdef and sent a third [eth_subscribe] for
    the same kind and parameters. When the server answers that with a
    further id, 0xghi, the entry 0xdef is replaced, a push under 0xdef
    reaches no callback, and a fourth request is out; when it answers
    with the id it gave before, 0xdef, the loop deletes the entry it has
    just stored and the client has no subscription left. When the first
    attempt to reconnect fails with an error and a close event, two
    reconnect timers are armed; the second fires on the connection the
    first has opened, two replay loops run, and the registry holds the
    subscription twice. *)
Theorem replay_resubscribes_what_it_registered :
  let second := JStr "1700000000000-2-k3x9" in
  let third := JStr "1700000000000-3-k3x9" in
  let fourth := JStr "1700000000000-4-k3x9" in
  let fifth := JStr "1700000000000-5-k3x9" in
  let wanted := (newHeads, @nil JValue, returning 1) in
  let dropped := run [SocketClose 0 (Some 1006%Z) ""] streaming_world in
  let answered :=
    run [TimerFired 3; SocketOpen 1;
         SocketMessage 1 (Some (response 20 second (JStr "0xdef")))] dropped in
  let renumbered := run [SocketMessage 1 (Some (response 21 third (JStr "0xghi")))] answered in
  let repeated := run [SocketMessage 1 (Some (response 21 third (JStr "0xdef")))] answered in
  let twice :=
    run [TimerFired 3; SocketError 1 CLOSED; SocketClose 1 (Some 1006%Z) "";
         TimerFired 5; SocketOpen 2; TimerFired 6;
         SocketMessage 2 (Some (response 20 second (JStr "0xdef")));
         SocketMessage 2 (Some (response 21 third (JStr "0xghi")))] dropped in
  (JsMap.keys (subscriptions (client streaming_world)) = [JStr "0xabc"] /\
   List.map subscribed_to (getSubscriptions streaming_world) = [wanted] /\
   JsMap.keys (pendingRequests (client streaming_world)) = []) /\
  (getState answered = "open" /\
   JsMap.keys (subscriptions (client answered)) = [JStr "0xdef"] /\
   sent_ids (trace answered) = [JStr "1700000000000-1-k3x9"; second; third] /\
   List.map request (JsMap.values (pendingRequests (client answered)))
   = [SubscribeRequest newHeads [] (returning 1)]) /\
  (JsMap.keys (subscriptions (client renumbered)) = [JStr "0xghi"] /\
   JsMap.keys (pendingRequests (client renumbered)) = [fourth] /\
   callback_calls
     (trace (run [SocketMessage 1 (Some (notification 30 (JStr "0xdef") (JStr "head")))]
               renumbered)) = []) /\
  (getSubscriptions repeated = [] /\
   JsMap.keys (pendingRequests (client repeated)) = []) /\
  (reconnect_events (trace twice) = [1; 2; 3] /\
   sockets_made (trace twice) = [0; 1; 2] /\
   JsMap.keys (subscriptions (client twice)) = [JStr "0xdef"; JStr "0xghi"] /\
   List.map subscribed_to (getSubscriptions twice) = [wanted; wanted] /\
   JsMap.keys (pendingRequests (client twice)) = [fourth; fifth]).
Proof. vm_compute. repeat split; reflexivity. Qed.

(** * Further properties of the client *)

(** ** [subscribe] on an open connection *)

Lemma settlements_app t t' : settlements (t ++ t') = settlements t ++ settlements t'.
Proof. apply omap_app. Qed.

Lemma settlements_logged w entry : settlements (logged w entry) = [].
Proof. unfold logged. destruct (o_debug _); reflexivity. Qed.

(** [subscribe] on an open socket sends one [eth_subscribe] frame with
    the kind followed by the parameters, under a new request id, and
    leaves the registry alone. When the response to that request comes:
    with a truthy [error] whose message is a primitive value (or is not
    there), the promise is rejected with an [XRpcError] built from it
    (code [-32603] and message "Subscription failed" where the error has
    none) and the registry stays; with no error and a truthy [result]
    that is a primitive value, the subscription is stored under that id,
    replacing an entry the id had, and the promise resolves to the id.
    (An object or array in these places is converted to a string by the
    constructor of the error and by the template literal of the log
    line, which can throw; that is left out here.) Whatever the response,
    the timer of the request is cleared and the request is no longer
    pending. *)
Theorem subscribe_contract (w : World) (s : nat) (type : SubscriptionType)
    (params : list JValue) (callback : JsFunction) :
  consistent w ->
  current_readyState w = Some OPEN ->
  ws (client w) = Some s ->
  let p := length (promises w) in
  let rid := request_id w (S (requestIdCounter (client w))) in
  let w1 := exec (subscribe type params callback) w in
  trace w1 = trace w ++
             logged w (LogSending "eth_subscribe" (JStr (type_name type) :: params) rid) ++
             [WsSend s "eth_subscribe" (JStr (type_name type) :: params) rid] /\
  subscriptions (client w1) = subscriptions (client w) /\
  forall message,
    nullish message = false ->
    strict_eq (prop message "method") (JStr "eth_subscription") = false ->
    prop message "id" = rid ->
    let w2 := exec (_handleMessage (Some message)) w1 in
    let error := prop message "error" in
    let id := prop message "result" in
    (truthy error = true ->
     primitive (js_or (prop error "message") (JStr "Subscription failed")) = true ->
       subscriptions (client w2) = subscriptions (client w) /\
       settlements (trace w2)
       = settlements (trace w1) ++
         [(p, Rejected (XRpcError (js_or (prop error "code") (JNum (-32603)))
                                  (js_or (prop error "message") (JStr "Subscription failed"))
                                  (prop error "data")))]) /\
    (truthy error = false -> truthy id = true -> primitive id = true ->
       subscriptions (client w2)
       = JsMap.set id {| sub_id := id; sub_type := type; sub_params := params;
                         sub_callback := callback |} (subscriptions (client w)) /\
       settlements (trace w2) = settlements (trace w1) ++ [(p, Resolved id)]) /\
    armed (nextTimer w) w2 = None /\
    JsMap.has rid (pendingRequests (client w2)) = false.
Proof.
  intros (_ & Hwf & _ & _) Hr Hs p rid w1.
  assert (E : w1 = requested s "eth_subscribe" (JStr (type_name type) :: params)
                     (SubscribeRequest type params callback) "Subscribe request timeout" w).
  { unfold w1, exec. rewrite (subscribe_open _ s) by assumption. reflexivity. }
  split; [rewrite E; unfold requested; run_m; reflexivity|].
  split; [rewrite E; reflexivity|].
  intros message Hn Hm Hi w2 error id.
  set (pending := {| request := SubscribeRequest type params callback; promise := p;
                     timeoutId := nextTimer w |}).
  assert (Hp : nth_error (promises w1) p = Some (Pending Caller)).
  { rewrite E. unfold requested. run_m. apply nth_error_new. }
  assert (E2 : w2 = exec (pending_resolve pending message)
                      (exec (modify (fun c => with_pendingRequests
                               (JsMap.delete rid (pendingRequests c)) c))
                         (says (logged w1 (LogReceived message)) w1))).
  { unfold w2. rewrite (handle_response w1 message pending);
      [ rewrite Hi; reflexivity | exact Hn | exact Hm | rewrite Hi; reflexivity
      | rewrite Hi, E; unfold requested, says; proj_simpl; apply get_set_same ]. }
  assert (Hhas : JsMap.has rid (JsMap.delete rid (pendingRequests (client w1))) = false).
  { apply has_delete_same. rewrite E. unfold requested. run_m. apply wf_set, Hwf. }
  unfold pending_resolve in E2. rewrite exec_seq in E2. cbn [request timeoutId promise pending] in E2.
  fold error id in E2.
  destruct (truthy error) eqn:He.
  - rewrite (exec_settle_request_pending _ _ Caller) in E2 by (run_m; exact Hp).
    unfold resume_request in E2. change (exec (ret tt) ?x) with x in E2.
    split; [|split; [intros; discriminate|split]].
    + intros _ _. rewrite E2. split.
      * run_m. rewrite E. reflexivity.
      * run_m. rewrite <- app_assoc, !settlements_app, settlements_logged. reflexivity.
    + rewrite E2. pose proof (armed_cleared (nextTimer w) w1) as H. unfold armed in *.
      revert H. run_m. auto.
    + rewrite E2. run_m. exact Hhas.
  - split; [intros; discriminate|].
    destruct (truthy id) eqn:Hid; cbn [negb] in E2.
    + rewrite !exec_seq, exec_log in E2.
      rewrite (exec_settle_request_pending _ _ Caller) in E2 by (run_m; exact Hp).
      unfold resume_request in E2. change (exec (ret tt) ?x) with x in E2.
      split; [|split].
      * intros _ _ _. rewrite E2. split.
        -- run_m. rewrite E. reflexivity.
        -- run_m. rewrite <- !app_assoc, !settlements_app, !settlements_logged. reflexivity.
      * rewrite E2. pose proof (armed_cleared (nextTimer w) w1) as H. unfold armed in *.
        revert H. run_m. auto.
      * rewrite E2. run_m. exact Hhas.
    + rewrite (exec_settle_request_pending _ _ Caller) in E2 by (run_m; exact Hp).
      unfold resume_request in E2. change (exec (ret tt) ?x) with x in E2.
      split; [intros; discriminate|split].
      * rewrite E2. pose proof (armed_cleared (nextTimer w) w1) as H. unfold armed in *.
        revert H. run_m. auto.
      * rewrite E2. run_m. exact Hhas.
Qed.

Lemma subscribe_contract_witness :
  let w1 := exec (subscribe newHeads [] (returning 1)) connected_world in
  let w2 := exec (_handleMessage (Some (response 10 (JStr "1700000000000-1-k3x9") (JStr "0xabc")))) w1 in
  subscriptions (client w2)
  = [Some (JStr "0xabc", {| sub_id := JStr "0xabc"; sub_type := newHeads; sub_params := [];
                            sub_callback := returning 1 |})] /\
  settlements (trace w2) = [(0, Resolved JUndefined); (1, Resolved (JStr "0xabc"))] /\
  armed 2 w2 = None.
Proof.
  assert (C : consistent connected_world).
  { vm_compute. repeat split; repeat constructor. }
  destruct (subscribe_contract connected_world 0 newHeads [] (returning 1) C eq_refl eq_refl)
    as (_ & _ & H).
  destruct (H (response 10 (JStr "1700000000000-1-k3x9") (JStr "0xabc")) eq_refl eq_refl eq_refl)
    as (_ & H2 & H3 & _).
  destruct (H2 eq_refl eq_refl eq_refl) as [H4 H5].
  cbv zeta. split; [|split].
  - rewrite H4. vm_compute. reflexivity.
  - rewrite H5. vm_compute. reflexivity.
  - exact H3.
Defined.

(** ** The close handler *)

Lemma without_nil ts : without [] ts = ts.
Proof. unfold without. induction ts as [|t ts IH]; cbn; [reflexivity | f_equal; exact IH]. Qed.

Lemma without_app a b ts : without b (without a ts) = without (a ++ b) ts.
Proof.
  unfold without. induction ts as [|t ts IH]; cbn; [reflexivity|].
  rewrite existsb_app. destruct (existsb (Nat.eqb (timer_id t)) a); cbn.
  - exact IH.
  - destruct (existsb (Nat.eqb (timer_id t)) b); cbn; [exact IH | f_equal; exact IH].
Qed.

Lemma clear_without id ts :
  List.filter (fun t => negb (Nat.eqb (timer_id t) id)) ts = without [id] ts.
Proof.
  unfold without. apply List.filter_ext. intros t. cbn. rewrite orb_false_r. reflexivity.
Qed.

Lemma clear_twice id ts : without [id] (without [id] ts) = without [id] ts.
Proof.
  rewrite without_app. unfold without. apply List.filter_ext. intros t. cbn.
  destruct (Nat.eqb (timer_id t) id); reflexivity.
Qed.

Lemma clear_nones {V} (m : JsMap.t V) : JsMap.entries m = [] -> JsMap.clear m = m.
Proof.
  unfold JsMap.entries, JsMap.clear. induction m as [|[kv|] m IH]; cbn; try discriminate; auto.
  intros H. f_equal. exact (IH H).
Qed.

(** The loop of the close handler from slot [length pre] on: it returns
    the [reject] of every entry it finds, clears the timer of each and
    leaves every slot empty. *)
Lemma reject_pending_run post : forall pre w,
  pendingRequests (client w) = pre ++ post ->
  map_wf (pre ++ post) ->
  reject_pending (length post) (length pre) w
  = (List.map (fun r => (promise r, Rejected (Error "WebSocket connection closed")))
       (JsMap.values post),
     with_client (with_pendingRequests (pre ++ JsMap.clear post) (client w))
       (with_timers (without (List.map timeoutId (JsMap.values post)) (timers w))
          (nextTimer w) w)).
Proof.
  induction post as [|slot post IH]; intros pre w Hp Hwf.
  - cbn. rewrite without_nil, <- Hp. destruct w as [c]; destruct c; reflexivity.
  - cbn [length reject_pending].
    unfold get_client. cbv beta iota zeta delta [bind ret get_world].
    rewrite Hp, nth_error_app2, Nat.sub_diag by lia. cbn [nth_error].
    assert (L : S (length pre) = length (pre ++ [None (A := JValue * PendingRequest)])).
    { rewrite length_app. cbn. lia. }
    destruct slot as [[id pending]|].
    + run_m. rewrite Hp, (delete_slot _ _ _ _ Hwf).
      rewrite !clear_without, clear_twice. rewrite L.
      rewrite IH; [ | proj_simpl; rewrite <- app_assoc; reflexivity | ].
      * run_m. unfold JsMap.values. cbn [JsMap.entries omap List.map snd].
        change (omap (fun s => s) post) with (JsMap.entries post).
        rewrite without_app. cbn [app JsMap.clear List.map]. rewrite <- app_assoc. reflexivity.
      * rewrite <- app_assoc. cbn [app].
        rewrite <- (delete_slot pre post id pending Hwf). apply wf_delete, Hwf.
    + rewrite L. rewrite IH; [ | rewrite Hp, <- app_assoc; reflexivity | rewrite <- app_assoc; exact Hwf ].
      cbn [JsMap.clear List.map]. rewrite <- app_assoc. reflexivity.
Qed.

Lemma values_clear {V} (m : JsMap.t V) : JsMap.entries (JsMap.clear m) = [].
Proof. apply entries_clear. Qed.

(** The close handler ([handleClose] in [connect]) emits [close] with the
    code, or 1000 where the code is no number. It rejects every pending
    request with "WebSocket connection closed", in the order of the
    requests, clears the timer of each and the connection timeout of its
    socket, and leaves no pending request; the registry stays. It
    schedules a reconnect, once, when the close was not manual,
    [autoReconnect] is on and the attempts are below the maximum: the
    attempt counter goes up by one, [reconnect] is emitted with it, and a
    timer of [reconnectDelay] is armed. Otherwise no timer is armed and
    nothing but the log line of the maximum is added. *)
Theorem close_rejects_every_pending_request (w : World) (h : Handlers)
    (code : option Z) (reason : string) :
  map_wf (pendingRequests (client w)) ->
  let pending := JsMap.values (pendingRequests (client w)) in
  let closeCode := default 1000%Z code in
  let wanted := negb (isManualClose (client w)) && o_autoReconnect (options (client w)) in
  let reconnects :=
    wanted && negb (reached (reconnectAttempts (client w))
                      (o_maxReconnectAttempts (options (client w)))) in
  let attempt := S (reconnectAttempts (client w)) in
  let delay := o_reconnectDelay (options (client w)) in
  let w' := exec (handleClose h code reason) w in
  fst (handleClose h code reason w)
  = List.map (fun r => (promise r, Rejected (Error "WebSocket connection closed"))) pending /\
  JsMap.entries (pendingRequests (client w')) = [] /\
  subscriptions (client w') = subscriptions (client w) /\
  timers w'
  = without (connectionTimeout h :: List.map timeoutId pending) (timers w) ++
    (if reconnects
     then [{| timer_id := nextTimer w; timer_delay := delay; timer_task := ReconnectTimer |}]
     else []) /\
  trace w'
  = trace w ++ logged w (LogClosed closeCode reason) ++ emitted w (OnClose closeCode reason) ++
    (if reconnects then logged w (LogScheduling attempt delay) ++ emitted w (OnReconnect attempt)
     else if wanted then logged w LogMaxReconnect else []) /\
  reconnectAttempts (client w') = (if reconnects then attempt else reconnectAttempts (client w)) /\
  reconnectTimeoutId (client w')
  = (if reconnects then Some (nextTimer w) else reconnectTimeoutId (client w)).
Proof.
  intros Hwf pending closeCode wanted reconnects attempt delay w'.
  set (w1 := says (emitted w (OnClose closeCode reason))
               (says (logged w (LogClosed closeCode reason))
                  (exec (clearTimeout (connectionTimeout h)) w))).
  assert (E1 : exec (_emit (OnClose closeCode reason))
                 (exec (_log (LogClosed closeCode reason))
                    (exec (clearTimeout (connectionTimeout h)) w)) = w1).
  { rewrite exec_log, exec_emit. reflexivity. }
  pose proof (reject_pending_run (pendingRequests (client w)) [] w1 eq_refl Hwf) as Hloop.
  cbn [length app] in Hloop. fold pending in Hloop.
  set (w2 := with_client _ _) in Hloop.
  assert (Hfst : fst (handleClose h code reason w)
                 = List.map (fun r => (promise r, Rejected (Error "WebSocket connection closed")))
                     pending).
  { unfold handleClose. fold closeCode. rewrite !result_bind, E1.
    change (exec get_client ?x) with x. cbn [ret fst].
    change (fst (get_client ?x)) with (client x).
    change (pendingRequests (client w1)) with (pendingRequests (client w)).
    rewrite Hloop. reflexivity. }
  assert (Hexec : w' = exec (when wanted _scheduleReconnect) w2).
  { unfold w', handleClose. fold closeCode. rewrite !exec_seq, E1.
    rewrite exec_get_client.
    change (pendingRequests (client w1)) with (pendingRequests (client w)).
    rewrite exec_bind. unfold exec at 2. rewrite Hloop. cbn [snd].
    rewrite exec_get_client, exec_seq. change (exec (ret ?a) ?x) with x. reflexivity. }
  split; [exact Hfst|]. rewrite Hexec.
  unfold wanted, reconnects. unfold when.
  destruct (negb (isManualClose (client w)) && o_autoReconnect (options (client w))); cbn [andb].
  - unfold _scheduleReconnect. rewrite exec_get_client.
    change (reconnectAttempts (client w2)) with (reconnectAttempts (client w)).
    change (options (client w2)) with (options (client w)).
    destruct (reached _ _); cbn [negb].
    + rewrite exec_log. unfold w2, w1. run_m.
      rewrite clear_without, without_app. cbn [app]. rewrite app_nil_r, values_clear.
      unfold logged, emitted; proj_simpl. rewrite <- !app_assoc. auto 10.
    + rewrite !exec_seq, exec_log, exec_emit. unfold w2, w1. run_m.
      rewrite clear_without, without_app. cbn [app]. rewrite values_clear.
      unfold logged, emitted; proj_simpl. rewrite <- !app_assoc. fold attempt delay. auto 10.
  - unfold w2, w1. run_m.
    rewrite clear_without, without_app. cbn [app]. rewrite !app_nil_r, values_clear.
    unfold logged, emitted; proj_simpl. rewrite <- !app_assoc. auto 10.
Qed.

Lemma close_rejects_every_pending_request_witness :
  fst (handleClose {| connectPromise := 0; connectionTimeout := 1 |} None "" requesting_world)
  = [(1, Rejected (Error "WebSocket connection closed"))] /\
  timers (exec (handleClose {| connectPromise := 0; connectionTimeout := 1 |} None "") requesting_world)
  = [{| timer_id := 3; timer_delay := 10; timer_task := ReconnectTimer |}] /\
  trace (exec (handleClose {| connectPromise := 0; connectionTimeout := 1 |} None "") requesting_world)
  = trace requesting_world ++ [Emit (OnClose 1000 ""); Emit (OnReconnect 1)].
Proof.
  assert (Hwf : map_wf (pendingRequests (client requesting_world))).
  { vm_compute. auto. }
  destruct (close_rejects_every_pending_request requesting_world
              {| connectPromise := 0; connectionTimeout := 1 |} None "" Hwf)
    as (H1 & _ & _ & H2 & H3 & _).
  split; [|split].
  - rewrite H1. vm_compute. reflexivity.
  - rewrite H2. vm_compute. reflexivity.
  - rewrite H3. vm_compute. reflexivity.
Defined.

(** ** Messages that fail *)

(** Three messages that end in the [catch] of [_handleMessage]: data
    [JSON.parse] rejects, the JSON text [null] (reading [message.method]
    throws), and a push whose callback throws an error. In each of them
    the error is logged and emitted as an [error] event, and that is all
    the handler does: in the third the callback was called, and its
    exception goes to the [error] listeners instead of the caller. (What
    [pending.resolve] throws while it handles a response ends in the same
    [catch], after it has changed the client; that is not among these.) *)
Theorem failed_messages_become_error_events (w : World) :
  exec (_handleMessage None) w
  = says (logged w (LogParseError SyntaxError) ++ emitted w (OnError SyntaxError)) w /\
  (forall message,
     nullish message = true ->
     exec (_handleMessage (Some message)) w
     = says (logged w (LogReceived message) ++ logged w (LogParseError TypeError) ++
             emitted w (OnError TypeError)) w) /\
  (forall message subscription error,
     nullish message = false ->
     strict_eq (prop message "method") (JStr "eth_subscription") = true ->
     let id := opt_prop (prop message "params") "subscription" in
     truthy id = true ->
     JsMap.get id (subscriptions (client w)) = Some subscription ->
     fn_throws (sub_callback subscription) = Some error ->
     exec (_handleMessage (Some message)) w
     = says (logged w (LogReceived message) ++
             [CallbackCall (sub_callback subscription)
                (opt_prop (prop message "params") "result")] ++
             logged w (LogParseError error) ++ emitted w (OnError error)) w).
Proof.
  split; [|split].
  - unfold _handleMessage. apply exec_message_failed.
  - intros message Hn. unfold _handleMessage.
    rewrite exec_seq, exec_log, Hn, exec_message_failed, says_says. reflexivity.
  - intros message subscription error Hn Hm id Hid Hg He. unfold _handleMessage.
    rewrite exec_seq, exec_log, Hn, Hm, exec_get_client.
    change (client (says ?t w)) with (client w). fold id. rewrite Hid, Hg.
    rewrite exec_seq, exec_tell, says_says, He, exec_message_failed, says_says.
    rewrite <- !app_assoc. reflexivity.
Qed.

(** ** [on] and [off] *)

Lemma remove_first_absent listener ls :
  Forall (fun f => same_function f listener = false) ls -> remove_first listener ls = ls.
Proof.
  induction 1 as [|f ls Hf _ IH]; cbn; [reflexivity|]. rewrite Hf, IH. reflexivity.
Qed.

Lemma remove_first_found listener a f b :
  Forall (fun g => same_function g listener = false) a ->
  same_function f listener = true ->
  remove_first listener (a ++ f :: b) = a ++ b.
Proof.
  intros Ha Hf. induction Ha as [|g a Hg _ IH]; cbn.
  - rewrite Hf. reflexivity.
  - rewrite Hg, IH. reflexivity.
Qed.

(** [off] takes out one registration of the listener, the earliest, and
    keeps the others in their order; it touches no other event and
    nothing else of the client. A listener that is not registered for the
    event, or an event nobody listens to, leaves everything as it was. So
    [off] after [on] undoes it for a listener that was not registered
    before; for one that was, the earlier registration goes and the new
    one stays at the end. *)
Theorem off_removes_the_earliest_registration (w : World) (event : EventKind)
    (listener : JsFunction) :
  let w' := exec (off event listener) w in
  (forall k, k <> event -> eventListeners (client w') k = eventListeners (client w) k) /\
  (eventListeners (client w) event = None -> w' = w) /\
  (forall ls,
     eventListeners (client w) event = Some ls ->
     Forall (fun f => same_function f listener = false) ls ->
     eventListeners (client w') event = Some ls) /\
  (forall a f b,
     eventListeners (client w) event = Some (a ++ f :: b) ->
     Forall (fun g => same_function g listener = false) a ->
     same_function f listener = true ->
     eventListeners (client w') event = Some (a ++ b)) /\
  (forall ls,
     default [] (eventListeners (client w) event) = ls ->
     Forall (fun f => same_function f listener = false) ls ->
     eventListeners (client (exec (off event listener) (exec (on event listener) w))) event
     = Some ls) /\
  trace w' = trace w /\
  subscriptions (client w') = subscriptions (client w) /\
  pendingRequests (client w') = pendingRequests (client w).
Proof.
  intros w'. unfold w', off, on. run_m.
  split; [|split; [|split; [|split; [|split]]]].
  - intros k Hk. destruct (eventListeners (client w) event); run_m; [|reflexivity].
    destruct (decide (k = event)); [contradiction | reflexivity].
  - intros H. rewrite H. destruct w as [c]; destruct c; reflexivity.
  - intros ls H Hls. rewrite H. run_m. destruct (decide (event = event)); [|contradiction].
    rewrite remove_first_absent by exact Hls. reflexivity.
  - intros a f b H Ha Hf. rewrite H. run_m. destruct (decide (event = event)); [|contradiction].
    rewrite remove_first_found by assumption. reflexivity.
  - intros ls H Hls. destruct (decide (event = event)); [|contradiction]. run_m.
    destruct (decide (event = event)); [|contradiction].
    rewrite H. f_equal.
    rewrite <- (app_nil_r ls) at 2. apply remove_first_found; [exact Hls|].
    unfold same_function. apply Nat.eqb_refl.
  - destruct (eventListeners (client w) event); auto.
Qed.

(** ** A connection attempt *)

Lemma insert_new_socket (l : list Socket) (x y : Socket) :
  <[length l := y]> (l ++ [x]) = l ++ [y].
Proof. apply insert_new. Qed.

(** [connect] in its last branch, as one step: the constructor gives a
    socket, or it throws. *)
Lemma connect_fresh w :
  current_readyState w <> Some OPEN ->
  current_readyState w <> Some CONNECTING ->
  webSocketThrows w (_buildWebSocketUrl (client w)) = None ->
  connect w
  = (length (promises w),
     says (logged w (LogConnecting (_buildWebSocketUrl (client w))) ++
           [NewWebSocket (_buildWebSocketUrl (client w)) (length (sockets w))])
       (with_client (with_ws (Some (length (sockets w))) (client w))
          (with_sockets
             (sockets w ++ [{| readyState := CONNECTING;
                               handlers := Some {| connectPromise := length (promises w);
                                                   connectionTimeout := nextTimer w |} |}])
             (with_timers
                (timers w ++ [{| timer_id := nextTimer w;
                                 timer_delay := o_timeout (options (client w));
                                 timer_task := ConnectionTimeout (length (promises w)) |}])
                (S (nextTimer w))
                (with_promises (promises w ++ [Pending Caller]) w))))).
Proof.
  intros H1 H2 Hi. unfold connect, _log, logged, new_WebSocket. run_m.
  unfold current_readyState, socket_state in H1, H2.
  destruct (match ws (client w) with Some s0 => readyState <$> nth_error (sockets w) s0 | None => None end)
    as [[|[|r]]|]; try (exfalso; apply H1; reflexivity); try (exfalso; apply H2; reflexivity);
    destruct (o_debug _); run_m; rewrite Hi; run_m; rewrite nth_error_new; run_m;
    rewrite insert_new_socket; rewrite <- ?app_assoc; cbn [app]; reflexivity.
Qed.

Lemma connect_refused w error :
  current_readyState w <> Some OPEN ->
  current_readyState w <> Some CONNECTING ->
  webSocketThrows w (_buildWebSocketUrl (client w)) = Some error ->
  connect w
  = (length (promises w),
     says (logged w (LogConnecting (_buildWebSocketUrl (client w))) ++
           [Settle (length (promises w)) (Rejected error)])
       (with_promises (promises w ++ [Done (Rejected error)]) w)).
Proof.
  intros H1 H2 Hi. unfold connect, _log, logged, new_WebSocket. run_m.
  unfold current_readyState, socket_state in H1, H2.
  destruct (match ws (client w) with Some s0 => readyState <$> nth_error (sockets w) s0 | None => None end)
    as [[|[|r]]|]; try (exfalso; apply H1; reflexivity); try (exfalso; apply H2; reflexivity);
    destruct (o_debug _); run_m; rewrite Hi; run_m; rewrite nth_error_new; run_m;
    rewrite insert_new; rewrite <- ?app_assoc; cbn [app]; reflexivity.
Qed.

(** [connect] with no socket, or with one that is closing or closed.
    When the runtime makes a socket for the URL of the client, that
    socket becomes the current one; the socket the client had is left as
    it is, handlers included, and is not closed; the promise stays
    pending, with a connection timeout of [options.timeout] armed for it.
    When the constructor throws (no implementation, a URL it refuses),
    the promise is rejected at once with what was thrown: no socket is
    made, no timer is armed and the client is as it was. *)
Theorem connect_opens_a_socket (w : World) :
  current_readyState w <> Some OPEN ->
  current_readyState w <> Some CONNECTING ->
  let s := length (sockets w) in
  let p := length (promises w) in
  let url := _buildWebSocketUrl (client w) in
  let w' := exec connect w in
  fst (connect w) = p /\
  subscriptions (client w') = subscriptions (client w) /\
  pendingRequests (client w') = pendingRequests (client w) /\
  match webSocketThrows w url with
  | None =>
      trace w' = trace w ++ logged w (LogConnecting url) ++ [NewWebSocket url s] /\
      ws (client w') = Some s /\
      sockets w'
      = sockets w ++ [{| readyState := CONNECTING;
                         handlers := Some {| connectPromise := p;
                                             connectionTimeout := nextTimer w |} |}] /\
      promises w' = promises w ++ [Pending Caller] /\
      timers w'
      = timers w ++ [{| timer_id := nextTimer w; timer_delay := o_timeout (options (client w));
                        timer_task := ConnectionTimeout p |}]
  | Some error =>
      trace w' = trace w ++ logged w (LogConnecting url) ++ [Settle p (Rejected error)] /\
      client w' = client w /\
      sockets w' = sockets w /\
      promises w' = promises w ++ [Done (Rejected error)] /\
      timers w' = timers w
  end.
Proof.
  intros H1 H2 s p url w'. unfold w', exec.
  destruct (webSocketThrows w url) as [error|] eqn:Hi.
  - rewrite (connect_refused w error H1 H2 Hi). cbn [fst snd]. unfold says. proj_simpl.
    rewrite <- ?app_assoc. auto 10.
  - rewrite (connect_fresh w H1 H2 Hi). cbn [fst snd]. unfold says. proj_simpl.
    rewrite <- ?app_assoc. auto 10.
Qed.

Lemma connect_opens_a_socket_witness :
  (trace (exec connect dropped_world)
   = trace dropped_world ++ [NewWebSocket "wss://eth-mainnet.xrpc.pro?apiKey=key" 1] /\
   ws (client (exec connect dropped_world)) = Some 1) /\
  (trace (exec connect refusing_world) = [Settle 0 (Rejected (Error "Invalid URL"))] /\
   sockets (exec connect refusing_world) = []).
Proof.
  split.
  - assert (H1 : current_readyState dropped_world <> Some OPEN) by (vm_compute; discriminate).
    assert (H2 : current_readyState dropped_world <> Some CONNECTING) by (vm_compute; discriminate).
    destruct (connect_opens_a_socket dropped_world H1 H2) as (_ & _ & _ & H).
    vm_compute in H. destruct H as (H3 & H4 & _). split; vm_compute; assumption.
  - assert (H1 : current_readyState refusing_world <> Some OPEN) by (vm_compute; discriminate).
    assert (H2 : current_readyState refusing_world <> Some CONNECTING) by (vm_compute; discriminate).
    destruct (connect_opens_a_socket refusing_world H1 H2) as (_ & _ & _ & H).
    vm_compute in H. destruct H as (H3 & _ & H4 & _). split; vm_compute; assumption.
Defined.

(** What the task of an [open] event runs: the handler, then what waits
    on the promise of [connect]. *)
Lemma exec_socket_open w s k h :
  nth_error (sockets w) s = Some k ->
  handlers k = Some h ->
  exec (step (SocketOpen s)) w
  = exec (settle (connectPromise h) (Resolved JUndefined))
      (says (emitted w OnOpen)
         (exec (modify (with_reconnectAttempts 0))
            (says (logged w LogConnected)
               (exec (clearTimeout (connectionTimeout h))
                  (exec (set_readyState s OPEN) w))))).
Proof.
  intros Hk Hh. set (w0 := exec (set_readyState s OPEN) w).
  assert (H0 : nth_error (sockets w0) s = Some {| readyState := OPEN; handlers := Some h |}).
  { unfold w0. run_m. rewrite Hk. proj_simpl. rewrite <- Hh. apply (nth_error_insert _ _ k), Hk. }
  assert (Eo : on_socket s handleOpen w0 = handleOpen h w0).
  { unfold on_socket, handlers_of. cbv beta iota zeta delta [bind ret get_world fst snd].
    rewrite H0. reflexivity. }
  cbn [step]. rewrite exec_seq. fold w0. rewrite exec_bind.
  unfold exec at 2. rewrite Eo. fold (exec (handleOpen h) w0).
  assert (R1 : fst (handleOpen h w0) = [(connectPromise h, Resolved JUndefined)]).
  { unfold handleOpen. rewrite !result_bind. reflexivity. }
  rewrite R1. unfold settle_all. cbn [forEach fst snd]. rewrite exec_seq.
  change (exec (ret tt) ?x) with x. f_equal.
  unfold handleOpen. rewrite !exec_seq, exec_log, exec_emit.
  change (exec (ret ?a) ?x) with x.
  unfold w0, emitted, logged. run_m. rewrite Hk. reflexivity.
Qed.

Lemma exec_socket_error w s r k h :
  nth_error (sockets w) s = Some k ->
  handlers k = Some h ->
  exec (step (SocketError s r)) w
  = exec (settle (connectPromise h) (Rejected (Error "WebSocket connection error")))
      (says (emitted w (OnError (Error "WebSocket connection error")))
         (says (logged w (LogError "WebSocket connection error"))
            (exec (clearTimeout (connectionTimeout h))
               (exec (set_readyState s r) w)))).
Proof.
  intros Hk Hh. set (w0 := exec (set_readyState s r) w).
  assert (H0 : nth_error (sockets w0) s = Some {| readyState := r; handlers := Some h |}).
  { unfold w0. run_m. rewrite Hk. proj_simpl. rewrite <- Hh. apply (nth_error_insert _ _ k), Hk. }
  assert (Eo : on_socket s handleError w0 = handleError h w0).
  { unfold on_socket, handlers_of. cbv beta iota zeta delta [bind ret get_world fst snd].
    rewrite H0. reflexivity. }
  cbn [step]. rewrite exec_seq. fold w0. rewrite exec_bind.
  unfold exec at 2. rewrite Eo. fold (exec (handleError h) w0).
  assert (R1 : fst (handleError h w0)
               = [(connectPromise h, Rejected (Error "WebSocket connection error"))]).
  { unfold handleError. rewrite !result_bind. reflexivity. }
  rewrite R1. unfold settle_all. cbn [forEach fst snd]. rewrite exec_seq.
  change (exec (ret tt) ?x) with x. f_equal.
  unfold handleError. cbv zeta. rewrite !exec_seq, exec_log, exec_emit.
  change (exec (ret ?a) ?x) with x.
  unfold w0, emitted, logged. run_m. rewrite Hk. reflexivity.
Qed.

(** How a connection attempt ends for the application code that waits on
    [connect()]. When the socket opens, the connection timeout is
    cleared, the count of reconnect attempts goes back to 0, [open] is
    emitted and the promise resolves. On an error event the timeout is
    cleared, [error] is emitted and the promise is rejected with
    "WebSocket connection error"; the handler neither closes the socket
    nor schedules a reconnect. When the connection timeout fires first
    and the current socket is not open, that socket is closed (without a
    code) and the promise is rejected with "Connection timeout". *)
Theorem connection_attempt_outcomes (w : World) (s : nat) (k : Socket) (h : Handlers) :
  nth_error (sockets w) s = Some k ->
  handlers k = Some h ->
  nth_error (promises w) (connectPromise h) = Some (Pending Caller) ->
  let cp := connectPromise h in
  (let w' := run [SocketOpen s] w in
   trace w' = trace w ++ logged w LogConnected ++ emitted w OnOpen ++
              [Settle cp (Resolved JUndefined)] /\
   reconnectAttempts (client w') = 0 /\
   timers w' = without [connectionTimeout h] (timers w) /\
   socket_state s w' = Some OPEN) /\
  (forall r,
   let message := "WebSocket connection error" in
   let w' := run [SocketError s r] w in
   trace w' = trace w ++ logged w (LogError message) ++ emitted w (OnError (Error message)) ++
              [Settle cp (Rejected (Error message))] /\
   timers w' = without [connectionTimeout h] (timers w) /\
   reconnectAttempts (client w') = reconnectAttempts (client w) /\
   ws (client w') = ws (client w) /\
   socket_state s w' = Some r) /\
  (forall t,
   armed (connectionTimeout h) w = Some t ->
   timer_task t = ConnectionTimeout cp ->
   ws (client w) = Some s ->
   readyState k <> OPEN ->
   let w' := run [TimerFired (connectionTimeout h)] w in
   trace w' = trace w ++ [WsClose s None; Settle cp (Rejected (Error "Connection timeout"))] /\
   timers w' = without [connectionTimeout h] (timers w) /\
   socket_state s w'
   = Some (if Nat.eqb (readyState k) CONNECTING then CLOSING else readyState k)).
Proof.
  intros Hk Hh Hp cp. split; [|split].
  - cbn [run]. rewrite (exec_socket_open w s k h Hk Hh).
    rewrite (exec_settle_pending _ _ Caller);
      [| run_m; destruct (nth_error (sockets w) s); exact Hp ].
    cbn [resume resume_request]. change (exec (ret tt) ?x) with x.
    run_m. rewrite Hk. proj_simpl. rewrite clear_without.
    rewrite (nth_error_insert _ _ k) by exact Hk. cbn [fmap option_fmap option_map readyState].
    rewrite <- !app_assoc. auto.
  - intros r message w'. unfold w'. cbn [run]. rewrite (exec_socket_error w s r k h Hk Hh).
    rewrite (exec_settle_pending _ _ Caller);
      [| run_m; destruct (nth_error (sockets w) s); exact Hp ].
    cbn [resume resume_request]. change (exec (ret tt) ?x) with x.
    run_m. rewrite Hk. proj_simpl. rewrite clear_without.
    rewrite (nth_error_insert _ _ k) by exact Hk. cbn [fmap option_fmap option_map readyState].
    rewrite <- !app_assoc. auto.
  - intros t Ha Ht Hws Hr w'. unfold w'. cbn [run step]. unfold fire.
    rewrite exec_get_world, Ha, Ht, exec_seq. unfold run_timer.
    rewrite exec_get_client, exec_bind.
    change (fst (ws_readyState ?x)) with (current_readyState x).
    change (exec ws_readyState ?x) with x.
    change (ws (client (exec (clearTimeout ?i) w))) with (ws (client w)).
    change (current_readyState (exec (clearTimeout ?i) w)) with (current_readyState w).
    unfold current_readyState, socket_state. rewrite Hws, Hk.
    cbn [fmap option_fmap option_map].
    assert (E : forall w1,
                exec (match readyState k with
                      | 1 => ret tt
                      | _ => ws_close s None;; settle cp (Rejected (Error "Connection timeout"))
                      end) w1
                = exec (settle cp (Rejected (Error "Connection timeout")))
                    (exec (ws_close s None) w1)).
    { intros w1. destruct (readyState k) as [|[|r]] eqn:E; rewrite ?exec_seq; try reflexivity.
      exfalso. apply Hr. reflexivity. }
    rewrite E. clear E.
    assert (Hc : exec (ws_close s None) (exec (clearTimeout (connectionTimeout h)) w)
                 = (if Nat.eqb (readyState k) CONNECTING
                    then exec (set_readyState s CLOSING) else fun x => x)
                     (says [WsClose s None] (exec (clearTimeout (connectionTimeout h)) w))).
    { unfold ws_close. rewrite exec_seq, exec_tell, exec_get_world.
      unfold socket_state. run_m. rewrite Hk. cbn [fmap option_fmap option_map].
      destruct (readyState k) as [|[|r]] eqn:E; cbn [Nat.eqb orb when]; try reflexivity.
      exfalso. apply Hr. reflexivity. }
    rewrite Hc. clear Hc.
    destruct (Nat.eqb (readyState k) CONNECTING) eqn:Ec;
      (rewrite (exec_settle_pending _ _ Caller); [| run_m; rewrite ?Hk; exact Hp ]);
      cbn [resume resume_request]; change (exec (ret tt) ?x) with x;
      run_m; rewrite ?Hk; proj_simpl; rewrite clear_without;
      rewrite ?(nth_error_insert _ _ k) by exact Hk; rewrite ?Hk;
      cbn [fmap option_fmap option_map readyState]; rewrite <- ?app_assoc; auto.
Qed.

Lemma connection_attempt_outcomes_witness :
  trace (run [SocketOpen 0] connecting_world)
  = trace connecting_world ++ [Emit OnOpen; Settle 0 (Resolved JUndefined)] /\
  trace (run [SocketError 0 CLOSED] connecting_world)
  = trace connecting_world ++
    [Emit (OnError (Error "WebSocket connection error"));
     Settle 0 (Rejected (Error "WebSocket connection error"))] /\
  trace (run [TimerFired 1] connecting_world)
  = trace connecting_world ++ [WsClose 0 None; Settle 0 (Rejected (Error "Connection timeout"))].
Proof.
  destruct (connection_attempt_outcomes connecting_world 0
              {| readyState := CONNECTING;
                 handlers := Some {| connectPromise := 0; connectionTimeout := 1 |} |}
              {| connectPromise := 0; connectionTimeout := 1 |} eq_refl eq_refl eq_refl)
    as ((H1 & _) & H2 & H3).
  destruct (H2 CLOSED) as (H2' & _).
  destruct (H3 {| timer_id := 1; timer_delay := 10000; timer_task := ConnectionTimeout 0 |}
              eq_refl eq_refl eq_refl) as (H3' & _); [vm_compute; discriminate|].
  split; [|split].
  - refine (eq_trans H1 _). vm_compute. reflexivity.
  - refine (eq_trans H2' _). vm_compute. reflexivity.
  - refine (eq_trans H3' _). vm_compute. reflexivity.
Defined.

(** ** The URL of the socket *)

Lemma rev_app_append a : forall b acc,
  String.rev_app (a +:+ b) acc = String.rev_app b (String.rev_app a acc).
Proof. induction a as [|c a IH]; intros b acc; cbn; [reflexivity | apply IH]. Qed.

Lemma rev_app_rev_app s : forall acc acc',
  String.rev_app (String.rev_app s acc) acc' = String.rev_app acc (s +:+ acc').
Proof. induction s as [|c s IH]; intros acc acc'; cbn; [reflexivity | rewrite IH; reflexivity]. Qed.

Lemma append_empty s : s +:+ "" = s.
Proof.
  induction s as [|c s IH]; [reflexivity|].
  change (String c (s +:+ "") = String c s). f_equal. exact IH.
Qed.

Lemma rev_involutive s : String.rev (String.rev s) = s.
Proof. unfold String.rev. rewrite rev_app_rev_app. cbn [String.rev_app]. apply append_empty. Qed.

Lemma append_assoc a b c : (a +:+ b) +:+ c = a +:+ (b +:+ c).
Proof.
  induction a as [|x a IH]; [reflexivity|].
  change (String x ((a +:+ b) +:+ c) = String x (a +:+ (b +:+ c))). f_equal. exact IH.
Qed.

Lemma rev_app_acc s : forall acc, String.rev_app s acc = String.rev s +:+ acc.
Proof.
  unfold String.rev. induction s as [|c s IH]; intros acc; cbn; [reflexivity|].
  rewrite IH, (IH (String c "")), append_assoc. reflexivity.
Qed.

Lemma strip_wss_suffix n : strip_wss (n +:+ "-wss") = n.
Proof.
  unfold strip_wss, String.rev. rewrite rev_app_append. cbn [String.rev_app].
  apply rev_involutive.
Qed.

Lemma strip_wss_other network :
  (forall n, network <> n +:+ "-wss") -> strip_wss network = network.
Proof.
  intros H. unfold strip_wss.
  destruct (String.rev network) as [|c1 [|c2 [|c3 [|c4 r]]]] eqn:E; try reflexivity;
    (destruct c1 as [[] [] [] [] [] [] [] []]; try reflexivity);
    (destruct c2 as [[] [] [] [] [] [] [] []]; try reflexivity);
    (destruct c3 as [[] [] [] [] [] [] [] []]; try reflexivity);
    (destruct c4 as [[] [] [] [] [] [] [] []]; try reflexivity).
  exfalso. apply (H (String.rev r)).
  rewrite <- (rev_involutive network), E. unfold String.rev at 1. cbn [String.rev_app].
  apply rev_app_acc.
Qed.

(** The URL [connect] opens is [wss://{network}.xrpc.pro?apiKey={key}],
    with one [-wss] taken off the end of the network name when it is
    there, and the name as it is otherwise. The [baseUrl] option plays no
    part in it. *)
Theorem websocket_url_drops_the_wss_suffix (c : Client) :
  let url := _buildWebSocketUrl c in
  (forall n,
     o_network (options c) = n +:+ "-wss" ->
     url = "wss://" +:+ n +:+ ".xrpc.pro?apiKey=" +:+ o_apiKey (options c)) /\
  ((forall n, o_network (options c) <> n +:+ "-wss") ->
     url = "wss://" +:+ o_network (options c) +:+ ".xrpc.pro?apiKey=" +:+ o_apiKey (options c)) /\
  (forall c',
     o_network (options c') = o_network (options c) ->
     o_apiKey (options c') = o_apiKey (options c) ->
     _buildWebSocketUrl c' = url).
Proof.
  unfold _buildWebSocketUrl. split; [|split].
  - intros n H. rewrite H, strip_wss_suffix. reflexivity.
  - intros H. rewrite strip_wss_other by exact H. reflexivity.
  - intros c' H1 H2. rewrite H1, H2. reflexivity.
Qed.

(** ** A new client *)

(** The constructor throws "API key is required" for an empty key and,
    with a key, "Network is required" for an empty network. The client it
    makes otherwise is closed and has no subscription. Its first
    [connect], in a runtime whose WebSocket constructor throws for the
    URL of the client, is rejected with what was thrown: the state stays
    "closed", no socket is made and no timer is armed. In a runtime that
    makes a socket for the URL, [connect] opens one socket, with a
    connection timeout of the [timeout] option, 10000 ms when that is not
    given; the state is then "connecting", and "open" once the socket has
    opened (the promise of [connect] resolves and the timeout is gone).
    When [disconnect] is then called, the state is still "open" when the
    call has returned; the socket is closed with code 1000, the state
    becomes "closed" and the promise of [disconnect] resolves in the
    microtask after that, within the task of the call. [isConnected]
    holds in the open state only. *)
Theorem new_client_connects_and_disconnects (o : SubscriptionOptions) :
  match new_XRpcWebSocketClient o with
  | inl e =>
      e = Error (if String.eqb (apiKey o) "" then "API key is required"
                 else "Network is required") /\
      (apiKey o = "" \/ network o = "")
  | inr c =>
      apiKey o <> "" /\ network o <> "" /\
      forall now random impl,
        let url := "wss://" +:+ strip_wss (network o) +:+ ".xrpc.pro?apiKey=" +:+ apiKey o in
        let w := with_webSocketThrows impl (boot c now random) in
        let w1 := run [CallConnect] w in
        (getState w = "closed" /\ isConnected w = false /\ getSubscriptions w = []) /\
        (forall error,
           impl url = Some error ->
           getState w1 = "closed" /\ isConnected w1 = false /\
           sockets_made (trace w1) = [] /\ timers w1 = [] /\
           settlements (trace w1) = [(0, Rejected error)]) /\
        (impl url = None ->
           let w2 := run [SocketOpen 0] w1 in
           let called := exec disconnect w2 in
           let w3 := run [CallDisconnect] w2 in
           (getState w1 = "connecting" /\ isConnected w1 = false /\
            sockets_made (trace w1) = [0] /\
            trace w1 = logged w (LogConnecting url) ++ [NewWebSocket url 0] /\
            timers w1 = [{| timer_id := 1; timer_delay := default 10000%N (timeout o);
                            timer_task := ConnectionTimeout 0 |}]) /\
           (getState w2 = "open" /\ isConnected w2 = true /\ timers w2 = [] /\
            settlements (trace w2) = [(0, Resolved JUndefined)]) /\
           (getState called = "open" /\ isConnected called = true /\
            trace called = trace w2 /\ isManualClose (client called) = true) /\
           (getState w3 = "closed" /\ isConnected w3 = false /\
            trace w3 = trace w2 ++ [WsClose 0 (Some (1000%Z, "Client disconnect"));
                                    Settle 1 (Resolved JUndefined)]))
  end.
Proof.
  unfold new_XRpcWebSocketClient.
  destruct (String.eqb (apiKey o) "") eqn:Ek.
  { split; [reflexivity|]. left. apply String.eqb_eq, Ek. }
  destruct (String.eqb (network o) "") eqn:En.
  { split; [reflexivity|]. right. apply String.eqb_eq, En. }
  split; [apply String.eqb_neq, Ek|]. split; [apply String.eqb_neq, En|].
  intros now random impl.
  set (url := "wss://" +:+ strip_wss (network o) +:+ ".xrpc.pro?apiKey=" +:+ apiKey o).
  set (w := with_webSocketThrows impl (boot (initial o) now random)).
  set (w1 := run [CallConnect] w).
  assert (E1 : w1 = exec connect w).
  { unfold w1. cbn [run step]. rewrite exec_seq. reflexivity. }
  assert (N1 : current_readyState w <> Some OPEN) by (cbn; discriminate).
  assert (N2 : current_readyState w <> Some CONNECTING) by (cbn; discriminate).
  split; [|split].
  - unfold w, boot, initial. cbn. auto.
  - intros error Hi.
    assert (H1 : w1 = says (logged w (LogConnecting url) ++ [Settle 0 (Rejected error)])
                   (with_promises [Done (Rejected error)] w)).
    { rewrite E1. unfold exec. rewrite (connect_refused w error N1 N2 Hi). reflexivity. }
    rewrite H1. unfold getState, isConnected, socket_state, w, boot, initial. run_m.
    unfold settlements, sockets_made, logged. rewrite ?omap_app.
    destruct (o_debug _); cbn; auto 10.
  - intros Hi.
    set (w2 := run [SocketOpen 0] w1).
    set (called := exec disconnect w2).
    set (w3 := run [CallDisconnect] w2).
    assert (H1 : w1 = says (logged w (LogConnecting url) ++ [NewWebSocket url 0])
                   (with_client (with_ws (Some 0) (initial o))
                      (with_sockets [{| readyState := CONNECTING;
                                        handlers := Some {| connectPromise := 0;
                                                            connectionTimeout := 1 |} |}]
                         (with_timers [{| timer_id := 1; timer_delay := default 10000%N (timeout o);
                                          timer_task := ConnectionTimeout 0 |}] 2
                            (with_promises [Pending Caller] w))))).
    { rewrite E1. unfold exec. rewrite (connect_fresh w N1 N2 Hi). reflexivity. }
    assert (H2 : w2 = says (logged w LogConnected ++ [Emit OnOpen; Settle 0 (Resolved JUndefined)])
                   (with_sockets [{| readyState := OPEN;
                                     handlers := Some {| connectPromise := 0;
                                                         connectionTimeout := 1 |} |}]
                      (with_timers [] 2 (with_promises [Done (Resolved JUndefined)] w1)))).
    { unfold w2. cbn [run].
      rewrite (exec_socket_open w1 0
                 {| readyState := CONNECTING;
                    handlers := Some {| connectPromise := 0; connectionTimeout := 1 |} |}
                 {| connectPromise := 0; connectionTimeout := 1 |});
        [| rewrite H1; reflexivity | reflexivity ].
      rewrite (exec_settle_pending _ _ Caller) by (rewrite H1; reflexivity).
      cbn [resume resume_request]. change (exec (ret tt) ?x) with x.
      rewrite H1. unfold emitted, logged, w, boot, initial. run_m.
      destruct (default false (debug o)); reflexivity. }
    assert (H3 : called = with_allSettled [(1, [])]
                   (with_client (with_isManualClose true (client w2))
                      (with_promises [Done (Resolved JUndefined); Pending Caller] w2))).
    { unfold called. rewrite H2, H1. unfold disconnect, w, boot, initial.
      run_m. cbn [unsubscribe_each forEach]. run_m. reflexivity. }
    split; [|split; [|split]].
    + rewrite H1. unfold getState, isConnected, socket_state. run_m.
      unfold sockets_made, logged. rewrite omap_app. destruct (o_debug _); cbn; auto 10.
    + rewrite H2, H1. unfold getState, isConnected, socket_state. run_m.
      unfold settlements, logged. rewrite !omap_app.
      destruct (o_debug _); cbn; auto 10.
    + rewrite H3, H2, H1. unfold getState, isConnected, socket_state. run_m. auto.
    + unfold w3. cbn [run step]. fold called. rewrite exec_bind. fold called.
      replace (fst (disconnect w2)) with 1.
      2:{ rewrite H2, H1. unfold disconnect, w, boot, initial. run_m.
          cbn [unsubscribe_each forEach]. run_m. reflexivity. }
      rewrite H3, H2, H1.
      unfold allSettled_check, disconnect_finish, ws_close, getState, isConnected,
        socket_state, logged, w, boot, initial.
      run_m. cbn [List.find fst forallb Nat.eqb]. run_m.
      destruct (default false (debug o)); cbn; auto.
Qed.

(** ** The typed fronts of [subscribe] *)

(** On an open socket [subscribeNewHeads], [subscribeNewPendingTransactions]
    and [subscribeLogs] each send one [eth_subscribe] frame: the kind
    alone for the first two, the kind and the filter for logs. The
    request each leaves pending carries the callback, for the kind and
    with the parameters sent. *)
Theorem typed_subscriptions_send_their_kind (w : World) (s : nat)
    (callback : JsFunction) (filter : JValue) :
  current_readyState w = Some OPEN ->
  ws (client w) = Some s ->
  let rid := request_id w (S (requestIdCounter (client w))) in
  let sent params :=
    trace w ++ logged w (LogSending "eth_subscribe" params rid) ++
    [WsSend s "eth_subscribe" params rid] in
  let recorded type params :=
    Some {| request := SubscribeRequest type params callback;
            promise := length (promises w); timeoutId := nextTimer w |} in
  let heads := exec (subscribeNewHeads callback) w in
  let transactions := exec (subscribeNewPendingTransactions callback) w in
  let logs_of := exec (subscribeLogs filter callback) w in
  (trace heads = sent [JStr "newHeads"] /\
   JsMap.get rid (pendingRequests (client heads)) = recorded newHeads []) /\
  (trace transactions = sent [JStr "newPendingTransactions"] /\
   JsMap.get rid (pendingRequests (client transactions)) = recorded newPendingTransactions []) /\
  (trace logs_of = sent [JStr "logs"; filter] /\
   JsMap.get rid (pendingRequests (client logs_of)) = recorded logs [filter]).
Proof.
  intros Hr Hs rid sent recorded heads transactions logs_of.
  unfold heads, transactions, logs_of, subscribeNewHeads, subscribeNewPendingTransactions,
    subscribeLogs, exec.
  rewrite !(subscribe_open _ s) by assumption. unfold requested. run_m.
  repeat split; apply get_set_same.
Qed.

Lemma typed_subscriptions_send_their_kind_witness :
  trace (exec (subscribeLogs (JObj 5 [("address", JStr "0x01")]) (returning 1)) connected_world)
  = trace connected_world ++
    [WsSend 0 "eth_subscribe" [JStr "logs"; JObj 5 [("address", JStr "0x01")]]
       (JStr "1700000000000-1-k3x9")].
Proof.
  destruct (typed_subscriptions_send_their_kind connected_world 0 (returning 1)
              (JObj 5 [("address", JStr "0x01")]) eq_refl eq_refl) as (_ & _ & H & _).
  refine (eq_trans H _). vm_compute. reflexivity.
Defined.

(** ** Waiting for a connection that is under way *)

Lemma armed_without id ids ts :
  In id ids -> List.find (fun t => Nat.eqb (timer_id t) id) (without ids ts) = None.
Proof.
  intros Hin. unfold without. induction ts as [|t ts IH]; cbn; [reflexivity|].
  destruct (existsb (Nat.eqb (timer_id t)) ids) eqn:E; cbn; [exact IH|].
  destruct (Nat.eqb (timer_id t) id) eqn:E'; [|exact IH].
  exfalso. apply Nat.eqb_eq in E'. subst id.
  assert (existsb (Nat.eqb (timer_id t)) ids = true); [|congruence].
  apply existsb_exists. exists (timer_id t). split; [exact Hin | apply Nat.eqb_refl].
Qed.

(** A [connect] made while the socket was connecting polls it every
    100 ms. A tick that finds the socket closed rejects the promise with
    "Connection failed" and ends the polling; a tick that finds it
    neither open nor closed (or finds no socket) changes nothing, and the
    polling goes on. The timeout of that [connect] ends the polling too
    when it fires: both timers are gone. *)
Theorem polling_connect_gives_up (w : World) (id : nat) (t : Timer) (q : nat) :
  armed id w = Some t ->
  nth_error (promises w) q = Some (Pending Caller) ->
  let w' := exec (fire id) w in
  (timer_task t = CheckInterval q ->
     (current_readyState w = Some CLOSED ->
        trace w' = trace w ++ [Settle q (Rejected (Error "Connection failed"))] /\
        timers w' = without [id] (timers w)) /\
     (current_readyState w <> Some OPEN -> current_readyState w <> Some CLOSED -> w' = w)) /\
  (forall i,
     timer_task t = CheckTimeout q i ->
     trace w' = trace w ++ [Settle q (Rejected (Error "Connection timeout"))] /\
     timers w' = without [id; i] (timers w) /\
     armed i w' = None /\ armed id w' = None).
Proof.
  intros Ha Hp w'. split.
  - intros Ht. unfold w', fire. rewrite exec_get_world, Ha, Ht, exec_seq.
    change (exec (ret tt) w) with w. unfold run_timer.
    rewrite exec_bind. change (fst (ws_readyState w)) with (current_readyState w).
    change (exec ws_readyState w) with w. split.
    + intros Hr. rewrite Hr. unfold CLOSED.
      rewrite exec_seq. rewrite (exec_settle_pending _ _ Caller) by (run_m; exact Hp).
      cbn [resume resume_request]. change (exec (ret tt) ?x) with x. run_m.
      rewrite clear_without. auto.
    + intros H1 H3. destruct (current_readyState w) as [[|[|[|[|r]]]]|]; try reflexivity.
      * exfalso. apply H1. reflexivity.
      * exfalso. apply H3. reflexivity.
  - intros i Ht. unfold w', fire. rewrite exec_get_world, Ha, Ht, exec_seq.
    unfold run_timer. rewrite exec_seq.
    rewrite (exec_settle_pending _ _ Caller) by (run_m; exact Hp).
    cbn [resume resume_request]. change (exec (ret tt) ?x) with x. unfold armed. run_m.
    rewrite !clear_without, without_app. cbn [app].
    repeat split; apply armed_without; cbn; auto.
Qed.

Lemma polling_connect_gives_up_witness :
  trace (exec (fire 2) (run [SocketClose 0 None ""] polling_world))
  = trace (run [SocketClose 0 None ""] polling_world) ++
    [Settle 1 (Rejected (Error "Connection failed"))] /\
  exec (fire 2) polling_world = polling_world /\
  timers (exec (fire 3) polling_world)
  = [{| timer_id := 1; timer_delay := 10000; timer_task := ConnectionTimeout 0 |}].
Proof.
  split; [|split].
  - destruct (polling_connect_gives_up (run [SocketClose 0 None ""] polling_world) 2
                {| timer_id := 2; timer_delay := 100; timer_task := CheckInterval 1 |} 1
                eq_refl eq_refl) as [H _].
    destruct (H eq_refl) as [H1 _]. destruct (H1 eq_refl) as [H2 _].
    refine (eq_trans H2 _). reflexivity.
  - destruct (polling_connect_gives_up polling_world 2
                {| timer_id := 2; timer_delay := 100; timer_task := CheckInterval 1 |} 1
                eq_refl eq_refl) as [H _].
    destruct (H eq_refl) as [_ H1]. apply H1; vm_compute; discriminate.
  - destruct (polling_connect_gives_up polling_world 3
                {| timer_id := 3; timer_delay := 10000; timer_task := CheckTimeout 1 2 |} 1
                eq_refl eq_refl) as [_ H].
    destruct (H 2 eq_refl) as (_ & H1 & _). refine (eq_trans H1 _). vm_compute. reflexivity.
Defined.

(** ** The reconnect attempts are numbered and bounded, in every run *)

Global Instance numbered_preorder : PreOrder numbered.
Proof. split; [intros w H; exact H | intros a b c H1 H2 H; exact (H2 (H1 H))]. Qed.

Lemma plain_logged w entry : plain (logged w entry).
Proof. unfold logged, plain. destruct (o_debug _); repeat constructor. Qed.

Lemma plain_listeners w e ls : plain (flat_map (listener_effects w e) ls).
Proof.
  unfold plain. induction ls as [|l ls IH]; cbn; [constructor|].
  constructor; [exact I|]. apply Forall_app. split; [|exact IH].
  destruct (fn_throws l); [apply plain_logged | constructor].
Qed.

Lemma reconnect_events_app t u :
  reconnect_events (t ++ u) = reconnect_events t ++ reconnect_events u.
Proof. apply omap_app. Qed.

Lemma reconnect_events_plain t : plain t -> reconnect_events t = [].
Proof.
  induction 1 as [|e t He _ IH]; [reflexivity|]. destruct e; try contradiction; exact IH.
Qed.

Lemma outage_app t u : outage (t ++ u) = fold_left outage_step u (outage t).
Proof. unfold outage. apply fold_left_app. Qed.

Lemma outage_plain u : plain u -> forall acc, fold_left outage_step u acc = acc.
Proof.
  induction 1 as [|e u He _ IH]; intros acc; [reflexivity|]. cbn [fold_left].
  destruct e; try contradiction; apply IH.
Qed.

Lemma in_order_says t w : plain t -> in_order w -> in_order (says t w).
Proof.
  intros Ht (H1 & H2 & H3). unfold in_order, says. proj_simpl.
  rewrite reconnect_events_app, (reconnect_events_plain t Ht), app_nil_r.
  rewrite outage_app, (outage_plain t Ht). auto.
Qed.

Ltac numbered_fin :=
  solve [ intros ?w ?H; cbv beta iota zeta delta [exec bind ret get_world update modify tell snd fst];
          repeat case_match;
          first [ exact H
                | match goal with
                  | |- in_order (with_trace (trace ?w ++ ?t) ?w) =>
                      apply (in_order_says t w); [unfold plain; repeat constructor | assumption]
                  end
                | revert H; unfold in_order; proj_simpl; exact (fun H => H) ] ].

Lemma numbered_modify_timer t w : in_order w -> in_order (exec (modify (with_reconnectTimeoutId t)) w).
Proof. intros H. exact H. Qed.

Ltac nb m := unfold m, get_client; keeps_go numbered_fin.

Lemma numbered_log e : keeps numbered (_log e). Proof. nb _log. Qed.
Lemma numbered_setTimeout t d : keeps numbered (setTimeout t d).
Proof. unfold setTimeout. numbered_fin. Qed.
Lemma numbered_clearTimeout t : keeps numbered (clearTimeout t). Proof. nb clearTimeout. Qed.
#[export] Hint Resolve numbered_log numbered_setTimeout numbered_clearTimeout : keeps.
Lemma numbered_setInterval t d : keeps numbered (setInterval t d). Proof. nb setInterval. Qed.
Lemma numbered_clearInterval t : keeps numbered (clearInterval t). Proof. nb clearInterval. Qed.
Lemma numbered_new_promise : keeps numbered new_promise. Proof. nb new_promise. Qed.
Lemma numbered_promise_state p : keeps numbered (promise_state p). Proof. nb promise_state. Qed.
Lemma numbered_set_promise p s : keeps numbered (set_promise p s). Proof. nb set_promise. Qed.
#[export] Hint Resolve numbered_setInterval numbered_clearInterval numbered_new_promise numbered_promise_state numbered_set_promise : keeps.
Lemma numbered_settle_caller p o : keeps numbered (settle_caller p o). Proof. nb settle_caller. Qed.
Lemma numbered_await p k : keeps numbered (await p k). Proof. nb await. Qed.
Lemma numbered_ws_readyState : keeps numbered ws_readyState. Proof. nb ws_readyState. Qed.
Lemma numbered_set_readyState s r : keeps numbered (set_readyState s r). Proof. nb set_readyState. Qed.
Lemma numbered_install_handlers s h : keeps numbered (install_handlers s h). Proof. nb install_handlers. Qed.
Lemma numbered_handlers_of s : keeps numbered (handlers_of s). Proof. nb handlers_of. Qed.
#[export] Hint Resolve numbered_settle_caller numbered_await numbered_ws_readyState numbered_set_readyState numbered_install_handlers numbered_handlers_of : keeps.
Lemma numbered_new_WebSocket u : keeps numbered (new_WebSocket u). Proof. nb new_WebSocket. Qed.
Lemma numbered_ws_close s a : keeps numbered (ws_close s a). Proof. nb ws_close. Qed.
Lemma numbered_call_listener e l : keeps numbered (call_listener e l). Proof. nb call_listener. Qed.
#[export] Hint Resolve numbered_new_WebSocket numbered_ws_close numbered_call_listener : keeps.
Lemma in_order_emitted w e :
  kind_of e <> EvReconnect -> kind_of e <> EvOpen ->
  in_order w -> in_order (says (emitted w e) w).
Proof.
  intros Hr Ho (H1 & H2 & H3). unfold in_order, says, emitted. proj_simpl.
  rewrite reconnect_events_app, outage_app. cbn [fold_left].
  assert (E1 : reconnect_events
                 (Emit e :: flat_map (listener_effects w e)
                              (default [] (eventListeners (client w) (kind_of e)))) = []).
  { destruct e; try (exfalso; apply Hr; reflexivity); try (exfalso; apply Ho; reflexivity);
      apply (reconnect_events_plain _ (plain_listeners _ _ _)). }
  assert (E2 : outage_step (outage (trace w)) (Emit e) = outage (trace w)).
  { destruct e; try (exfalso; apply Hr; reflexivity); try (exfalso; apply Ho; reflexivity);
      reflexivity. }
  rewrite E1, E2, app_nil_r, (outage_plain _ (plain_listeners _ _ _)). auto.
Qed.

Lemma numbered_emit e :
  kind_of e <> EvReconnect -> kind_of e <> EvOpen -> keeps numbered (_emit e).
Proof. intros Hr Ho w H. rewrite exec_emit. apply in_order_emitted; assumption. Qed.
#[export] Hint Resolve numbered_emit : keeps.
Lemma numbered_on e l : keeps numbered (on e l). Proof. nb on. Qed.
Lemma numbered_off e l : keeps numbered (off e l). Proof. nb off. Qed.
Lemma numbered_generateRequestId : keeps numbered _generateRequestId. Proof. nb _generateRequestId. Qed.
Lemma numbered_sendRequest m p i : keeps numbered (_sendRequest m p i). Proof. nb _sendRequest. Qed.
#[export] Hint Resolve numbered_on numbered_off numbered_generateRequestId numbered_sendRequest : keeps.
Lemma numbered_connect : keeps numbered connect. Proof. nb connect. Qed.
Lemma numbered_subscribe_send t ps f p : keeps numbered (subscribe_send t ps f p).
Proof. nb subscribe_send. Qed.
#[export] Hint Resolve numbered_connect numbered_subscribe_send : keeps.
Lemma numbered_subscribe t ps f : keeps numbered (subscribe t ps f). Proof. nb subscribe. Qed.
Lemma numbered_unsubscribe i : keeps numbered (unsubscribe i). Proof. nb unsubscribe. Qed.
#[export] Hint Resolve numbered_subscribe numbered_unsubscribe : keeps.
Lemma numbered_resubscribe n : forall i, keeps numbered (resubscribe n i).
Proof. induction n; intros i; cbn [resubscribe]; unfold get_client; keeps_go numbered_fin. Qed.
#[export] Hint Resolve numbered_resubscribe : keeps.
Lemma numbered_resubscribe_from i : keeps numbered (resubscribe_from i). Proof. nb resubscribe_from. Qed.
Lemma numbered_disconnect_finish d : keeps numbered (disconnect_finish d). Proof. nb disconnect_finish. Qed.
#[export] Hint Resolve numbered_resubscribe_from numbered_disconnect_finish : keeps.
Lemma numbered_allSettled_check d : keeps numbered (allSettled_check d). Proof. nb allSettled_check. Qed.
#[export] Hint Resolve numbered_allSettled_check : keeps.
Lemma numbered_resume_request k o : keeps numbered (resume_request k o). Proof. nb resume_request. Qed.
#[export] Hint Resolve numbered_resume_request : keeps.
Lemma numbered_settle_request p o : keeps numbered (settle_request p o). Proof. nb settle_request. Qed.
#[export] Hint Resolve numbered_settle_request : keeps.
Lemma numbered_pending_resolve p r : keeps numbered (pending_resolve p r). Proof. nb pending_resolve. Qed.
Lemma numbered_message_failed e : keeps numbered (message_failed e). Proof. nb message_failed. Qed.
#[export] Hint Resolve numbered_pending_resolve numbered_message_failed : keeps.
Lemma numbered_handleMessage' m : keeps numbered (_handleMessage m). Proof. nb _handleMessage. Qed.
Lemma reached_within attempts bound : reached attempts bound = false -> within bound (S attempts).
Proof.
  destruct bound as [n|]; cbn; [|auto]. intros H. apply Nat.leb_gt in H. lia.
Qed.

Lemma numbered_scheduleReconnect : keeps numbered _scheduleReconnect.
Proof.
  intros w H. unfold _scheduleReconnect. rewrite exec_get_client.
  destruct (reached _ _) eqn:Hr; [apply numbered_log; exact H|].
  rewrite !exec_seq, exec_log, exec_emit, exec_bind.
  apply numbered_modify_timer. apply numbered_setTimeout.
  destruct H as (H1 & H2 & H3). unfold in_order, says, emitted, logged. proj_simpl.
  cbv beta iota zeta delta [exec modify update snd]. proj_simpl.
  rewrite <- !app_assoc, !reconnect_events_app, outage_app, fold_left_app.
  set (l := if o_debug (options (client w)) then _ else _).
  assert (Hl : plain l) by (unfold l; destruct (o_debug _); repeat constructor).
  rewrite (reconnect_events_plain l Hl), (outage_plain l Hl). cbn [app fold_left outage_step].
  change (reconnect_events (Emit (OnReconnect ?k) :: ?t)) with (k :: reconnect_events t).
  set (ls := flat_map _ _).
  assert (Hls : plain ls) by apply plain_listeners.
  rewrite (reconnect_events_plain ls Hls), (outage_plain ls Hls), H3.
  split; [apply reached_within, Hr|]. split.
  - apply Forall_app. split; [exact H2|]. constructor; [|constructor].
    split; [lia | apply reached_within, Hr].
  - rewrite seq_S. reflexivity.
Qed.
#[export] Hint Resolve numbered_scheduleReconnect : keeps.
#[export] Hint Resolve numbered_handleMessage' : keeps.
Lemma numbered_resume k o : keeps numbered (resume k o). Proof. nb resume. Qed.
#[export] Hint Resolve numbered_resume : keeps.
Lemma numbered_settle p o : keeps numbered (settle p o). Proof. nb settle. Qed.
#[export] Hint Resolve numbered_settle : keeps.
Lemma numbered_settle_all l : keeps numbered (settle_all l). Proof. nb settle_all. Qed.
Lemma numbered_reconnect_now : keeps numbered reconnect_now. Proof. nb reconnect_now. Qed.
Lemma numbered_handleOpen h : keeps numbered (handleOpen h).
Proof.
  intros w (H1 & H2 & H3). unfold handleOpen. rewrite !exec_seq, exec_log, exec_emit.
  change (exec (ret ?a) ?x) with x.
  unfold in_order, says, emitted, logged. cbv beta iota zeta delta [exec modify update clearTimeout snd].
  proj_simpl. rewrite <- !app_assoc, !reconnect_events_app, outage_app, fold_left_app.
  set (l := if o_debug (options (client w)) then _ else _).
  assert (Hl : plain l) by (unfold l; destruct (o_debug _); repeat constructor).
  rewrite (reconnect_events_plain l Hl), (outage_plain l Hl). cbn [app fold_left outage_step].
  change (reconnect_events (Emit OnOpen :: ?t)) with (reconnect_events t).
  set (ls := flat_map _ _).
  assert (Hls : plain ls) by apply plain_listeners.
  rewrite (reconnect_events_plain ls Hls), (outage_plain ls Hls), app_nil_r.
  split; [destruct (o_maxReconnectAttempts _); cbn; [lia | exact I]|]. split; [exact H2 | reflexivity].
Qed.
#[export] Hint Resolve numbered_handleOpen : keeps.
Lemma numbered_handleMessage m : keeps numbered (handleMessage m). Proof. nb handleMessage. Qed.
Lemma numbered_handleError h : keeps numbered (handleError h). Proof. nb handleError. Qed.
Lemma numbered_reject_pending n : forall i, keeps numbered (reject_pending n i).
Proof. induction n; intros i; cbn [reject_pending]; unfold get_client; keeps_go numbered_fin. Qed.
#[export] Hint Resolve numbered_settle_all numbered_reconnect_now numbered_handleMessage numbered_handleError numbered_reject_pending : keeps.
Lemma numbered_handleClose h c r : keeps numbered (handleClose h c r). Proof. nb handleClose. Qed.
Lemma numbered_unsubscribe_each n : forall i, keeps numbered (unsubscribe_each n i).
Proof. induction n; intros i; cbn [unsubscribe_each]; unfold get_client; keeps_go numbered_fin. Qed.
#[export] Hint Resolve numbered_handleClose numbered_unsubscribe_each : keeps.
Lemma numbered_disconnect : keeps numbered disconnect. Proof. nb disconnect. Qed.

Lemma numbered_run_timer i t : keeps numbered (run_timer i t). Proof. nb run_timer. Qed.
#[export] Hint Resolve numbered_disconnect numbered_run_timer : keeps.
Lemma numbered_fire i : keeps numbered (fire i). Proof. nb fire. Qed.
Lemma numbered_on_socket s f : (forall h, keeps numbered (f h)) -> keeps numbered (on_socket s f).
Proof. intros H. nb on_socket. Qed.
#[export] Hint Resolve numbered_fire numbered_on_socket : keeps.
Lemma numbered_step e : keeps numbered (step e).
Proof. unfold step. keeps_go numbered_fin. Qed.

Lemma numbered_run events : forall w, numbered w (run events w).
Proof.
  induction events as [|e events IH]; intros w; cbn [run].
  - reflexivity.
  - transitivity (exec (step e) w); [exact (numbered_step e w) | exact (IH _)].
Qed.

(** In every run of a client the constructor made, whatever the tasks
    are: each [reconnect] event carries an attempt number from 1 to
    [maxReconnectAttempts]; the events since the last [open] event (or
    since the start) are numbered 1, 2, ... without a gap, up to the
    attempt counter; and that counter never passes the maximum. With
    [maxReconnectAttempts: 0], which the constructor keeps as it is, no
    [reconnect] event is ever emitted. *)
Theorem reconnect_attempts_are_numbered (o : SubscriptionOptions) (c : Client)
    (now : nat -> N) (random : nat -> string) (impl : string -> option JsError) (events : list Event) :
  new_XRpcWebSocketClient o = inr c ->
  let bound := default Infinity (maxReconnectAttempts o) in
  let w := run events (with_webSocketThrows impl (boot c now random)) in
  Forall (fun k => 1 <= k /\ within bound k) (reconnect_events (trace w)) /\
  outage (trace w) = seq 1 (reconnectAttempts (client w)) /\
  within bound (reconnectAttempts (client w)) /\
  (maxReconnectAttempts o = Some (Finite 0) -> reconnect_events (trace w) = []).
Proof.
  intros Hc bound w.
  assert (c = initial o) as ->.
  { unfold new_XRpcWebSocketClient in Hc.
    destruct (String.eqb (apiKey o) ""); [discriminate|].
    destruct (String.eqb (network o) ""); [discriminate|]. congruence. }
  assert (H0 : in_order (with_webSocketThrows impl (boot (initial o) now random))).
  { unfold in_order, with_webSocketThrows, boot, initial. cbn. split; [|split; [constructor | reflexivity]].
    destruct (default Infinity (maxReconnectAttempts o)); cbn; [lia | exact I]. }
  pose proof (numbered_run events _ H0) as (H1 & H2 & H3). fold w in H1, H2, H3.
  destruct (steady_run events (with_webSocketThrows impl (boot (initial o) now random))) as (_ & Ho & _). fold w in Ho.
  rewrite Ho in H1, H2. change (o_maxReconnectAttempts _) with bound in H1, H2.
  split; [exact H2|]. split; [exact H3|]. split; [exact H1|].
  intros Hz. unfold bound in H2. rewrite Hz in H2. cbn in H2.
  destruct (reconnect_events (trace w)) as [|k ks]; [reflexivity|].
  apply Forall_cons in H2 as [[? ?] _]. lia.
Qed.

Lemma reconnect_attempts_are_numbered_witness :
  Forall (fun k => 1 <= k /\ within (Finite 2) k)
    (reconnect_events (trace
       (run [CallConnect; SocketOpen 0; SocketClose 0 (Some 1006%Z) ""; TimerFired 2;
             SocketClose 1 (Some 1006%Z) ""; TimerFired 4; SocketClose 2 (Some 1006%Z) ""]
          demo_world))).
Proof.
  exact (proj1 (reconnect_attempts_are_numbered demo_options (initial demo_options)
                  (fun _ => 1700000000000%N) (fun _ => "k3x9") (fun _ => None)
                  [CallConnect; SocketOpen 0; SocketClose 0 (Some 1006%Z) ""; TimerFired 2;
                   SocketClose 1 (Some 1006%Z) ""; TimerFired 4; SocketClose 2 (Some 1006%Z) ""]
                  eq_refl)).
Defined.

(** ** Request ids *)

Lemma pretty_N_char_dashless x : Ascii.eqb (pretty_N_char x) "-" = false.
Proof. unfold pretty_N_char. repeat case_match; reflexivity. Qed.

Lemma pretty_N_go_dashless x : forall s, dashless s = true -> dashless (pretty_N_go x s) = true.
Proof.
  induction (N.lt_wf_0 x) as [x _ IH]; intros s Hs.
  destruct (decide (x = 0)%N) as [->|Hx]; [exact Hs|].
  rewrite pretty_N_go_step by lia. apply IH.
  - apply N.div_lt; lia.
  - cbn. rewrite pretty_N_char_dashless. exact Hs.
Qed.

Lemma pretty_N_dashless (x : N) : dashless (pretty x) = true.
Proof.
  unfold pretty, pretty_N. destruct (decide (x = 0)%N); [reflexivity|].
  apply pretty_N_go_dashless. reflexivity.
Qed.

Lemma pretty_nat_dashless (n : nat) : dashless (pretty n) = true.
Proof. apply pretty_N_dashless. Qed.

(** Two strings that begin with a dashless part and a dash agree on that
    part and on the rest. *)
Lemma split_at_dash a : forall a' b b',
  dashless a = true -> dashless a' = true ->
  a +:+ String "-" b = a' +:+ String "-" b' -> a = a' /\ b = b'.
Proof.
  induction a as [|c a IH]; intros [|c' a'] b b' Ha Ha' E; cbn in *.
  - inversion E. auto.
  - inversion E as [[Hc Hb]]. subst c'. discriminate.
  - inversion E as [[Hc Hb]]. subst c. discriminate.
  - inversion E as [[Hc Hb]]. subst c'.
    apply andb_true_iff in Ha as [_ Ha]. apply andb_true_iff in Ha' as [_ Ha'].
    destruct (IH a' b b' Ha Ha' Hb) as [-> ->]. auto.
Qed.

(** The ids [_generateRequestId] makes at different counter values are
    different, whatever the clock and the random source give. *)
Lemma request_id_inj w n m : request_id w n = request_id w m -> n = m.
Proof.
  unfold request_id. intros E. injection E as E.
  apply split_at_dash in E as [_ E]; [| apply pretty_N_dashless | apply pretty_N_dashless].
  apply split_at_dash in E as [E _]; [| apply pretty_nat_dashless | apply pretty_nat_dashless].
  apply (inj pretty) in E. exact E.
Qed.

(** ** The ids on the wire differ, in every run *)

Global Instance orderly_preorder : PreOrder orderly.
Proof.
  split.
  - intros w. unfold orderly. auto.
  - intros a b c (H1 & H2 & H3 & H4) (H5 & H6 & H7 & H8). unfold orderly.
    split; [congruence|]. split; [congruence|]. split; [lia | auto].
Qed.

Lemma sent_ids_app t u : sent_ids (t ++ u) = sent_ids t ++ sent_ids u.
Proof. apply omap_app. Qed.

Lemma sent_ids_logged w entry : sent_ids (logged w entry) = [].
Proof. unfold logged. destruct (o_debug _); reflexivity. Qed.

Lemma request_id_same w w' n :
  dateNow w' = dateNow w -> mathRandom w' = mathRandom w -> request_id w' n = request_id w n.
Proof. intros H1 H2. unfold request_id. rewrite H1, H2. reflexivity. Qed.

Lemma request_ids_same w w' ks :
  dateNow w' = dateNow w -> mathRandom w' = mathRandom w ->
  List.map (request_id w') ks = List.map (request_id w) ks.
Proof. intros H1 H2. apply List.map_ext. intros n. apply request_id_same; assumption. Qed.

Lemma NoDup_snoc {A} (l : list A) x : NoDup l -> x ∉ l -> NoDup (l ++ [x]).
Proof.
  intros Hl Hx. apply NoDup_app. split; [exact Hl|]. split; [|apply NoDup_singleton].
  intros y Hy Hy'. apply list_elem_of_singleton in Hy'. subst y. exact (Hx Hy).
Qed.

(** The counter went up by one, and the id made of it went out or did
    not. *)
Lemma counted_next w w' :
  dateNow w' = dateNow w -> mathRandom w' = mathRandom w ->
  requestIdCounter (client w') = S (requestIdCounter (client w)) ->
  sent_ids (trace w') = sent_ids (trace w) \/
  sent_ids (trace w')
  = sent_ids (trace w) ++ [request_id w (S (requestIdCounter (client w)))] ->
  counted w -> counted w'.
Proof.
  intros H1 H2 H3 H4 (ks & E & Hn & Hk). unfold counted. rewrite H3.
  assert (Hk' : Forall (fun k => k <= S (requestIdCounter (client w))) ks).
  { eapply Forall_impl; [exact Hk|]. cbn. intros. lia. }
  destruct H4 as [H4|H4].
  - exists ks. rewrite H4, E, (request_ids_same w w') by assumption. auto.
  - exists (ks ++ [S (requestIdCounter (client w))]).
    rewrite H4, E, List.map_app, (request_ids_same w w') by assumption. cbn [List.map].
    rewrite (request_id_same w w') by assumption.
    split; [reflexivity|]. split.
    + apply NoDup_snoc; [exact Hn|]. intros Hin.
      rewrite Forall_forall in Hk. specialize (Hk _ Hin). lia.
    + apply Forall_app. split; [exact Hk'|]. repeat constructor.
Qed.

Lemma counted_same w w' :
  dateNow w' = dateNow w -> mathRandom w' = mathRandom w ->
  requestIdCounter (client w) <= requestIdCounter (client w') ->
  sent_ids (trace w') = sent_ids (trace w) ->
  counted w -> counted w'.
Proof.
  intros H1 H2 H3 H4 (ks & E & Hn & Hk). exists ks.
  rewrite H4, E, (request_ids_same w w') by assumption.
  split; [reflexivity|]. split; [exact Hn|].
  eapply Forall_impl; [exact Hk|]. cbn. intros. lia.
Qed.

Ltac sent_simpl :=
  unfold sent_ids, logged; rewrite ?omap_app; cbn [omap]; rewrite ?app_nil_r;
  repeat case_match; cbn [omap app]; rewrite ?app_nil_r.

Ltac orderly_fin :=
  solve [ intros ?w; cbv beta iota zeta delta [exec bind ret get_world update modify tell snd fst];
          repeat case_match; unfold orderly; proj_simpl;
          (split; [reflexivity | split; [reflexivity | split; [lia|]]]);
          apply counted_same; proj_simpl; try reflexivity; try lia;
          sent_simpl; reflexivity ].

Ltac od m := unfold m, get_client; keeps_go orderly_fin.

(** Code that makes an id and sends it, run on [w]. *)
Ltac orderly_direct w :=
  unfold _generateRequestId, _sendRequest, _log, settle_caller;
  cbv beta iota zeta delta
    [exec bind ret get_world update get_client modify tell when setTimeout promise_state
     set_promise ws_readyState current_readyState socket_state snd fst];
  proj_simpl;
  destruct (ws (client w)) as [?s|]; proj_simpl;
  [ destruct (readyState <$> nth_error (sockets w) s) as [[|[|?r]]|]; proj_simpl | ];
  destruct (o_debug (options (client w))); proj_simpl;
  repeat match goal with
         | |- context [nth_error (promises w) ?p] =>
             destruct (nth_error (promises w) p) as [[?|?]|]; proj_simpl
         end;
  unfold orderly; proj_simpl;
  (split; [reflexivity | split; [reflexivity | split; [lia|]]]);
  apply counted_next; proj_simpl; try reflexivity;
  sent_simpl; unfold request_id; proj_simpl; auto.

Lemma orderly_log e : keeps orderly (_log e). Proof. od _log. Qed.
Lemma orderly_setTimeout t d : keeps orderly (setTimeout t d).
Proof. unfold setTimeout. orderly_fin. Qed.
Lemma orderly_clearTimeout t : keeps orderly (clearTimeout t). Proof. od clearTimeout. Qed.
#[export] Hint Resolve orderly_log orderly_setTimeout orderly_clearTimeout : keeps.
Lemma orderly_setInterval t d : keeps orderly (setInterval t d). Proof. od setInterval. Qed.
Lemma orderly_clearInterval t : keeps orderly (clearInterval t). Proof. od clearInterval. Qed.
Lemma orderly_new_promise : keeps orderly new_promise. Proof. od new_promise. Qed.
Lemma orderly_promise_state p : keeps orderly (promise_state p). Proof. od promise_state. Qed.
Lemma orderly_set_promise p s : keeps orderly (set_promise p s). Proof. od set_promise. Qed.
#[export] Hint Resolve orderly_setInterval orderly_clearInterval orderly_new_promise orderly_promise_state orderly_set_promise : keeps.
Lemma orderly_settle_caller p o : keeps orderly (settle_caller p o). Proof. od settle_caller. Qed.
Lemma orderly_await p k : keeps orderly (await p k). Proof. od await. Qed.
Lemma orderly_ws_readyState : keeps orderly ws_readyState. Proof. od ws_readyState. Qed.
Lemma orderly_set_readyState s r : keeps orderly (set_readyState s r). Proof. od set_readyState. Qed.
Lemma orderly_install_handlers s h : keeps orderly (install_handlers s h). Proof. od install_handlers. Qed.
Lemma orderly_handlers_of s : keeps orderly (handlers_of s). Proof. od handlers_of. Qed.
#[export] Hint Resolve orderly_settle_caller orderly_await orderly_ws_readyState orderly_set_readyState orderly_install_handlers orderly_handlers_of : keeps.
Lemma orderly_new_WebSocket u : keeps orderly (new_WebSocket u). Proof. od new_WebSocket. Qed.
Lemma orderly_ws_close s a : keeps orderly (ws_close s a). Proof. od ws_close. Qed.
Lemma orderly_call_listener e l : keeps orderly (call_listener e l). Proof. od call_listener. Qed.
#[export] Hint Resolve orderly_new_WebSocket orderly_ws_close orderly_call_listener : keeps.
Lemma orderly_emit e : keeps orderly (_emit e). Proof. od _emit. Qed.
Lemma orderly_on e l : keeps orderly (on e l). Proof. od on. Qed.
Lemma orderly_off e l : keeps orderly (off e l). Proof. od off. Qed.
Lemma orderly_generateRequestId : keeps orderly _generateRequestId.
Proof.
  intros w. unfold _generateRequestId. run_m. unfold orderly. proj_simpl.
  split; [reflexivity|]. split; [reflexivity|]. split; [lia|].
  apply counted_next; auto.
Qed.
#[export] Hint Resolve orderly_generateRequestId : keeps.
#[export] Hint Resolve orderly_emit orderly_on orderly_off : keeps.
Lemma orderly_connect : keeps orderly connect. Proof. od connect. Qed.
Lemma orderly_subscribe_send t ps f p : keeps orderly (subscribe_send t ps f p).
Proof. intros w. unfold subscribe_send. orderly_direct w. Qed.
#[export] Hint Resolve orderly_subscribe_send : keeps.
#[export] Hint Resolve orderly_connect : keeps.
Lemma orderly_subscribe t ps f : keeps orderly (subscribe t ps f). Proof. od subscribe. Qed.
Lemma orderly_unsubscribe i : keeps orderly (unsubscribe i).
Proof.
  unfold unsubscribe, get_client.
  apply keeps_bind; [exact _ | auto with keeps nocore | intros p].
  apply keeps_bind; [exact _ | | intros c].
  { apply keeps_bind; [exact _ | apply keeps_get_world; exact _ | intros ?; apply keeps_ret; exact _]. }
  destruct (negb _); [keeps_go orderly_fin|].
  apply keeps_bind; [exact _ | auto with keeps nocore | intros r].
  destruct r as [[|[|r]]|]; try (solve [keeps_go orderly_fin]).
  intros w. orderly_direct w.
Qed.
#[export] Hint Resolve orderly_unsubscribe : keeps.
#[export] Hint Resolve orderly_subscribe : keeps.
Lemma orderly_resubscribe n : forall i, keeps orderly (resubscribe n i).
Proof. induction n; intros i; cbn [resubscribe]; unfold get_client; keeps_go orderly_fin. Qed.
#[export] Hint Resolve orderly_resubscribe : keeps.
Lemma orderly_resubscribe_from i : keeps orderly (resubscribe_from i). Proof. od resubscribe_from. Qed.
Lemma orderly_disconnect_finish d : keeps orderly (disconnect_finish d). Proof. od disconnect_finish. Qed.
#[export] Hint Resolve orderly_resubscribe_from orderly_disconnect_finish : keeps.
Lemma orderly_allSettled_check d : keeps orderly (allSettled_check d). Proof. od allSettled_check. Qed.
#[export] Hint Resolve orderly_allSettled_check : keeps.
Lemma orderly_resume_request k o : keeps orderly (resume_request k o). Proof. od resume_request. Qed.
#[export] Hint Resolve orderly_resume_request : keeps.
Lemma orderly_settle_request p o : keeps orderly (settle_request p o). Proof. od settle_request. Qed.
#[export] Hint Resolve orderly_settle_request : keeps.
Lemma orderly_pending_resolve p r : keeps orderly (pending_resolve p r). Proof. od pending_resolve. Qed.
Lemma orderly_message_failed e : keeps orderly (message_failed e). Proof. od message_failed. Qed.
#[export] Hint Resolve orderly_pending_resolve orderly_message_failed : keeps.
Lemma orderly_handleMessage' m : keeps orderly (_handleMessage m). Proof. od _handleMessage. Qed.
Lemma orderly_scheduleReconnect : keeps orderly _scheduleReconnect. Proof. od _scheduleReconnect. Qed.
#[export] Hint Resolve orderly_handleMessage' orderly_scheduleReconnect : keeps.
Lemma orderly_resume k o : keeps orderly (resume k o). Proof. od resume. Qed.
#[export] Hint Resolve orderly_resume : keeps.
Lemma orderly_settle p o : keeps orderly (settle p o). Proof. od settle. Qed.
#[export] Hint Resolve orderly_settle : keeps.
Lemma orderly_settle_all l : keeps orderly (settle_all l). Proof. od settle_all. Qed.
Lemma orderly_reconnect_now : keeps orderly reconnect_now. Proof. od reconnect_now. Qed.
Lemma orderly_handleOpen h : keeps orderly (handleOpen h). Proof. od handleOpen. Qed.
Lemma orderly_handleMessage m : keeps orderly (handleMessage m). Proof. od handleMessage. Qed.
Lemma orderly_handleError h : keeps orderly (handleError h). Proof. od handleError. Qed.
Lemma orderly_reject_pending n : forall i, keeps orderly (reject_pending n i).
Proof. induction n; intros i; cbn [reject_pending]; unfold get_client; keeps_go orderly_fin. Qed.
#[export] Hint Resolve orderly_settle_all orderly_reconnect_now orderly_handleOpen orderly_handleMessage orderly_handleError orderly_reject_pending : keeps.
Lemma orderly_handleClose h c r : keeps orderly (handleClose h c r). Proof. od handleClose. Qed.
Lemma orderly_unsubscribe_each n : forall i, keeps orderly (unsubscribe_each n i).
Proof. induction n; intros i; cbn [unsubscribe_each]; unfold get_client; keeps_go orderly_fin. Qed.
#[export] Hint Resolve orderly_handleClose orderly_unsubscribe_each : keeps.
Lemma orderly_disconnect : keeps orderly disconnect. Proof. od disconnect. Qed.
Lemma orderly_run_timer i t : keeps orderly (run_timer i t). Proof. od run_timer. Qed.
#[export] Hint Resolve orderly_disconnect orderly_run_timer : keeps.
Lemma orderly_fire i : keeps orderly (fire i). Proof. od fire. Qed.
Lemma orderly_on_socket s f : (forall h, keeps orderly (f h)) -> keeps orderly (on_socket s f).
Proof. intros H. od on_socket. Qed.
#[export] Hint Resolve orderly_fire orderly_on_socket : keeps.
Lemma orderly_step e : keeps orderly (step e).
Proof. unfold step. keeps_go orderly_fin. Qed.


Lemma orderly_run events : forall w, orderly w (run events w).
Proof.
  induction events as [|e events IH]; intros w; cbn [run].
  - reflexivity.
  - transitivity (exec (step e) w); [exact (orderly_step e w) | exact (IH _)].
Qed.

(** In every run, whatever the clock and the random source return, no
    two frames the client sends carry the same request id: each id is
    that of a counter value the client has used, and no value is used
    for two frames. So a response can only match the request it answers. *)
Theorem request_ids_never_repeat (c : Client) (now : nat -> N) (random : nat -> string)
    (impl : string -> option JsError) (events : list Event) :
  let w := run events (with_webSocketThrows impl (boot c now random)) in
  NoDup (sent_ids (trace w)) /\
  Forall (fun id => exists k,
            k <= requestIdCounter (client w) /\
            id = JStr (pretty (now k) +:+ "-" +:+ pretty k +:+ "-" +:+ random k))
    (sent_ids (trace w)).
Proof.
  intros w.
  assert (H0 : counted (with_webSocketThrows impl (boot c now random))).
  { exists []. repeat split; constructor. }
  destruct (orderly_run events (with_webSocketThrows impl (boot c now random))) as (Hd & Hm & _ & H). fold w in Hd, Hm, H.
  destruct (H H0) as (ks & E & Hn & Hk). rewrite E. split.
  - change (List.map (request_id w) ks) with (request_id w <$> ks).
    apply NoDup_fmap_2_strong; [|exact Hn]. intros x y _ _. apply request_id_inj.
  - rewrite List.Forall_map. eapply Forall_impl; [exact Hk|]. cbn. intros k Hle.
    exists k. split; [exact Hle|]. unfold request_id. rewrite Hd, Hm. reflexivity.
Qed.

(** ** With [autoReconnect] off the client never reconnects *)

Global Instance manual_preorder : PreOrder manual.
Proof.
  split.
  - intros w H. auto.
  - intros a b c H1 H2 Ha. destruct (H1 Ha) as [Hb E1]. destruct (H2 Hb) as [Hc E2].
    split; [exact Hc | congruence].
Qed.

Ltac manual_fin :=
  solve [ intros ?w; cbv beta iota zeta delta [exec bind ret get_world update modify tell snd fst];
          repeat case_match; unfold manual, hands_off, no_reconnect_timer, reconnect_events;
          proj_simpl; intros (? & ? & ?);
          (split; [ split; [ first [assumption | right; reflexivity]
                           | split; [ try assumption; try (apply filter_filter_nil; assumption)
                                    | try assumption;
                                      try (apply Forall_app; split; [assumption|];
                                           repeat constructor; discriminate) ] ]
                  | try reflexivity;
                    try (rewrite omap_app; cbn; rewrite app_nil_r; reflexivity) ]) ].

Ltac mn m := unfold m, get_client; keeps_go manual_fin.

Lemma manual_log e : keeps manual (_log e). Proof. mn _log. Qed.
Lemma manual_setTimeout t d : is_reconnect_task t = false -> keeps manual (setTimeout t d).
Proof.
  intros H w (Ha & Ht & Hp). unfold hands_off, no_reconnect_timer in *. cbn.
  split; [|reflexivity]. split; [exact Ha|]. split; [|exact Hp].
  rewrite List.filter_app, Ht. cbn. unfold is_reconnect_timer. cbn. rewrite H. reflexivity.
Qed.
#[export] Hint Resolve manual_setTimeout : keeps.
Lemma manual_clearTimeout t : keeps manual (clearTimeout t). Proof. mn clearTimeout. Qed.
#[export] Hint Resolve manual_log manual_clearTimeout : keeps.
Lemma manual_setInterval t d : is_reconnect_task t = false -> keeps manual (setInterval t d).
Proof. apply manual_setTimeout. Qed.
#[export] Hint Resolve manual_setInterval : keeps.
Lemma manual_clearInterval t : keeps manual (clearInterval t). Proof. mn clearInterval. Qed.
Lemma manual_new_promise : keeps manual new_promise.
Proof. unfold new_promise. manual_fin. Qed.
Lemma manual_promise_state p : keeps manual (promise_state p). Proof. mn promise_state. Qed.
Lemma manual_set_promise p s : s <> Pending Reconnect -> keeps manual (set_promise p s).
Proof.
  intros H w (Ha & Ht & Hp). unfold hands_off. cbn.
  split; [|reflexivity]. split; [exact Ha|]. split; [exact Ht|].
  apply Forall_insert; assumption.
Qed.
#[export] Hint Resolve manual_set_promise : keeps.
#[export] Hint Resolve manual_clearInterval manual_new_promise manual_promise_state : keeps.
Lemma manual_settle_caller p o : keeps manual (settle_caller p o). Proof. mn settle_caller. Qed.
Lemma manual_await p k : k <> Reconnect -> keeps manual (await p k).
Proof.
  intros H. unfold await. keeps_go manual_fin.
  all: apply manual_set_promise; intros E; apply H; congruence.
Qed.
#[export] Hint Resolve manual_await : keeps.
Lemma manual_ws_readyState : keeps manual ws_readyState. Proof. mn ws_readyState. Qed.
Lemma manual_set_readyState s r : keeps manual (set_readyState s r). Proof. mn set_readyState. Qed.
Lemma manual_install_handlers s h : keeps manual (install_handlers s h). Proof. mn install_handlers. Qed.
Lemma manual_handlers_of s : keeps manual (handlers_of s). Proof. mn handlers_of. Qed.
#[export] Hint Resolve manual_settle_caller manual_ws_readyState manual_set_readyState manual_install_handlers manual_handlers_of : keeps.
Lemma manual_new_WebSocket u : keeps manual (new_WebSocket u). Proof. mn new_WebSocket. Qed.
Lemma manual_ws_close s a : keeps manual (ws_close s a). Proof. mn ws_close. Qed.
Lemma manual_call_listener e l : keeps manual (call_listener e l). Proof. mn call_listener. Qed.
#[export] Hint Resolve manual_new_WebSocket manual_ws_close manual_call_listener : keeps.
Lemma manual_emit e : kind_of e <> EvReconnect -> keeps manual (_emit e).
Proof. intros H. destruct e; try (exfalso; apply H; reflexivity); mn _emit. Qed.
#[export] Hint Resolve manual_emit : keeps.
Lemma manual_on e l : keeps manual (on e l). Proof. mn on. Qed.
Lemma manual_off e l : keeps manual (off e l). Proof. mn off. Qed.
Lemma manual_generateRequestId : keeps manual _generateRequestId. Proof. mn _generateRequestId. Qed.
Lemma manual_sendRequest m p i : keeps manual (_sendRequest m p i). Proof. mn _sendRequest. Qed.
#[export] Hint Resolve manual_on manual_off manual_generateRequestId manual_sendRequest : keeps.
Lemma manual_connect : keeps manual connect. Proof. mn connect. Qed.
Lemma manual_subscribe_send t ps f p : keeps manual (subscribe_send t ps f p).
Proof. mn subscribe_send. Qed.
#[export] Hint Resolve manual_connect manual_subscribe_send : keeps.
Lemma manual_subscribe t ps f : keeps manual (subscribe t ps f). Proof. mn subscribe. Qed.
Lemma manual_unsubscribe i : keeps manual (unsubscribe i). Proof. mn unsubscribe. Qed.
#[export] Hint Resolve manual_subscribe manual_unsubscribe : keeps.
Lemma manual_resubscribe n : forall i, keeps manual (resubscribe n i).
Proof. induction n; intros i; cbn [resubscribe]; unfold get_client; keeps_go manual_fin. Qed.
#[export] Hint Resolve manual_resubscribe : keeps.
Lemma manual_resubscribe_from i : keeps manual (resubscribe_from i). Proof. mn resubscribe_from. Qed.
Lemma manual_disconnect_finish d : keeps manual (disconnect_finish d). Proof. mn disconnect_finish. Qed.
#[export] Hint Resolve manual_resubscribe_from manual_disconnect_finish : keeps.
Lemma manual_allSettled_check d : keeps manual (allSettled_check d). Proof. mn allSettled_check. Qed.
#[export] Hint Resolve manual_allSettled_check : keeps.
Lemma manual_resume_request k o : keeps manual (resume_request k o). Proof. mn resume_request. Qed.
#[export] Hint Resolve manual_resume_request : keeps.
Lemma manual_settle_request p o : keeps manual (settle_request p o). Proof. mn settle_request. Qed.
#[export] Hint Resolve manual_settle_request : keeps.
Lemma manual_pending_resolve p r : keeps manual (pending_resolve p r). Proof. mn pending_resolve. Qed.
Lemma manual_message_failed e : keeps manual (message_failed e). Proof. mn message_failed. Qed.
#[export] Hint Resolve manual_pending_resolve manual_message_failed : keeps.
Lemma manual_handleMessage' m : keeps manual (_handleMessage m). Proof. mn _handleMessage. Qed.
#[export] Hint Resolve manual_handleMessage' : keeps.
Lemma manual_resume k o : k <> Reconnect -> keeps manual (resume k o).
Proof. intros H. destruct k; try (exfalso; apply H; reflexivity); mn resume. Qed.
Lemma manual_settle p o : keeps manual (settle p o).
Proof.
  intros w H. unfold settle, promise_state. rewrite exec_bind.
  change (exec (let* w := get_world in ret (nth_error (promises w) p)) w) with w.
  change (fst ((let* w := get_world in ret (nth_error (promises w) p)) w))
    with (nth_error (promises w) p).
  destruct (nth_error (promises w) p) as [[k|o']|] eqn:E; try (split; [exact H | reflexivity]).
  assert (Hk : k <> Reconnect).
  { destruct H as (_ & _ & Hp). rewrite List.Forall_forall in Hp.
    apply nth_error_In in E. intros ->. exact (Hp _ E eq_refl). }
  clear E. revert w H. change (keeps manual (set_promise p (Done o) ;; tell (Settle p o) ;; resume k o)).
  assert (Hr := manual_resume k o Hk). keeps_go manual_fin.
Qed.
#[export] Hint Resolve manual_settle : keeps.
Lemma manual_settle_all l : keeps manual (settle_all l). Proof. mn settle_all. Qed.
Lemma manual_handleOpen h : keeps manual (handleOpen h). Proof. mn handleOpen. Qed.
Lemma manual_handleMessage m : keeps manual (handleMessage m). Proof. mn handleMessage. Qed.
Lemma manual_handleError h : keeps manual (handleError h). Proof. mn handleError. Qed.
Lemma manual_reject_pending n : forall i, keeps manual (reject_pending n i).
Proof. induction n; intros i; cbn [reject_pending]; unfold get_client; keeps_go manual_fin. Qed.
#[export] Hint Resolve manual_settle_all manual_handleOpen manual_handleMessage manual_handleError manual_reject_pending : keeps.
Lemma manual_handleClose h c r : keeps manual (handleClose h c r).
Proof.
  unfold handleClose.
  apply keeps_bind; [exact _ | auto with keeps nocore | intros ?].
  cbv zeta.
  apply keeps_bind; [exact _ | auto with keeps nocore | intros ?].
  apply keeps_bind; [exact _ | auto with keeps nocore | intros ?].
  apply keeps_bind; [exact _ | unfold get_client; keeps_go manual_fin | intros ?].
  apply keeps_bind; [exact _ | auto with keeps nocore | intros rejected].
  intros w H. rewrite exec_get_client, exec_seq. change (exec (ret ?a) ?x) with x.
  destruct H as (Ha & Ht & Hp).
  assert (E : negb (isManualClose (client w)) && o_autoReconnect (options (client w)) = false).
  { destruct Ha as [Ha|Ha]; rewrite Ha; [apply andb_false_r | reflexivity]. }
  rewrite E. cbn [when]. split; [|reflexivity]. repeat split; assumption.
Qed.
#[export] Hint Resolve manual_handleClose : keeps.
Lemma manual_unsubscribe_each n : forall i, keeps manual (unsubscribe_each n i).
Proof. induction n; intros i; cbn [unsubscribe_each]; unfold get_client; keeps_go manual_fin. Qed.
#[export] Hint Resolve manual_unsubscribe_each : keeps.
Lemma manual_disconnect : keeps manual disconnect. Proof. mn disconnect. Qed.
Lemma manual_run_timer i t : t <> ReconnectTimer -> keeps manual (run_timer i t).
Proof. intros H. destruct t; try (exfalso; apply H; reflexivity); mn run_timer. Qed.
#[export] Hint Resolve manual_disconnect : keeps.
Lemma manual_fire i : keeps manual (fire i).
Proof.
  intros w H. unfold fire. rewrite exec_get_world.
  destruct (armed i w) as [t|] eqn:E; [|split; [exact H | reflexivity]].
  assert (Ht : timer_task t <> ReconnectTimer).
  { destruct H as (_ & Hn & _). unfold armed in E. apply find_some in E as [Hin _].
    intros Hr. unfold no_reconnect_timer in Hn.
    assert (Hf : In t (List.filter is_reconnect_timer (timers w))).
    { apply List.filter_In. split; [exact Hin|]. unfold is_reconnect_timer. rewrite Hr. reflexivity. }
    rewrite Hn in Hf. destruct Hf. }
  clear E. revert w H.
  change (keeps manual (match timer_task t with
                        | CheckInterval _ => ret tt
                        | _ => clearTimeout i
                        end ;; run_timer i (timer_task t))).
  assert (Hr := manual_run_timer i (timer_task t) Ht).
  apply keeps_bind; [exact _ | destruct (timer_task t); auto with keeps nocore; apply keeps_ret; exact _
                    | intros _; exact Hr].
Qed.
#[export] Hint Resolve manual_fire : keeps.
Lemma manual_on_socket s f : (forall h, keeps manual (f h)) -> keeps manual (on_socket s f).
Proof. intros H. mn on_socket. Qed.
#[export] Hint Resolve manual_on_socket : keeps.
Lemma manual_step e : keeps manual (step e).
Proof. unfold step. keeps_go manual_fin. Qed.


Lemma manual_run events : forall w, manual w (run events w).
Proof.
  induction events as [|e events IH]; intros w; cbn [run].
  - reflexivity.
  - transitivity (exec (step e) w); [exact (manual_step e w) | exact (IH _)].
Qed.

(** A client made with [autoReconnect: false] never reconnects on its
    own, whatever happens to its sockets: in every run no [reconnect]
    event is emitted and no reconnect timer is ever armed. *)
Theorem no_reconnect_without_autoReconnect (o : SubscriptionOptions) (c : Client)
    (now : nat -> N) (random : nat -> string) (impl : string -> option JsError) (events : list Event) :
  new_XRpcWebSocketClient o = inr c ->
  autoReconnect o = Some false ->
  let w := run events (with_webSocketThrows impl (boot c now random)) in
  reconnect_events (trace w) = [] /\
  List.filter is_reconnect_timer (timers w) = [].
Proof.
  intros Hc Ha w.
  assert (c = initial o) as ->.
  { unfold new_XRpcWebSocketClient in Hc.
    destruct (String.eqb (apiKey o) ""); [discriminate|].
    destruct (String.eqb (network o) ""); [discriminate|]. congruence. }
  assert (H0 : hands_off (with_webSocketThrows impl (boot (initial o) now random))).
  { unfold hands_off, with_webSocketThrows, boot, initial. cbn. rewrite Ha. split; [left; reflexivity|]. split; constructor. }
  destruct (manual_run events _ H0) as ((_ & Ht & _) & He). split; [exact He | exact Ht].
Qed.

Lemma no_reconnect_without_autoReconnect_witness :
  reconnect_events (trace
    (run [CallConnect; SocketOpen 0; SocketClose 0 (Some 1006%Z) ""]
       (with_webSocketThrows (fun _ => None)
          (boot (initial {| network := "eth-mainnet"; apiKey := "key"; baseUrl := None;
                            timeout := None; debug := None; autoReconnect := Some false;
                            reconnectDelay := None; maxReconnectAttempts := None |})
             (fun _ => 1700000000000%N) (fun _ => "k3x9"))))) = [].
Proof.
  exact (proj1 (no_reconnect_without_autoReconnect
                  {| network := "eth-mainnet"; apiKey := "key"; baseUrl := None;
                     timeout := None; debug := None; autoReconnect := Some false;
                     reconnectDelay := None; maxReconnectAttempts := None |}
                  _ (fun _ => 1700000000000%N) (fun _ => "k3x9") (fun _ => None)
                  [CallConnect; SocketOpen 0; SocketClose 0 (Some 1006%Z) ""] eq_refl eq_refl)).
Defined.

(** [disconnect] hands the client over for good: called by the
    application as a task of its own (not by a listener of the client,
    which the model does not have calling back into it), while no
    reconnect attempt is under way and no reconnect timer but the stored
    one is armed, it is never followed by a reconnect, whatever the tasks
    after it are. The flag it sets is reset by the reconnect timer alone,
    so this holds of the connection it closes and as well of every
    connection the application opens later with [connect] or
    [subscribe]: their loss is not followed by a reconnect either. *)
Theorem disconnect_ends_reconnecting (w : World) (events : list Event) :
  Forall (fun s => s <> Pending Reconnect) (promises w) ->
  List.filter is_reconnect_timer
    (match reconnectTimeoutId (client w) with
     | Some t => without [t] (timers w)
     | None => timers w
     end) = [] ->
  let w' := run (CallDisconnect :: events) w in
  reconnect_events (trace w') = reconnect_events (trace w) /\
  List.filter is_reconnect_timer (timers w') = [].
Proof.
  intros Hp Ht w'.
  set (clearing := match reconnectTimeoutId (client w) with
                   | Some t => clearTimeout t ;; modify (with_reconnectTimeoutId None)
                   | None => ret tt
                   end).
  set (w1 := exec clearing (exec (modify (with_isManualClose true)) (exec new_promise w))).
  assert (H1 : hands_off w1 /\ reconnect_events (trace w1) = reconnect_events (trace w)).
  { unfold w1, clearing, hands_off, no_reconnect_timer.
    destruct (reconnectTimeoutId (client w)) as [t|]; run_m;
      (split; [|reflexivity]); (split; [right; reflexivity|]);
      (split; [rewrite ?clear_without; exact Ht|]);
      (apply Forall_app; split; [exact Hp | repeat constructor; discriminate]). }
  set (d := length (promises w)).
  set (m := let* unsubscribePromises :=
              unsubscribe_each (length (subscriptions (client w))) 0 in
            forEach (fun q => await q (AllSettled d) ;; ret tt) unsubscribePromises ;;
            update (fun w => with_allSettled ((d, unsubscribePromises) :: allSettled w) w) ;;
            ret d).
  assert (Hm : keeps manual m) by (unfold m; keeps_go manual_fin).
  assert (E : exec disconnect w = exec m w1).
  { unfold disconnect. rewrite exec_bind, exec_seq, exec_get_client, exec_seq. reflexivity. }
  destruct H1 as [H1 E1].
  destruct (Hm w1 H1) as [H3 E3].
  destruct (manual_allSettled_check (fst (disconnect w)) (exec m w1) H3) as [H5 E5].
  destruct (manual_run events _ H5) as [(_ & H4 & _) E4].
  unfold w'. cbn [run step]. rewrite exec_bind, E. split; [congruence | exact H4].
Qed.

Lemma disconnect_ends_reconnecting_witness :
  reconnect_events (trace
    (run [CallDisconnect; SocketClose 0 (Some 1000%Z) "Client disconnect"; CallConnect;
          SocketOpen 1; SocketClose 1 (Some 1006%Z) ""] subscribed_world)) = [].
Proof.
  refine (proj1 (disconnect_ends_reconnecting subscribed_world
                   [SocketClose 0 (Some 1000%Z) "Client disconnect"; CallConnect;
                    SocketOpen 1; SocketClose 1 (Some 1006%Z) ""] _ _)).
  - vm_compute. repeat constructor; discriminate.
  - reflexivity.
Defined.

(** ** A reconnect attempt *)

Lemma reject_pending_nothing n : forall i w,
  JsMap.entries (pendingRequests (client w)) = [] ->
  reject_pending n i w = ([], w).
Proof.
  induction n as [|n IH]; intros i w H; cbn [reject_pending]; [reflexivity|].
  unfold get_client. cbv beta iota zeta delta [bind ret get_world].
  pose proof (no_entries_slot (pendingRequests (client w)) i) as Hs.
  destruct (nth_error (pendingRequests (client w)) i) as [[[k v]|]|]; auto.
  exfalso. eapply Hs; eauto.
Qed.

(** The task of a [close] event while no request is pending. *)
Lemma exec_socket_close_idle w s k h code reason :
  nth_error (sockets w) s = Some k ->
  handlers k = Some h ->
  JsMap.entries (pendingRequests (client w)) = [] ->
  exec (step (SocketClose s code reason)) w
  = exec (when (negb (isManualClose (client w)) && o_autoReconnect (options (client w)))
            _scheduleReconnect)
      (says (logged w (LogClosed (default 1000%Z code) reason) ++
             emitted w (OnClose (default 1000%Z code) reason))
         (exec (clearTimeout (connectionTimeout h)) (exec (set_readyState s CLOSED) w))).
Proof.
  intros Hk Hh Hp. set (w0 := exec (set_readyState s CLOSED) w).
  assert (H0 : nth_error (sockets w0) s = Some {| readyState := CLOSED; handlers := Some h |}).
  { unfold w0. run_m. rewrite Hk. proj_simpl. rewrite <- Hh. apply (nth_error_insert _ _ k), Hk. }
  assert (Eo : on_socket s (fun h => handleClose h code reason) w0 = handleClose h code reason w0).
  { unfold on_socket, handlers_of. cbv beta iota zeta delta [bind ret get_world fst snd].
    rewrite H0. reflexivity. }
  set (w1 := says (logged w (LogClosed (default 1000%Z code) reason) ++
                   emitted w (OnClose (default 1000%Z code) reason))
               (exec (clearTimeout (connectionTimeout h)) w0)).
  assert (E1 : exec (_emit (OnClose (default 1000%Z code) reason))
                 (exec (_log (LogClosed (default 1000%Z code) reason))
                    (exec (clearTimeout (connectionTimeout h)) w0)) = w1).
  { rewrite exec_log, exec_emit, says_says. unfold w1, w0, emitted, logged. run_m.
    rewrite Hk. reflexivity. }
  assert (Hp1 : JsMap.entries (pendingRequests (client w1)) = []).
  { unfold w1, w0. run_m. rewrite Hk. exact Hp. }
  assert (Hfst : fst (handleClose h code reason w0) = []).
  { unfold handleClose. cbv zeta. rewrite !result_bind, E1.
    change (exec get_client ?x) with x. cbn [ret fst].
    rewrite (reject_pending_nothing _ 0 w1 Hp1). reflexivity. }
  assert (Hexec : exec (handleClose h code reason) w0
                  = exec (when (negb (isManualClose (client w)) &&
                                o_autoReconnect (options (client w))) _scheduleReconnect) w1).
  { unfold handleClose. cbv zeta. rewrite !exec_seq, E1. rewrite exec_get_client.
    rewrite exec_bind. unfold exec at 2. rewrite (reject_pending_nothing _ 0 w1 Hp1). cbn [snd].
    rewrite exec_get_client, exec_seq. change (exec (ret ?a) ?x) with x.
    unfold w1, w0. run_m. rewrite Hk. reflexivity. }
  cbn [step]. rewrite exec_seq. fold w0. rewrite exec_bind.
  unfold exec at 2. rewrite Eo. fold (exec (handleClose h code reason) w0).
  rewrite Hfst, Hexec. reflexivity.
Qed.

Lemma scheduleReconnect_next w :
  reached (reconnectAttempts (client w)) (o_maxReconnectAttempts (options (client w))) = false ->
  let attempt := S (reconnectAttempts (client w)) in
  let delay := o_reconnectDelay (options (client w)) in
  exec _scheduleReconnect w
  = says (logged w (LogScheduling attempt delay) ++ emitted w (OnReconnect attempt))
      (with_client
         (with_reconnectTimeoutId (Some (nextTimer w))
            (with_reconnectAttempts attempt (client w)))
         (with_timers
            (timers w ++ [{| timer_id := nextTimer w; timer_delay := delay;
                             timer_task := ReconnectTimer |}])
            (S (nextTimer w)) w)).
Proof.
  intros Hr attempt delay. unfold _scheduleReconnect. rewrite exec_get_client, Hr.
  rewrite !exec_seq, exec_log, exec_emit, says_says. unfold emitted, logged. run_m. reflexivity.
Qed.

Lemma reached_before a bound : reached (S a) bound = false -> reached a bound = false.
Proof.
  destruct bound as [n|]; cbn; [|auto]. intros H.
  apply Nat.leb_gt in H. apply Nat.leb_gt. lia.
Qed.

Lemma reconnect_events_emitted w e :
  reconnect_events (emitted w e)
  = match e with OnReconnect k => [k] | _ => [] end.
Proof.
  unfold emitted.
  change (Emit e :: ?t) with ([Emit e] ++ t).
  rewrite reconnect_events_app, (reconnect_events_plain _ (plain_listeners _ _ _)), app_nil_r.
  destruct e; reflexivity.
Qed.

Lemma reconnect_events_logged w entry : reconnect_events (logged w entry) = [].
Proof. apply reconnect_events_plain, plain_logged. Qed.

Lemma sockets_made_app t u : sockets_made (t ++ u) = sockets_made t ++ sockets_made u.
Proof. apply omap_app. Qed.

Lemma sockets_made_logged w entry : sockets_made (logged w entry) = [].
Proof. unfold logged. destruct (o_debug _); reflexivity. Qed.

Lemma sockets_made_listeners w e ls : sockets_made (flat_map (listener_effects w e) ls) = [].
Proof.
  induction ls as [|l ls IH]; [reflexivity|].
  cbn [flat_map]. rewrite sockets_made_app, IH, app_nil_r.
  unfold listener_effects. destruct (fn_throws l); [|reflexivity].
  change (ListenerCall l e :: ?t) with ([ListenerCall l e] ++ t).
  rewrite sockets_made_app, sockets_made_logged. reflexivity.
Qed.

Lemma sockets_made_emitted w e : sockets_made (emitted w e) = [].
Proof.
  unfold emitted. change (Emit e :: ?t) with ([Emit e] ++ t).
  rewrite sockets_made_app, sockets_made_listeners. reflexivity.
Qed.

Lemma settlements_listeners w e ls : settlements (flat_map (listener_effects w e) ls) = [].
Proof.
  induction ls as [|l ls IH]; [reflexivity|].
  cbn [flat_map]. rewrite settlements_app, IH, app_nil_r.
  unfold listener_effects. destruct (fn_throws l); [|reflexivity].
  change (ListenerCall l e :: ?t) with ([ListenerCall l e] ++ t).
  rewrite settlements_app, settlements_logged. reflexivity.
Qed.

Lemma settlements_emitted w e : settlements (emitted w e) = [].
Proof.
  unfold emitted. change (Emit e :: ?t) with ([Emit e] ++ t).
  rewrite settlements_app, settlements_listeners. reflexivity.
Qed.

(** When the reconnect timer fires with no socket that is open or
    connecting, the manual-close flag is reset and [connect] runs. When
    the runtime makes a socket for the URL of the client, that is one
    socket with its connection timeout, and the callback of the timer
    waits for it to open; nothing is replayed yet and no attempt is
    counted. When the constructor throws, the attempt fails at once: the
    [catch] of the callback calls [_scheduleReconnect], which counts the
    next attempt, emits [reconnect] and arms the next timer unless the
    maximum is reached. *)
Theorem reconnect_timer_starts_an_attempt (w : World) (id : nat) (t : Timer) :
  armed id w = Some t ->
  timer_task t = ReconnectTimer ->
  current_readyState w <> Some OPEN ->
  current_readyState w <> Some CONNECTING ->
  let s := length (sockets w) in
  let p := length (promises w) in
  let url := _buildWebSocketUrl (client w) in
  let a := reconnectAttempts (client w) in
  let w' := run [TimerFired id] w in
  isManualClose (client w') = false /\
  subscriptions (client w') = subscriptions (client w) /\
  match webSocketThrows w url with
  | None =>
      trace w' = trace w ++ logged w (LogConnecting url) ++ [NewWebSocket url s] /\
      ws (client w') = Some s /\
      nth_error (sockets w') s
      = Some {| readyState := CONNECTING;
                handlers := Some {| connectPromise := p; connectionTimeout := nextTimer w |} |} /\
      nth_error (promises w') p = Some (Pending Reconnect) /\
      timers w'
      = without [id] (timers w) ++
        [{| timer_id := nextTimer w; timer_delay := o_timeout (options (client w));
            timer_task := ConnectionTimeout p |}] /\
      reconnectAttempts (client w') = a
  | Some error =>
      let again := negb (reached a (o_maxReconnectAttempts (options (client w)))) in
      sockets_made (trace w') = sockets_made (trace w) /\
      ws (client w') = ws (client w) /\
      settlements (trace w') = settlements (trace w) ++ [(p, Rejected error)] /\
      reconnect_events (trace w') = reconnect_events (trace w) ++ (if again then [S a] else []) /\
      reconnectAttempts (client w') = (if again then S a else a) /\
      timers w'
      = without [id] (timers w) ++
        (if again
         then [{| timer_id := nextTimer w; timer_delay := o_reconnectDelay (options (client w));
                  timer_task := ReconnectTimer |}]
         else [])
  end.
Proof.
  intros Ha Ht H1 H2 s p url a w'.
  set (w0 := exec (modify (with_isManualClose false)) (exec (clearTimeout id) w)).
  assert (E0 : w' = exec (let* r := await p Reconnect in
                          match r with Some o => resume Reconnect o | None => ret tt end)
                      (exec connect w0) /\ fst (connect w0) = fst (connect w0)).
  { split; [|reflexivity]. unfold w'. cbn [run step]. unfold fire.
    rewrite exec_get_world, Ha, Ht, exec_seq. unfold run_timer, reconnect_now.
    rewrite exec_seq. fold w0. rewrite exec_bind.
    destruct (webSocketThrows w url) as [error|] eqn:Hi.
    - rewrite (connect_refused w0 error H1 H2 Hi). reflexivity.
    - rewrite (connect_fresh w0 H1 H2 Hi). reflexivity. }
  destruct E0 as [E0 _].
  destruct (webSocketThrows w url) as [error|] eqn:Hi.
  - pose proof (connect_refused w0 error H1 H2 Hi) as Hc.
    assert (He : exec connect w0 = snd (connect w0)) by reflexivity.
    rewrite Hc in He. cbn [snd] in He.
    set (w2 := says (logged w0 (LogConnecting (_buildWebSocketUrl (client w0))) ++
                     [Settle (length (promises w0)) (Rejected error)])
                 (with_promises (promises w0 ++ [Done (Rejected error)]) w0)) in He.
    assert (Aw : await p Reconnect w2 = (Some (Rejected error), w2)).
    { unfold await, promise_state, w2, w0, p. run_m. rewrite nth_error_new. reflexivity. }
    rewrite He, exec_bind in E0.
    change (exec (await p Reconnect) w2) with (snd (await p Reconnect w2)) in E0.
    rewrite Aw in E0. cbn [fst snd resume] in E0. rewrite exec_seq, exec_log in E0.
    set (w3 := says (logged w2 (LogReconnectFailed error)) w2) in E0.
    cbv zeta. fold a.
    destruct (reached a (o_maxReconnectAttempts (options (client w)))) eqn:Hr; cbn [negb].
    + assert (Hx : exhausted w3) by exact Hr.
      rewrite (scheduleReconnect_exhausted w3 Hx), exec_log in E0.
      rewrite E0. unfold w3, w2, w0. run_m.
      rewrite !sockets_made_app, !settlements_app, !reconnect_events_app,
        !sockets_made_logged, !settlements_logged, !reconnect_events_logged.
      cbn [sockets_made settlements reconnect_events omap app].
      rewrite ?app_nil_r, clear_without. auto 10.
    + assert (Hn : reached (reconnectAttempts (client w3))
                     (o_maxReconnectAttempts (options (client w3))) = false) by exact Hr.
      rewrite (scheduleReconnect_next w3 Hn) in E0.
      rewrite E0. unfold w3, w2, w0. run_m.
      rewrite !sockets_made_app, !settlements_app, !reconnect_events_app,
        !sockets_made_logged, !settlements_logged, !reconnect_events_logged,
        !sockets_made_emitted, !settlements_emitted, !reconnect_events_emitted.
      cbn [sockets_made settlements reconnect_events omap app].
      rewrite ?app_nil_r, clear_without. auto 10.
  - pose proof (connect_fresh w0 H1 H2 Hi) as Hc.
    assert (He : exec connect w0 = snd (connect w0)) by reflexivity.
    rewrite Hc in He. cbn [snd] in He.
    rewrite E0, He.
    unfold await, promise_state, w0, p, s, url, logged, _buildWebSocketUrl. run_m.
    rewrite nth_error_new. run_m.
    rewrite insert_new, nth_error_new, nth_error_new, clear_without. auto 10.
Qed.

Lemma reconnect_timer_starts_an_attempt_witness :
  (trace (run [TimerFired 3] dropped_world)
   = trace dropped_world ++ [NewWebSocket "wss://eth-mainnet.xrpc.pro?apiKey=key" 1] /\
   nth_error (promises (run [TimerFired 3] dropped_world)) 2 = Some (Pending Reconnect)) /\
  (let refusing := with_webSocketThrows (fun _ => Some (Error "Invalid URL")) dropped_world in
   sockets_made (trace (run [TimerFired 3] refusing)) = [0] /\
   reconnect_events (trace (run [TimerFired 3] refusing)) = [1; 2]).
Proof.
  split.
  - assert (H1 : current_readyState dropped_world <> Some OPEN) by (vm_compute; discriminate).
    assert (H2 : current_readyState dropped_world <> Some CONNECTING)
      by (vm_compute; discriminate).
    destruct (reconnect_timer_starts_an_attempt dropped_world 3
                {| timer_id := 3; timer_delay := 10; timer_task := ReconnectTimer |}
                eq_refl eq_refl H1 H2) as (_ & _ & H).
    vm_compute in H. destruct H as (H3 & _ & _ & H4 & _). split; vm_compute; assumption.
  - set (refusing := with_webSocketThrows (fun _ => Some (Error "Invalid URL")) dropped_world).
    assert (H1 : current_readyState refusing <> Some OPEN) by (vm_compute; discriminate).
    assert (H2 : current_readyState refusing <> Some CONNECTING) by (vm_compute; discriminate).
    destruct (reconnect_timer_starts_an_attempt refusing 3
                {| timer_id := 3; timer_delay := 10; timer_task := ReconnectTimer |}
                eq_refl eq_refl H1 H2) as (_ & _ & H).
    vm_compute in H. destruct H as (H3 & _ & _ & H4 & _). split; vm_compute; assumption.
Defined.

(** A reconnect attempt that fails with an error event and a close event
    is counted twice. The [catch] of the timer callback schedules the
    next attempt when the promise of [connect] is rejected, and the close
    handler of the socket schedules one more: with the flag of a manual
    close reset by the timer and [autoReconnect] on, two [reconnect]
    events are emitted, the attempt counter goes up by two, and two
    reconnect timers are armed, of which only the second is the one
    [disconnect] would clear. *)
Theorem failed_reconnect_attempt_counts_twice (w : World) (s : nat) (k : Socket)
    (h : Handlers) (r : nat) (code : option Z) (reason : string) :
  nth_error (sockets w) s = Some k ->
  handlers k = Some h ->
  nth_error (promises w) (connectPromise h) = Some (Pending Reconnect) ->
  JsMap.entries (pendingRequests (client w)) = [] ->
  isManualClose (client w) = false ->
  o_autoReconnect (options (client w)) = true ->
  let a := reconnectAttempts (client w) in
  let delay := o_reconnectDelay (options (client w)) in
  reached (S a) (o_maxReconnectAttempts (options (client w))) = false ->
  connectionTimeout h < nextTimer w ->
  let w' := run [SocketError s r; SocketClose s code reason] w in
  reconnect_events (trace w') = reconnect_events (trace w) ++ [S a; S (S a)] /\
  reconnectAttempts (client w') = S (S a) /\
  timers w'
  = without [connectionTimeout h] (timers w) ++
    [{| timer_id := nextTimer w; timer_delay := delay; timer_task := ReconnectTimer |};
     {| timer_id := S (nextTimer w); timer_delay := delay; timer_task := ReconnectTimer |}] /\
  reconnectTimeoutId (client w') = Some (S (nextTimer w)) /\
  sockets_made (trace w') = sockets_made (trace w).
Proof.
  intros Hk Hh Hp He Hm Ha a delay Hr Hct w'.
  set (e := Error "WebSocket connection error").
  set (w1 := says [Settle (connectPromise h) (Rejected e)]
               (exec (set_promise (connectPromise h) (Done (Rejected e)))
                  (says (emitted w (OnError e))
                     (says (logged w (LogError "WebSocket connection error"))
                        (exec (clearTimeout (connectionTimeout h))
                           (exec (set_readyState s r) w)))))).
  set (w2 := says (logged w1 (LogReconnectFailed e)) w1).
  assert (E1 : exec (step (SocketError s r)) w = exec _scheduleReconnect w2).
  { rewrite (exec_socket_error w s r k h Hk Hh).
    rewrite (exec_settle_pending _ _ Reconnect);
      [| run_m; destruct (nth_error (sockets w) s); exact Hp ].
    cbn [resume]. rewrite exec_seq, exec_log. reflexivity. }
  assert (F2 : reconnectAttempts (client w2) = a /\ options (client w2) = options (client w) /\
               nextTimer w2 = nextTimer w /\
               timers w2 = without [connectionTimeout h] (timers w) /\
               isManualClose (client w2) = false /\
               JsMap.entries (pendingRequests (client w2)) = [] /\
               reconnect_events (trace w2) = reconnect_events (trace w) /\
               sockets_made (trace w2) = sockets_made (trace w) /\
               nth_error (sockets w2) s = Some {| readyState := r; handlers := Some h |}).
  { unfold w2, w1. run_m. rewrite Hk. proj_simpl. rewrite clear_without.
    rewrite (nth_error_insert _ _ k), <- Hh by exact Hk.
    rewrite !reconnect_events_app, reconnect_events_logged, reconnect_events_emitted.
    rewrite !sockets_made_app, !sockets_made_logged, sockets_made_emitted.
    cbn [app]. rewrite ?app_nil_r.
    change (reconnect_events [Settle ?a ?b]) with (@nil nat).
    change (sockets_made [Settle ?a ?b]) with (@nil nat).
    rewrite ?reconnect_events_logged, ?sockets_made_logged, ?app_nil_r. auto 10. }
  destruct F2 as (Fa & Fo & Fn & Ft & Fm & Fp & Fe & Fs & Fk).
  pose proof (scheduleReconnect_next w2) as E2. rewrite Fa, Fo in E2.
  specialize (E2 (reached_before _ _ Hr)). cbv zeta in E2. rewrite Fn, Ft in E2. fold a delay in E2.
  set (w3 := exec _scheduleReconnect w2) in *.
  assert (F3 : reconnectAttempts (client w3) = S a /\ options (client w3) = options (client w) /\
               nextTimer w3 = S (nextTimer w) /\
               isManualClose (client w3) = false /\
               JsMap.entries (pendingRequests (client w3)) = [] /\
               nth_error (sockets w3) s = Some {| readyState := r; handlers := Some h |}).
  { rewrite E2. run_m. auto 10. }
  destruct F3 as (Ga & Go & Gn & Gm & Gp & Gk).
  unfold w'. cbn [run]. rewrite E1. fold w3.
  rewrite (exec_socket_close_idle w3 s _ h code reason Gk eq_refl Gp).
  rewrite Gm, Go, Ha. cbn [negb andb when].
  set (w4 := says _ _).
  assert (F4 : reconnectAttempts (client w4) = S a /\ options (client w4) = options (client w) /\
               nextTimer w4 = S (nextTimer w) /\
               timers w4 = without [connectionTimeout h] (timers w) ++
                 [{| timer_id := nextTimer w; timer_delay := delay; timer_task := ReconnectTimer |}] /\
               reconnect_events (trace w4) = reconnect_events (trace w) ++ [S a] /\
               sockets_made (trace w4) = sockets_made (trace w)).
  { unfold w4. rewrite E2. run_m. rewrite Fk. proj_simpl. rewrite ?Fo, clear_without.
    rewrite !reconnect_events_app, !reconnect_events_logged, !reconnect_events_emitted, Fe.
    split; [reflexivity|]. split; [reflexivity|]. split; [reflexivity|]. split; [|split].
    - unfold without. rewrite List.filter_app. f_equal.
      + rewrite <- (without_nil (List.filter _ (timers w))) at 2.
        fold (without [connectionTimeout h] (timers w)).
        fold (without [connectionTimeout h] (without [connectionTimeout h] (timers w))).
        rewrite clear_twice, without_nil. reflexivity.
      + cbn. replace (Nat.eqb (nextTimer w) (connectionTimeout h)) with false; [reflexivity|].
        symmetry. apply Nat.eqb_neq. lia.
    - cbn [app]. rewrite ?app_nil_r. reflexivity.
    - rewrite !sockets_made_app, !sockets_made_logged, !sockets_made_emitted, Fs.
      rewrite ?app_nil_r. reflexivity. }
  destruct F4 as (Ia & Io & In4 & It & Ie & Is).
  pose proof (scheduleReconnect_next w4) as E4. rewrite Ia, Io in E4.
  specialize (E4 Hr). cbv zeta in E4. rewrite In4, It in E4. fold delay in E4.
  rewrite E4. run_m.
  rewrite !reconnect_events_app, reconnect_events_logged, reconnect_events_emitted, Ie.
  rewrite <- !app_assoc. cbn [app].
  split; [reflexivity|]. split; [reflexivity|]. split; [reflexivity|]. split; [reflexivity|].
  rewrite !sockets_made_app, !sockets_made_logged, !sockets_made_emitted, Is.
  rewrite ?app_nil_r. reflexivity.
Qed.

Lemma failed_reconnect_attempt_counts_twice_witness :
  reconnect_events (trace
    (run [SocketError 1 CLOSED; SocketClose 1 (Some 1006%Z) ""] retrying_world)) = [1; 2; 3] /\
  List.map timer_id
    (timers (run [SocketError 1 CLOSED; SocketClose 1 (Some 1006%Z) ""] retrying_world))
  = [4; 5].
Proof.
  destruct (failed_reconnect_attempt_counts_twice retrying_world 1
              {| readyState := CONNECTING;
                 handlers := Some {| connectPromise := 1; connectionTimeout := 3 |} |}
              {| connectPromise := 1; connectionTimeout := 3 |} CLOSED (Some 1006%Z) ""
              eq_refl eq_refl eq_refl eq_refl eq_refl eq_refl eq_refl)
    as (H1 & _ & H2 & _); [vm_compute; lia|].
  split.
  - refine (eq_trans H1 _). vm_compute. reflexivity.
  - rewrite H2. vm_compute. reflexivity.
Defined.

(** ** [subscribe] without a connection *)

Lemma list_lookup_insert_ne_nth {A} (l : list A) i j x :
  i <> j -> nth_error (<[i := x]> l) j = nth_error l j.
Proof.
  revert i j. induction l as [|a l IH]; intros [|i] [|j] H; cbn; try reflexivity;
    try (exfalso; apply H; reflexivity).
  apply IH. intros ->. apply H. reflexivity.
Qed.

Lemma nth_error_suffix0 {A} (l : list A) a b : nth_error (l ++ [a; b]) (length l) = Some a.
Proof. rewrite nth_error_app2 by lia. rewrite Nat.sub_diag. reflexivity. Qed.

Lemma nth_error_suffix1 {A} (l : list A) a b : nth_error (l ++ [a; b]) (S (length l)) = Some b.
Proof.
  rewrite nth_error_app2 by lia. replace (S (length l) - length l) with 1 by lia. reflexivity.
Qed.

Lemma insert_suffix0 {A} (l : list A) a b x : <[length l := x]> (l ++ [a; b]) = l ++ [x; b].
Proof. induction l as [|y l IH]; cbn; [reflexivity | f_equal; exact IH]. Qed.

Lemma insert_suffix1 {A} (l : list A) a b x : <[S (length l) := x]> (l ++ [a; b]) = l ++ [a; x].
Proof. induction l as [|y l IH]; cbn; [reflexivity | f_equal; exact IH]. Qed.

(** [subscribe] with no socket, or with one that is closing or closed,
    parks behind a [connect] of its own. *)
Lemma subscribe_fresh w type params callback :
  current_readyState w <> Some OPEN ->
  current_readyState w <> Some CONNECTING ->
  webSocketThrows w (_buildWebSocketUrl (client w)) = None ->
  let p := length (promises w) in
  let url := _buildWebSocketUrl (client w) in
  subscribe type params callback w
  = (p,
     says (logged w (LogConnecting url) ++ [NewWebSocket url (length (sockets w))])
       (with_client (with_ws (Some (length (sockets w))) (client w))
          (with_sockets
             (sockets w ++ [{| readyState := CONNECTING;
                               handlers := Some {| connectPromise := S p;
                                                   connectionTimeout := nextTimer w |} |}])
             (with_timers
                (timers w ++ [{| timer_id := nextTimer w;
                                 timer_delay := o_timeout (options (client w));
                                 timer_task := ConnectionTimeout (S p) |}])
                (S (nextTimer w))
                (with_promises
                   (promises w ++ [Pending Caller;
                                   Pending (SubscribeConnected type params callback p)]) w))))).
Proof.
  intros H1 H2 Hi p url.
  unfold subscribe, connect, await, promise_state, _log, logged, new_WebSocket, p, url.
  run_m. unfold current_readyState, socket_state in H1, H2.
  destruct (match ws (client w) with Some s0 => readyState <$> nth_error (sockets w) s0 | None => None end)
    as [[|[|r]]|] eqn:E; try (exfalso; apply H1; reflexivity); try (exfalso; apply H2; reflexivity);
    run_m; rewrite ?E; run_m;
    destruct (o_debug _); run_m; rewrite ?Hi; run_m;
    rewrite <- ?app_assoc; cbn [app]; rewrite ?length_app; cbn [length]; rewrite ?Nat.add_1_r;
    rewrite ?nth_error_new; run_m; rewrite ?insert_new_socket; rewrite ?nth_error_suffix1; run_m;
    rewrite ?insert_suffix1; rewrite <- ?app_assoc; cbn [app]; reflexivity.
Qed.

(** The same when the constructor throws: [subscribe] is rejected with
    what [connect] was rejected with. *)
Lemma subscribe_refused w type params callback error :
  current_readyState w <> Some OPEN ->
  current_readyState w <> Some CONNECTING ->
  webSocketThrows w (_buildWebSocketUrl (client w)) = Some error ->
  let p := length (promises w) in
  let url := _buildWebSocketUrl (client w) in
  subscribe type params callback w
  = (p,
     says (logged w (LogConnecting url) ++
           [Settle (S p) (Rejected error); Settle p (Rejected error)])
       (with_promises (promises w ++ [Done (Rejected error); Done (Rejected error)]) w)).
Proof.
  intros H1 H2 Hi p url.
  unfold subscribe, connect, await, promise_state, _log, logged, new_WebSocket, p, url.
  run_m. unfold current_readyState, socket_state in H1, H2.
  destruct (match ws (client w) with Some s0 => readyState <$> nth_error (sockets w) s0 | None => None end)
    as [[|[|r]]|] eqn:E; try (exfalso; apply H1; reflexivity); try (exfalso; apply H2; reflexivity);
    run_m; rewrite ?E; run_m;
    destruct (o_debug _); run_m; rewrite ?Hi; run_m;
    rewrite <- ?app_assoc; cbn [app]; rewrite ?length_app; cbn [length]; rewrite ?Nat.add_1_r;
    rewrite ?nth_error_suffix1; run_m; rewrite ?insert_suffix1; rewrite ?nth_error_suffix1; run_m;
    rewrite ?nth_error_suffix0; run_m; rewrite ?insert_suffix0;
    rewrite <- ?app_assoc; cbn [app]; reflexivity.
Qed.

(** [subscribe] on a client that is not connected connects first. When
    the runtime makes a socket for the URL, [subscribe] sends nothing
    yet; its promise and that of its [connect] stay pending. When the
    socket opens, the [eth_subscribe] frame goes out on it and the
    request is pending under its id, with its timer. When the attempt
    fails with an error event, the caller of [subscribe] is rejected with
    the error of the connection, nothing was sent and no request is
    pending. When the constructor throws, [subscribe] is rejected at
    once with what was thrown: no socket, no timer, nothing sent. *)
Theorem subscribe_connects_first (w : World) (type : SubscriptionType)
    (params : list JValue) (callback : JsFunction) :
  current_readyState w <> Some OPEN ->
  current_readyState w <> Some CONNECTING ->
  let p := length (promises w) in
  let s := length (sockets w) in
  let url := _buildWebSocketUrl (client w) in
  let rid := request_id w (S (requestIdCounter (client w))) in
  let frame := JStr (type_name type) :: params in
  let w1 := exec (subscribe type params callback) w in
  match webSocketThrows w url with
  | Some error =>
      trace w1 = trace w ++ logged w (LogConnecting url) ++
                 [Settle (S p) (Rejected error); Settle p (Rejected error)] /\
      client w1 = client w /\ sockets w1 = sockets w /\ timers w1 = timers w
  | None =>
      (trace w1 = trace w ++ logged w (LogConnecting url) ++ [NewWebSocket url s] /\
       nth_error (promises w1) p = Some (Pending Caller) /\
       pendingRequests (client w1) = pendingRequests (client w)) /\
      (let w2 := run [SocketOpen s] w1 in
       trace w2 = trace w1 ++ logged w LogConnected ++ emitted w OnOpen ++
                  [Settle (S p) (Resolved JUndefined)] ++
                  logged w (LogSending "eth_subscribe" frame rid) ++
                  [WsSend s "eth_subscribe" frame rid] /\
       JsMap.get rid (pendingRequests (client w2))
       = Some {| request := SubscribeRequest type params callback; promise := p;
                 timeoutId := S (nextTimer w) |} /\
       nth_error (promises w2) p = Some (Pending Caller)) /\
      (forall r,
       let e := Error "WebSocket connection error" in
       let w2 := run [SocketError s r] w1 in
       trace w2 = trace w1 ++ logged w (LogError "WebSocket connection error") ++
                  emitted w (OnError e) ++ [Settle (S p) (Rejected e); Settle p (Rejected e)] /\
       pendingRequests (client w2) = pendingRequests (client w) /\
       subscriptions (client w2) = subscriptions (client w))
  end.
Proof.
  intros H1 H2 p s url rid frame w1.
  destruct (webSocketThrows w url) as [error|] eqn:Hi.
  { unfold w1, exec. rewrite (subscribe_refused w type params callback error H1 H2 Hi).
    cbn [snd]. unfold says. proj_simpl. rewrite <- ?app_assoc. auto. }
  set (hs := {| connectPromise := S p; connectionTimeout := nextTimer w |}).
  set (k := {| readyState := CONNECTING; handlers := Some hs |}).
  assert (E : w1 = snd (subscribe type params callback w)) by reflexivity.
  rewrite (subscribe_fresh w type params callback H1 H2 Hi) in E. cbn [snd] in E.
  fold p url s hs k in E.
  assert (Hk : nth_error (sockets w1) s = Some k) by (rewrite E; apply nth_error_new).
  assert (Hp : nth_error (promises w1) p = Some (Pending Caller)).
  { rewrite E. run_m. apply nth_error_suffix0. }
  assert (Hc : nth_error (promises w1) (S p)
               = Some (Pending (SubscribeConnected type params callback p))).
  { rewrite E. run_m. apply nth_error_suffix1. }
  split; [|split].
  - split; [rewrite E; reflexivity|]. split; [exact Hp | rewrite E; reflexivity].
  - cbv zeta. cbn [run]. rewrite (exec_socket_open w1 s k hs Hk eq_refl).
    rewrite (exec_settle_pending _ _ (SubscribeConnected type params callback p));
      [| run_m; rewrite Hk; exact Hc ].
    cbn [resume]. unfold subscribe_send, _generateRequestId, _sendRequest, _log.
    run_m. rewrite Hk. proj_simpl. rewrite E. run_m.
    rewrite (insert_new_socket (sockets w)). unfold s, hs, k. rewrite nth_error_new.
    cbn [fmap option_fmap option_map readyState handlers connectPromise connectionTimeout].
    unfold OPEN. run_m.
    unfold emitted, listener_effects, logged, request_id. proj_simpl. fold rid frame.
    split; [|split].
    + destruct (o_debug _); run_m; rewrite <- ?app_assoc; reflexivity.
    + destruct (o_debug _); run_m; apply get_set_same.
    + destruct (o_debug _); run_m;
        (rewrite list_lookup_insert_ne_nth; [| unfold p; lia ]);
        apply nth_error_suffix0.
  - intros r e w2. unfold w2. cbn [run]. rewrite (exec_socket_error w1 s r k hs Hk eq_refl).
    rewrite (exec_settle_pending _ _ (SubscribeConnected type params callback p));
      [| run_m; rewrite Hk; exact Hc ].
    cbn [resume].
    rewrite (exec_settle_request_pending _ _ Caller).
    2:{ run_m. rewrite Hk. proj_simpl.
        rewrite list_lookup_insert_ne_nth by (unfold hs; cbn [connectPromise]; unfold p; lia).
        exact Hp. }
    cbn [resume_request]. change (exec (ret tt) ?x) with x.
    run_m. rewrite Hk. proj_simpl. rewrite E. run_m.
    unfold emitted, listener_effects, logged. proj_simpl. rewrite <- ?app_assoc. auto.
Qed.

Lemma subscribe_connects_first_witness :
  let w1 := exec (subscribe newHeads [] (returning 1)) demo_world in
  (sent_ids (trace w1) = [] /\
   sent_ids (trace (run [SocketOpen 0] w1)) = [JStr "1700000000000-1-k3x9"] /\
   settlements (trace (run [SocketError 0 CLOSED] w1))
   = [(1, Rejected (Error "WebSocket connection error"));
      (0, Rejected (Error "WebSocket connection error"))]) /\
  settlements (trace (exec (subscribe newHeads [] (returning 1)) refusing_world))
  = [(1, Rejected (Error "Invalid URL")); (0, Rejected (Error "Invalid URL"))].
Proof.
  split.
  - assert (N1 : current_readyState demo_world <> Some OPEN) by (vm_compute; discriminate).
    assert (N2 : current_readyState demo_world <> Some CONNECTING) by (vm_compute; discriminate).
    pose proof (subscribe_connects_first demo_world newHeads [] (returning 1) N1 N2) as H.
    cbv zeta in H. change (webSocketThrows demo_world _) with (@None JsError) in H.
    destruct H as ((H1 & _) & (H2 & _) & H3).
    destruct (H3 CLOSED) as [H4 _].
    change (length (sockets demo_world)) with 0 in H2, H4.
    split; [rewrite H1; vm_compute; reflexivity|].
    split; [rewrite H2, H1; vm_compute; reflexivity|].
    rewrite H4, H1. vm_compute. reflexivity.
  - assert (N1 : current_readyState refusing_world <> Some OPEN) by (vm_compute; discriminate).
    assert (N2 : current_readyState refusing_world <> Some CONNECTING)
      by (vm_compute; discriminate).
    pose proof (subscribe_connects_first refusing_world newHeads [] (returning 1) N1 N2) as H.
    cbv zeta in H.
    change (webSocketThrows refusing_world _) with (Some (Error "Invalid URL")) in H.
    destruct H as [H _]. rewrite H. vm_compute. reflexivity.
Defined.

(** ** The registry is keyed by the ids of its subscriptions *)

Global Instance filed_preorder : PreOrder filed.
Proof. split; [intros w H; exact H | intros a b c H1 H2 H; auto]. Qed.

Lemma keyed_delete k m : keyed m -> keyed (JsMap.delete k m).
Proof. unfold keyed. apply Forall_sublist, entries_delete. Qed.

Lemma keyed_clear m : keyed (JsMap.clear m).
Proof. unfold keyed. rewrite entries_clear. constructor. Qed.

Lemma keyed_set k v m : sub_id v = k -> keyed m -> keyed (JsMap.set k v m).
Proof.
  intros Hk. unfold keyed, JsMap.entries.
  induction m as [|[[k0 v0]|] m IH]; cbn.
  - intros _. constructor; [|constructor]. cbn. rewrite Hk. apply sameValueZero_refl.
  - intros H. apply Forall_cons in H as [H1 H2].
    destruct (sameValueZero k0 k) eqn:E; cbn; constructor; auto.
    cbn. rewrite Hk. exact E.
  - exact IH.
Qed.

Ltac filed_fin :=
  solve [ intros ?w; cbv beta iota zeta delta [exec bind ret get_world update modify tell snd fst];
          repeat case_match; unfold filed; proj_simpl; intros ?;
          auto using keyed_delete, keyed_clear;
          try (apply keyed_set; [reflexivity | assumption]) ].

Ltac fl m := unfold m, get_client; keeps_go filed_fin.

Lemma filed_tell e : keeps filed (tell e). Proof. fl tell. Qed.
#[export] Hint Resolve filed_tell : keeps.
Lemma filed_log e : keeps filed (_log e). Proof. fl _log. Qed.
Lemma filed_setTimeout t d : keeps filed (setTimeout t d).
Proof. unfold setTimeout. filed_fin. Qed.
Lemma filed_clearTimeout t : keeps filed (clearTimeout t). Proof. fl clearTimeout. Qed.
#[export] Hint Resolve filed_log filed_setTimeout filed_clearTimeout : keeps.
Lemma filed_setInterval t d : keeps filed (setInterval t d). Proof. fl setInterval. Qed.
Lemma filed_clearInterval t : keeps filed (clearInterval t). Proof. fl clearInterval. Qed.
Lemma filed_new_promise : keeps filed new_promise. Proof. fl new_promise. Qed.
Lemma filed_promise_state p : keeps filed (promise_state p). Proof. fl promise_state. Qed.
Lemma filed_set_promise p s : keeps filed (set_promise p s). Proof. fl set_promise. Qed.
#[export] Hint Resolve filed_setInterval filed_clearInterval filed_new_promise filed_promise_state filed_set_promise : keeps.
Lemma filed_settle_caller p o : keeps filed (settle_caller p o). Proof. fl settle_caller. Qed.
Lemma filed_await p k : keeps filed (await p k). Proof. fl await. Qed.
Lemma filed_ws_readyState : keeps filed ws_readyState. Proof. fl ws_readyState. Qed.
Lemma filed_set_readyState s r : keeps filed (set_readyState s r). Proof. fl set_readyState. Qed.
Lemma filed_install_handlers s h : keeps filed (install_handlers s h). Proof. fl install_handlers. Qed.
Lemma filed_handlers_of s : keeps filed (handlers_of s). Proof. fl handlers_of. Qed.
#[export] Hint Resolve filed_settle_caller filed_await filed_ws_readyState filed_set_readyState filed_install_handlers filed_handlers_of : keeps.
Lemma filed_new_WebSocket u : keeps filed (new_WebSocket u). Proof. fl new_WebSocket. Qed.
Lemma filed_ws_close s a : keeps filed (ws_close s a). Proof. fl ws_close. Qed.
Lemma filed_call_listener e l : keeps filed (call_listener e l). Proof. fl call_listener. Qed.
#[export] Hint Resolve filed_new_WebSocket filed_ws_close filed_call_listener : keeps.
Lemma filed_emit e : keeps filed (_emit e). Proof. fl _emit. Qed.
Lemma filed_on e l : keeps filed (on e l). Proof. fl on. Qed.
Lemma filed_off e l : keeps filed (off e l). Proof. fl off. Qed.
Lemma filed_generateRequestId : keeps filed _generateRequestId. Proof. fl _generateRequestId. Qed.
Lemma filed_sendRequest m p i : keeps filed (_sendRequest m p i). Proof. fl _sendRequest. Qed.
#[export] Hint Resolve filed_emit filed_on filed_off filed_generateRequestId filed_sendRequest : keeps.
Lemma filed_connect : keeps filed connect. Proof. fl connect. Qed.
Lemma filed_subscribe_send t ps f p : keeps filed (subscribe_send t ps f p).
Proof. fl subscribe_send. Qed.
#[export] Hint Resolve filed_connect filed_subscribe_send : keeps.
Lemma filed_subscribe t ps f : keeps filed (subscribe t ps f). Proof. fl subscribe. Qed.
Lemma filed_unsubscribe i : keeps filed (unsubscribe i). Proof. fl unsubscribe. Qed.
#[export] Hint Resolve filed_subscribe filed_unsubscribe : keeps.
Lemma filed_resubscribe n : forall i, keeps filed (resubscribe n i).
Proof. induction n; intros i; cbn [resubscribe]; unfold get_client; keeps_go filed_fin. Qed.
#[export] Hint Resolve filed_resubscribe : keeps.
Lemma filed_resubscribe_from i : keeps filed (resubscribe_from i). Proof. fl resubscribe_from. Qed.
Lemma filed_disconnect_finish d : keeps filed (disconnect_finish d). Proof. fl disconnect_finish. Qed.
#[export] Hint Resolve filed_resubscribe_from filed_disconnect_finish : keeps.
Lemma filed_allSettled_check d : keeps filed (allSettled_check d). Proof. fl allSettled_check. Qed.
#[export] Hint Resolve filed_allSettled_check : keeps.
Lemma filed_resume_request k o : keeps filed (resume_request k o). Proof. fl resume_request. Qed.
#[export] Hint Resolve filed_resume_request : keeps.
Lemma filed_settle_request p o : keeps filed (settle_request p o). Proof. fl settle_request. Qed.
#[export] Hint Resolve filed_settle_request : keeps.
Lemma filed_pending_resolve p r : keeps filed (pending_resolve p r). Proof. fl pending_resolve. Qed.
Lemma filed_message_failed e : keeps filed (message_failed e). Proof. fl message_failed. Qed.
#[export] Hint Resolve filed_pending_resolve filed_message_failed : keeps.
Lemma filed_handleMessage' m : keeps filed (_handleMessage m). Proof. fl _handleMessage. Qed.
Lemma filed_scheduleReconnect : keeps filed _scheduleReconnect. Proof. fl _scheduleReconnect. Qed.
#[export] Hint Resolve filed_handleMessage' filed_scheduleReconnect : keeps.
Lemma filed_resume k o : keeps filed (resume k o). Proof. fl resume. Qed.
#[export] Hint Resolve filed_resume : keeps.
Lemma filed_settle p o : keeps filed (settle p o). Proof. fl settle. Qed.
#[export] Hint Resolve filed_settle : keeps.
Lemma filed_settle_all l : keeps filed (settle_all l). Proof. fl settle_all. Qed.
Lemma filed_reconnect_now : keeps filed reconnect_now. Proof. fl reconnect_now. Qed.
Lemma filed_handleOpen h : keeps filed (handleOpen h). Proof. fl handleOpen. Qed.
Lemma filed_handleMessage m : keeps filed (handleMessage m). Proof. fl handleMessage. Qed.
Lemma filed_handleError h : keeps filed (handleError h). Proof. fl handleError. Qed.
Lemma filed_reject_pending n : forall i, keeps filed (reject_pending n i).
Proof. induction n; intros i; cbn [reject_pending]; unfold get_client; keeps_go filed_fin. Qed.
#[export] Hint Resolve filed_settle_all filed_reconnect_now filed_handleOpen filed_handleMessage filed_handleError filed_reject_pending : keeps.
Lemma filed_handleClose h c r : keeps filed (handleClose h c r). Proof. fl handleClose. Qed.
Lemma filed_unsubscribe_each n : forall i, keeps filed (unsubscribe_each n i).
Proof. induction n; intros i; cbn [unsubscribe_each]; unfold get_client; keeps_go filed_fin. Qed.
#[export] Hint Resolve filed_handleClose filed_unsubscribe_each : keeps.
Lemma filed_disconnect : keeps filed disconnect. Proof. fl disconnect. Qed.
Lemma filed_run_timer i t : keeps filed (run_timer i t). Proof. fl run_timer. Qed.
#[export] Hint Resolve filed_disconnect filed_run_timer : keeps.
Lemma filed_fire i : keeps filed (fire i). Proof. fl fire. Qed.
Lemma filed_on_socket s f : (forall h, keeps filed (f h)) -> keeps filed (on_socket s f).
Proof. intros H. fl on_socket. Qed.
#[export] Hint Resolve filed_fire filed_on_socket : keeps.
Lemma filed_step e : keeps filed (step e).
Proof. unfold step. keeps_go filed_fin. Qed.

Lemma filed_run events : forall w, filed w (run events w).
Proof.
  induction events as [|e events IH]; intros w; cbn [run].
  - reflexivity.
  - transitivity (exec (step e) w); [exact (filed_step e w) | exact (IH _)].
Qed.

Lemma keyed_listed m :
  map_wf m -> keys_truthy m -> keyed m ->
  Forall (fun sub => truthy (sub_id sub) = true /\ JsMap.get (sub_id sub) m = Some sub)
    (JsMap.values m).
Proof.
  intros Hw Ht Hk. unfold JsMap.values. apply List.Forall_forall. intros sub Hin.
  apply in_map_iff in Hin as ([k v] & <- & Hin). cbn [snd].
  unfold keys_truthy in Ht. unfold keyed in Hk. rewrite List.Forall_forall in Ht, Hk.
  pose proof (Ht _ Hin) as H1. pose proof (Hk _ Hin) as H2. cbn [fst snd] in H1, H2.
  split; [rewrite <- (sameValueZero_truthy _ _ H2); exact H1|].
  pose proof (get_entry k v m Hw Hin) as Hg.
  clear - H2 Hg. induction m as [|[[k0 v0]|] m IH]; cbn in *; try discriminate; auto.
  destruct (sameValueZero k0 k) eqn:E.
  - rewrite (sameValueZero_trans _ _ _ E H2). exact Hg.
  - destruct (sameValueZero k0 (sub_id v)) eqn:E'; [|auto].
    rewrite sameValueZero_sym in H2. rewrite (sameValueZero_trans _ _ _ E' H2) in E. discriminate.
Qed.

Lemma keyed_distinct m :
  map_wf m -> keyed m -> NoDup (List.map sub_id (JsMap.values m)).
Proof.
  unfold keyed, JsMap.values, JsMap.entries.
  induction m as [|[[k v]|] m IH]; cbn; [constructor | | auto].
  intros [Hh Hw] Hk. apply Forall_cons in Hk as [H1 H2]. cbn [fst snd] in H1.
  constructor; [|auto].
  intros Hin. apply list_elem_of_In, in_map_iff in Hin as (v' & Hv & Hin).
  apply in_map_iff in Hin as ([k' v''] & Hs & Hin). cbn [snd] in Hs. subst v''.
  rewrite List.Forall_forall in H2. pose proof (H2 _ Hin) as H3. cbn [fst snd] in H3.
  rewrite Hv in H3. rewrite sameValueZero_sym in H1.
  pose proof (sameValueZero_trans _ _ _ H3 H1) as H4.
  rewrite <- (has_change k' k m H4) in Hh.
  unfold JsMap.has in Hh. rewrite (get_entry k' v' m Hw Hin) in Hh. discriminate.
Qed.

(** In every run of a client the constructor made, whatever the tasks
    are, each subscription [getSubscriptions] lists has a truthy id and
    is the one the registry holds under that id, and no two listed
    subscriptions have the same id. *)
Theorem listed_subscriptions_are_registered (o : SubscriptionOptions) (c : Client)
    (now : nat -> N) (random : nat -> string) (impl : string -> option JsError) (events : list Event) :
  new_XRpcWebSocketClient o = inr c ->
  let w := run events (with_webSocketThrows impl (boot c now random)) in
  Forall (fun sub => truthy (sub_id sub) = true /\
                     JsMap.get (sub_id sub) (subscriptions (client w)) = Some sub)
    (getSubscriptions w) /\
  NoDup (List.map sub_id (getSubscriptions w)).
Proof.
  intros Hc w.
  assert (c = initial o) as ->.
  { unfold new_XRpcWebSocketClient in Hc.
    destruct (String.eqb (apiKey o) ""); [discriminate|].
    destruct (String.eqb (network o) ""); [discriminate|]. congruence. }
  assert (H0 : consistent (with_webSocketThrows impl (boot (initial o) now random))).
  { unfold consistent, keys_truthy, with_webSocketThrows, boot, initial. cbn. repeat split; constructor. }
  assert (K0 : keyed (subscriptions (client (with_webSocketThrows impl (boot (initial o) now random))))) by constructor.
  destruct (steady_run events (with_webSocketThrows impl (boot (initial o) now random))) as (_ & _ & Hs).
  destruct (Hs H0) as (Hw & _ & Ht & _). fold w in Hw, Ht.
  pose proof (filed_run events _ K0) as Hk. fold w in Hk.
  unfold getSubscriptions. split; [apply keyed_listed | apply keyed_distinct]; assumption.
Qed.

Lemma listed_subscriptions_are_registered_witness :
  let w := run [CallConnect; SocketOpen 0; CallSubscribe newHeads [] (returning 1);
                SocketMessage 0
                  (Some (response 10 (JStr "1700000000000-1-k3x9") (JStr "0xabc")))]
             (with_webSocketThrows (fun url => if String.eqb url "" then Some (Error "Invalid URL") else None)
                (boot (initial demo_options) (fun _ => 1700000000000%N) (fun _ => "k3x9"))) in
  Forall (fun sub => truthy (sub_id sub) = true /\
                     JsMap.get (sub_id sub) (subscriptions (client w)) = Some sub)
    (getSubscriptions w) /\
  NoDup (List.map sub_id (getSubscriptions w)).
Proof.
  exact (listed_subscriptions_are_registered demo_options (initial demo_options)
           (fun _ => 1700000000000%N) (fun _ => "k3x9")
           (fun url => if String.eqb url "" then Some (Error "Invalid URL") else None)
           [CallConnect; SocketOpen 0; CallSubscribe newHeads [] (returning 1);
            SocketMessage 0
              (Some (response 10 (JStr "1700000000000-1-k3x9") (JStr "0xabc")))]
           eq_refl).
Defined.

(** ** C7: [_emit] while listeners unregister listeners *)

Lemma drop_nth_error {A} (l : list A) : forall k x,
  nth_error l k = Some x -> drop k l = x :: drop (S k) l.
Proof.
  induction l as [|y l IH]; intros [|k] x H; cbn in *; try discriminate.
  - injection H as ->. reflexivity.
  - apply IH, H.
Qed.

Lemma drop_nth_error_none {A} (l : list A) : forall k,
  nth_error l k = None -> drop k l = [] /\ nth_error l (S k) = None.
Proof.
  induction l as [|y l IH]; intros k H.
  - destruct k; cbn; auto.
  - destruct k; cbn in *; [discriminate | apply IH, H].
Qed.

Lemma listener_effects_options w w' e :
  options (client w') = options (client w) -> listener_effects w' e = listener_effects w e.
Proof. intros H. unfold listener_effects, logged. rewrite H. reflexivity. Qed.

(** A call of [off] that finds nothing to remove in the array [ls] of
    [event] leaves that array as it is. *)
Lemma off_spares w event ls k g :
  eventListeners (client w) event = Some ls ->
  (k = event -> Forall (fun f => same_function f g = false) ls) ->
  eventListeners (client (exec (off k g) w)) event = Some ls /\
  options (client (exec (off k g) w)) = options (client w) /\
  trace (exec (off k g) w) = trace w.
Proof.
  intros Hl Hg. unfold off. run_m.
  destruct (eventListeners (client w) k) as [l|] eqn:Ek; run_m; [|auto].
  destruct (decide (event = k)) as [->|]; [|auto].
  rewrite Hl in Ek. injection Ek as <-. rewrite remove_first_absent by auto. auto.
Qed.

Lemma offs_spare event ls calls : forall w,
  eventListeners (client w) event = Some ls ->
  Forall (fun c => fst c = event -> Forall (fun g => same_function g (snd c) = false) ls) calls ->
  let w' := exec (forEach (fun c => off (fst c) (snd c)) calls) w in
  eventListeners (client w') event = Some ls /\
  options (client w') = options (client w) /\
  trace w' = trace w.
Proof.
  induction calls as [|c calls IH]; intros w Hl Hc; cbn [forEach]; [auto|].
  apply Forall_cons in Hc as [H1 H2]. cbv zeta. rewrite exec_seq.
  destruct (off_spares w event ls (fst c) (snd c) Hl H1) as (E1 & E2 & E3).
  destruct (IH _ E1 H2) as (F1 & F2 & F3).
  split; [exact F1|]. split; congruence.
Qed.

Lemma call_spares calls_off w e ls l :
  eventListeners (client w) (kind_of e) = Some ls ->
  Live.spares calls_off (kind_of e) ls l ->
  let w' := exec (Live.call_listener calls_off e l) w in
  eventListeners (client w') (kind_of e) = Some ls /\
  options (client w') = options (client w) /\
  trace w' = trace w ++ listener_effects w e l.
Proof.
  intros Hl Hs. unfold Live.call_listener. cbv zeta. rewrite !exec_seq, exec_tell.
  destruct (offs_spare (kind_of e) ls (calls_off l) (says [ListenerCall l e] w) Hl Hs)
    as (E1 & E2 & E3).
  set (w1 := exec (forEach (fun c => off (fst c) (snd c)) (calls_off l))
               (says [ListenerCall l e] w)) in *.
  unfold listener_effects. destruct (fn_throws l) as [error|].
  - rewrite exec_log. unfold says, logged. proj_simpl. rewrite E1, E2, E3.
    unfold says. proj_simpl. rewrite <- app_assoc. auto.
  - change (exec (ret tt) w1) with w1. rewrite E1, E2, E3. unfold says. proj_simpl. auto.
Qed.

(** [forEach] over an array that the listeners it reaches leave alone. *)
Lemma visit_spared calls_off e ls : forall n k w,
  eventListeners (client w) (kind_of e) = Some ls ->
  Forall (Live.spares calls_off (kind_of e) ls) (take n (drop k ls)) ->
  let w' := exec (Live.visit calls_off e n k) w in
  eventListeners (client w') (kind_of e) = Some ls /\
  options (client w') = options (client w) /\
  trace w' = trace w ++ flat_map (listener_effects w e) (take n (drop k ls)).
Proof.
  induction n as [|n IH]; intros k w Hl Hf; cbv zeta.
  - cbn. rewrite app_nil_r. auto.
  - cbn [Live.visit]. rewrite exec_get_client, exec_seq, Hl.
    change (default [] (Some ls)) with ls.
    destruct (nth_error ls k) as [l|] eqn:En.
    + rewrite (drop_nth_error ls k l En) in *. cbn [take firstn] in *.
      apply Forall_cons in Hf as [H1 H2].
      destruct (call_spares calls_off w e ls l Hl H1) as (E1 & E2 & E3).
      destruct (IH (S k) _ E1 H2) as (F1 & F2 & F3).
      split; [exact F1|]. split; [congruence|].
      rewrite F3, E3, (listener_effects_options _ _ e E2). cbn [flat_map].
      rewrite <- app_assoc. reflexivity.
    + destruct (drop_nth_error_none ls k En) as [Ed En'].
      change (exec (ret tt) w) with w.
      assert (Ed' : drop (S k) ls = []) by (apply (drop_nth_error_none ls (S k)), En').
      destruct (IH (S k) w Hl) as (F1 & F2 & F3); [rewrite Ed'; destruct n; constructor|].
      rewrite Ed' in F3. rewrite Ed. destruct n; cbn in *; auto.
Qed.

(** C7, as amended. After the listeners [added] were registered with
    [on], and when no listener of the event takes a listener of that
    event out of the array while it runs, [_emit] calls every listener
    of the event's kind once, earlier ones first and then [added] in the
    order of registration, each with the arguments of the event, whether
    or not a listener before it threw; what a listener throws goes to
    [_log], which writes it to the console when the debug option is on,
    and nowhere else. *)
Theorem emit_calls_every_listener (calls_off : JsFunction -> list (EventKind * JsFunction))
    (w : World) (e : Emitted) (added : list JsFunction) :
  let w1 := exec (forEach (on (kind_of e)) added) w in
  let listeners := (default [] (eventListeners (client w) (kind_of e)) ++ added)%list in
  Forall (Live.spares calls_off (kind_of e) listeners) listeners ->
  let w2 := exec (Live._emit calls_off e) w1 in
  trace w2 = trace w1 ++ Emit e :: flat_map (listener_effects w1 e) listeners /\
  listener_calls (trace w2)
  = (listener_calls (trace w1) ++ List.map (fun l => (l, e)) listeners)%list /\
  console (trace w2)
  = (console (trace w1) ++
     if o_debug (options (client w1))
     then omap (fun l => LogListenerError <$> fn_throws l) listeners
     else [])%list.
Proof.
  intros w1 listeners Hs w2.
  assert (E : trace w2 = trace w1 ++ Emit e :: flat_map (listener_effects w1 e) listeners).
  { unfold w2, Live._emit. rewrite exec_seq, exec_tell, exec_get_client.
    change (client (says [Emit e] w1)) with (client w1).
    pose proof (listeners_after_on (kind_of e) added w) as Ha. fold w1 in Ha.
    destruct (eventListeners (client w1) (kind_of e)) as [ls|] eqn:El.
    - assert (ls = listeners) as ->.
      { unfold listeners. destruct added; [|congruence].
        rewrite app_nil_r, <- Ha. reflexivity. }
      destruct (visit_spared calls_off e listeners (length listeners) 0 (says [Emit e] w1) El)
        as (_ & _ & F); [cbn [drop skipn]; rewrite firstn_all; exact Hs|].
      rewrite F. cbn [drop skipn]. rewrite firstn_all. unfold says. proj_simpl.
      rewrite <- app_assoc. reflexivity.
    - assert (listeners = []) as ->.
      { unfold listeners. destruct added; [|discriminate]. rewrite <- Ha. reflexivity. }
      reflexivity. }
  split; [exact E|]. rewrite E. split.
  - rewrite listener_calls_app.
    change (listener_calls (Emit e :: ?t)) with (listener_calls t).
    rewrite listener_calls_effects. reflexivity.
  - rewrite console_app. f_equal.
    change (console (Emit e :: ?t)) with (console t).
    clear. unfold listener_effects, logged.
    destruct (o_debug _); induction listeners as [|l ls IH]; cbn [flat_map omap]; auto;
      rewrite console_app, IH; cbn; destruct (fn_throws l); reflexivity.
Qed.

Lemma emit_calls_every_listener_witness :
  let w1 := exec (forEach (on EvOpen) [returning 1; throwing 2; returning 3]) demo_world in
  listener_calls (trace (exec (Live._emit (Live.once EvClose 1) OnOpen) w1))
  = [(returning 1, OnOpen); (throwing 2, OnOpen); (returning 3, OnOpen)].
Proof.
  refine (proj1 (proj2 (emit_calls_every_listener (Live.once EvClose 1) demo_world OnOpen
                          [returning 1; throwing 2; returning 3] _))).
  repeat constructor; cbn; discriminate.
Defined.

(** C7 as stated fails: with the options' default ([debug] off) a
    listener that throws is called, and nothing is written. *)
Lemma thrown_listener_error_is_not_logged :
  listener_calls (trace (exec (Live._emit Live.inert OnOpen)
                           (exec (on EvOpen (throwing 7)) demo_world)))
  = [(throwing 7, OnOpen)] /\
  fn_throws (throwing 7) = Some (Error "boom") /\
  o_debug (options (client demo_world)) = false /\
  console (trace (exec (Live._emit Live.inert OnOpen)
                    (exec (on EvOpen (throwing 7)) demo_world))) = [].
Proof. vm_compute. auto. Qed.

(** When no function calls [off], this is [_emit]. *)
Lemma emit_inert e w : trace (exec (Live._emit Live.inert e) w) = trace (exec (_emit e) w).
Proof.
  rewrite exec_emit. unfold emitted, Live._emit.
  rewrite exec_seq, exec_tell, exec_get_client.
  change (client (says [Emit e] w)) with (client w).
  destruct (eventListeners (client w) (kind_of e)) as [ls|] eqn:El; [|reflexivity].
  destruct (visit_spared Live.inert e ls (length ls) 0 (says [Emit e] w) El) as (_ & _ & F).
  { apply List.Forall_forall. intros l _. constructor. }
  rewrite F. change (default [] (Some ls)) with ls. cbn [drop skipn]. rewrite firstn_all.
  unfold says. proj_simpl.
  rewrite <- app_assoc. reflexivity.
Qed.
(** ** A listener that unregisters itself *)

Lemma visit_split calls_off e : forall n1 n2 k w,
  exec (Live.visit calls_off e (n1 + n2) k) w
  = exec (Live.visit calls_off e n2 (n1 + k)) (exec (Live.visit calls_off e n1 k) w).
Proof.
  induction n1 as [|n1 IH]; intros n2 k w; [reflexivity|].
  cbn [Nat.add Live.visit]. rewrite !exec_get_client, !exec_seq, IH.
  replace (n1 + S k) with (S (n1 + k)) by lia. reflexivity.
Qed.

Lemma visit_step calls_off e n k w :
  exec (Live.visit calls_off e (S n) k) w
  = exec (Live.visit calls_off e n (S k))
      (exec (match nth_error (default [] (eventListeners (client w) (kind_of e))) k with
             | Some l => Live.call_listener calls_off e l
             | None => ret tt
             end) w).
Proof. cbn [Live.visit]. rewrite exec_get_client, exec_seq. reflexivity. Qed.

Lemma drop_past {A} (a : list A) g b : drop (S (length a)) (a ++ g :: b) = b.
Proof. induction a as [|x a IH]; cbn; [reflexivity | exact IH]. Qed.

Lemma take_front {A} (a b : list A) : take (length a) (a ++ b) = a.
Proof. induction a as [|x a IH]; cbn; [reflexivity | f_equal; exact IH]. Qed.

Lemma call_once calls_off w e a f rest :
  eventListeners (client w) (kind_of e) = Some (a ++ f :: rest) ->
  calls_off f = [(kind_of e, f)] ->
  Forall (fun l => same_function l f = false) a ->
  let w' := exec (Live.call_listener calls_off e f) w in
  eventListeners (client w') (kind_of e) = Some (a ++ rest) /\
  options (client w') = options (client w) /\
  trace w' = trace w ++ listener_effects w e f.
Proof.
  intros Hl Hc Ha. unfold Live.call_listener. cbv zeta. rewrite Hc. cbn [forEach fst snd].
  rewrite !exec_seq, exec_tell. change (exec (ret tt) ?x) with x.
  set (w1 := exec (off (kind_of e) f) (says [ListenerCall f e] w)).
  assert (E : eventListeners (client w1) (kind_of e) = Some (a ++ rest) /\
              options (client w1) = options (client w) /\
              trace w1 = trace w ++ [ListenerCall f e]).
  { unfold w1, off. run_m. rewrite Hl. run_m.
    destruct (decide (kind_of e = kind_of e)) as [_|N]; [|exfalso; apply N; reflexivity].
    rewrite remove_first_found by (auto; apply Nat.eqb_refl). auto. }
  destruct E as (E1 & E2 & E3).
  unfold listener_effects. destruct (fn_throws f) as [error|].
  - rewrite exec_log. unfold says, logged. proj_simpl. rewrite E1, E2, E3.
    rewrite <- app_assoc. auto.
  - change (exec (ret tt) w1) with w1. rewrite E1, E2, E3. auto.
Qed.

(** The array of an event is spliced while [forEach] walks it: when a
    listener takes itself out, the listener registered after it moves
    into the slot just visited and is passed over. It was registered
    when [_emit] began and it still is when [_emit] returns, and it was
    not called; the listeners after it are called. *)
Theorem self_removing_listener_hides_the_next
    (calls_off : JsFunction -> list (EventKind * JsFunction))
    (w : World) (e : Emitted) (a b : list JsFunction) (f g : JsFunction) :
  eventListeners (client w) (kind_of e) = Some (a ++ f :: g :: b) ->
  calls_off f = [(kind_of e, f)] ->
  Forall (fun l => calls_off l = [] /\ same_function l f = false) (a ++ g :: b) ->
  let w' := exec (Live._emit calls_off e) w in
  listener_calls (trace w')
  = listener_calls (trace w) ++ List.map (fun l => (l, e)) (a ++ f :: b) /\
  eventListeners (client w') (kind_of e) = Some (a ++ g :: b).
Proof.
  intros Hl Hc Hr w'.
  assert (Hs : forall ls l, calls_off l = [] -> Live.spares calls_off (kind_of e) ls l).
  { intros ls l H. unfold Live.spares. rewrite H. constructor. }
  apply Forall_app in Hr as [Hra Hrb]. apply Forall_cons in Hrb as [_ Hrb].
  assert (Ha : Forall (fun l => same_function l f = false) a).
  { apply List.Forall_forall. intros l Hin. rewrite List.Forall_forall in Hra.
    apply Hra. exact Hin. }
  unfold w', Live._emit. rewrite exec_seq, exec_tell, exec_get_client.
  change (client (says [Emit e] w)) with (client w). rewrite Hl.
  set (w0 := says [Emit e] w).
  assert (Hl0 : eventListeners (client w0) (kind_of e) = Some (a ++ f :: g :: b)) by exact Hl.
  replace (length (a ++ f :: g :: b)) with (length a + S (S (length b)))
    by (rewrite length_app; cbn; lia).
  rewrite visit_split.
  destruct (visit_spared calls_off e (a ++ f :: g :: b) (length a) 0 w0 Hl0) as (A1 & A2 & A3).
  { rewrite drop_0, take_front. apply List.Forall_forall. intros l Hin.
    rewrite List.Forall_forall in Hra. apply Hs, Hra, Hin. }
  rewrite drop_0, take_front in A3.
  set (wa := exec (Live.visit calls_off e (length a) 0) w0) in *.
  replace (length a + 0) with (length a) by lia.
  rewrite visit_step, A1.
  change (default [] (Some ?l)) with l.
  rewrite nth_error_app2, Nat.sub_diag by lia. cbn [nth_error].
  destruct (call_once calls_off wa e a f (g :: b) A1 Hc Ha) as (B1 & B2 & B3).
  set (wf := exec (Live.call_listener calls_off e f) wa) in *.
  destruct (visit_spared calls_off e (a ++ g :: b) (S (length b)) (S (length a)) wf B1)
    as (C1 & C2 & C3).
  { rewrite drop_past, firstn_all2 by lia. apply List.Forall_forall. intros l Hin.
    rewrite List.Forall_forall in Hrb. apply Hs, Hrb, Hin. }
  rewrite drop_past, firstn_all2 in C3 by lia.
  split; [|exact C1].
  assert (Lf : forall x, listener_calls (listener_effects x e f) = [(f, e)]).
  { intros x. unfold listener_effects, logged.
    destruct (fn_throws f); [destruct (o_debug (options (client x)))|]; reflexivity. }
  rewrite C3, B3, A3. unfold w0, says. proj_simpl.
  rewrite !listener_calls_app, !listener_calls_effects, Lf, map_app.
  cbn [List.map listener_calls omap app]. rewrite <- ?app_assoc. reflexivity.
Qed.

Lemma self_removing_listener_hides_the_next_witness :
  let w := exec (forEach (on EvOpen) [returning 1; returning 2; returning 3]) demo_world in
  let w' := exec (Live._emit (Live.once EvOpen 1) OnOpen) w in
  listener_calls (trace w') = [(returning 1, OnOpen); (returning 3, OnOpen)] /\
  eventListeners (client w') EvOpen = Some [returning 2; returning 3].
Proof.
  refine (self_removing_listener_hides_the_next (Live.once EvOpen 1)
            (exec (forEach (on EvOpen) [returning 1; returning 2; returning 3]) demo_world)
            OnOpen [] [returning 3] (returning 1) (returning 2) eq_refl eq_refl _).
  repeat constructor.
Defined.
